(** * YEPcustos: landed-cost engine of [src/App.jsx]

    A shallow embedding of the cost computations of the import-cost
    calculator (freight tiers, customs base, duty, VAT, landed cost and the
    quantity-sensitivity curve) and the proofs of its specified properties.

    - JavaScript Numbers are IEEE 754 binary64 values: they are modelled by
      Rocq's primitive [float], whose operations are the same binary64
      operations with round-to-nearest-even and a single NaN.  Decimal
      literals denote the nearest binary64 value, as in JavaScript.
    - The objects used as dictionaries ([fx], [originDutyMap],
      [FCL_CAPACITY]) are finite maps over their own string keys.  A key
      read with [o[k]] that is not an own key is looked up in
      [Object.prototype]: it reads as an inherited member when it names
      one, and as [undefined] otherwise.
    - The state variables of the component are the fields of [Config]; every
      value derived with [useMemo] is a function of the state.  A derived
      value either returns or throws: [calcFreight] reads a property of
      [undefined] on an empty tier table.
    - The controls of the form are events: each has the condition under
      which it is rendered and enabled, and its [onChange] handler; the
      states of the running component are those reached from the initial
      state by such events.
    - Template strings are kept as the template and the Numbers interpolated
      into it; the branding state ([showLogo], [logoUrl]), the formatting of
      Numbers and the layout are left out. *)

From Stdlib Require Import ZArith Lia Bool List.
From Stdlib Require Import Floats.
From Stdlib Require Uint63.
From stdpp Require Import gmap strings.
Import ListNotations.

#[local] Set Warnings "-inexact-float".
Local Open Scope float_scope.

(** ** JavaScript built-ins used by the engine *)

Module JS.

(** A call either returns a value or throws; the only exception the engine
    can raise is the [TypeError] of reading a property of [undefined]. *)
Inductive completion (A : Type) : Type :=
  | Return (a : A)
  | TypeError.
Arguments Return {A} a.
Arguments TypeError {A}.

Definition bind {A B : Type} (m : completion A) (k : A -> completion B) : completion B :=
  match m with
  | Return a => k a
  | TypeError => TypeError
  end.

(** A loop that pushes [f a] for each [a] of [l], in order: the first
    exception aborts the loop. *)
Fixpoint traverse {A B : Type} (f : A -> completion B) (l : list A) : completion (list B) :=
  match l with
  | [] => Return []
  | a :: l' => bind (f a) (fun b => bind (traverse f l') (fun bs => Return (b :: bs)))
  end.

(** [ToBoolean] on a Number: [0], [-0] and [NaN] are falsy. *)
Definition truthy (x : float) : bool := negb (PrimFloat.is_zero x || PrimFloat.is_nan x).

(** [x || d] on Numbers. *)
Definition or_else (x d : float) : float := if truthy x then x else d.

(** [v ?? d] where [v] is a Number or [undefined]. *)
Definition nullish {A : Type} (v : option A) (d : A) : A :=
  match v with
  | Some a => a
  | None => d
  end.

(** What reading a property of an object literal with Number properties
    can give: one of its own Numbers, a member inherited from
    [Object.prototype] (a built-in function, or the prototype itself for
    [__proto__]), or [undefined]. *)
Inductive value : Type :=
  | Number (x : float)
  | Inherited
  | Undefined.

(** The property names of [Object.prototype]. *)
Definition Object_prototype : list string :=
  ["constructor"; "hasOwnProperty"; "isPrototypeOf"; "propertyIsEnumerable";
   "toLocaleString"; "toString"; "valueOf"; "__proto__"; "__defineGetter__";
   "__defineSetter__"; "__lookupGetter__"; "__lookupSetter__"].

(** [o[k]] on an object literal [o]: an own property first, then the
    prototype chain. *)
Definition get (o : gmap string float) (k : string) : value :=
  match o !! k with
  | Some x => Number x
  | None => if bool_decide (k ∈ Object_prototype) then Inherited else Undefined
  end.

(** [v ?? d]: [d] only when [v] is [undefined]. *)
Definition coalesce (v d : value) : value :=
  match v with
  | Undefined => d
  | _ => v
  end.

(** [ToNumber], applied by the arithmetic operators: a function or a plain
    object converts to NaN through its string, and [undefined] to NaN. *)
Definition ToNumber (v : value) : float :=
  match v with
  | Number x => x
  | Inherited | Undefined => nan
  end.

(** [SameValueZero]: numeric equality that identifies [0] with [-0] and
    [NaN] with itself. *)
Definition same_value_zero (x y : float) : bool :=
  (x =? y) || (is_nan x && is_nan y).

(** [Number.isFinite]: neither NaN nor an infinity. *)
Definition isFinite (x : float) : bool :=
  match Prim2SF x with
  | S754_zero _ | S754_finite _ _ _ => true
  | _ => false
  end.

(** The Number of a mathematical integer [0 <= z < 2^53] (exact). *)
Definition of_Z (z : Z) : float := PrimFloat.of_uint63 (Uint63.of_Z z).

Definition of_nat (n : nat) : float := of_Z (Z.of_nat n).

(** [Math.max] of two arguments: NaN if either is NaN, and [+0] is larger
    than [-0]. *)
Definition max2 (x y : float) : float :=
  if is_nan x || is_nan y then nan
  else if x <? y then y
  else if y <? x then x
  else if get_sign x then y else x.

(** [Math.max(x1, ..., xn)], folding from [-Infinity]. *)
Definition Math_max (xs : list float) : float :=
  fold_left max2 xs neg_infinity.

(** [Math.ceil]: non-finite values, zeros and integral values are returned
    unchanged; otherwise the integer part of the magnitude is bumped for
    positive arguments and kept for negative ones ([-0] in [(-1, 0)]). *)
Definition Math_ceil (x : float) : float :=
  match Prim2SF x with
  | S754_finite s m e =>
      if (0 <=? e)%Z then x
      else
        let k := (2 ^ (- e))%Z in
        let n := (Zpos m / k)%Z in
        let exact := (Zpos m mod k =? 0)%Z in
        if s then
          (if (n =? 0)%Z then neg_zero else - of_Z n)
        else
          (if exact then of_Z n else of_Z (n + 1))
  | _ => x
  end.

(** [Math.round]: the nearest integer, ties towards [+Infinity]. *)
Definition Math_round (x : float) : float :=
  match Prim2SF x with
  | S754_finite s m e =>
      if (0 <=? e)%Z then x
      else
        let k := (2 ^ (- e))%Z in
        let n := (Zpos m / k)%Z in
        let twice_frac := (2 * (Zpos m mod k))%Z in
        if s then
          let r := if (k <? twice_frac)%Z then (n + 1)%Z else n in
          (if (r =? 0)%Z then neg_zero else - of_Z r)
        else
          let r := if (k <=? twice_frac)%Z then (n + 1)%Z else n in
          (if (r =? 0)%Z then zero else of_Z r)
  | _ => x
  end.

End JS.

#[global] Instance completion_ret : MRet JS.completion := @JS.Return.
#[global] Instance completion_bind : MBind JS.completion :=
  fun A B k m => JS.bind m k.

(** ** Constants of the module (lines 10-43) *)

Definition DEFAULT_FX : gmap string float :=
  {[ "EUR" := 1; "USD" := 0.92; "CNY" := 0.128; "KRW" := 0.00067;
     "HKD" := 0.118; "BRL" := 0.18 ]}.

Record Tier : Type := { threshold : float; rate : float }.

Definition DEFAULT_AIR_TIERS : list Tier :=
  [ {| threshold := 45; rate := 6.5 |};
    {| threshold := 100; rate := 5.8 |};
    {| threshold := 300; rate := 5.0 |};
    {| threshold := 500; rate := 4.6 |};
    {| threshold := infinity; rate := 4.2 |} ].

Definition DEFAULT_LCL_TIERS : list Tier :=
  [ {| threshold := 2; rate := 180 |};
    {| threshold := 5; rate := 150 |};
    {| threshold := 10; rate := 120 |};
    {| threshold := infinity; rate := 100 |} ].

Definition FCL_CAPACITY : gmap string float :=
  {[ "Marítimo FCL 20'" := 33.2; "Marítimo FCL 40'" := 67.7 ]}.

(** [FCL_CAPACITY[k]] used as a Number: [undefined] converts to NaN. *)
Definition FCL_CAPACITY_at (k : string) : float :=
  JS.nullish (FCL_CAPACITY !! k) nan.

(** The options offered by the selects (lines 19-21). *)
Definition ORIGINS : list string := ["China"; "Korea"; "Hong Kong"; "Brasil"].

Definition INCOTERMS : list string := ["EXW"; "FOB"; "CIF"].

Definition MODES : list string :=
  ["Aéreo Express"; "Aéreo (Carga)"; "Marítimo LCL"; "Marítimo FCL 20'";
   "Marítimo FCL 40'"].

(** ** State of the component (lines 50-102) *)

Record Config : Type := {
  productOrigin : string;
  shipOrigin : string;
  mode : string;
  incoterm : string;
  supplierCurrency : string;
  unitPrice : float;
  qty : float;
  unitWeightKg : float;
  unitLcm : float;
  unitWcm : float;
  unitHcm : float;
  fx : gmap string float;
  insurancePct : float;
  brokerageFee : float;
  portTHC : float;
  otherFees : float;
  localOriginTransport : float;
  dutyPct : float;
  ignoreDuty : bool;
  originTariffEnabled : bool;
  originDutyMap : gmap string float;
  vatPct : float;
  vatRecoverable : bool;
  airTiers : list Tier;
  airVolFactor : float;
  airMinChargeKg : float;
  airFixedFees : float;
  lclTiers : list Tier;
  lclMinCbm : float;
  lclFixedFees : float;
  fcl20Price : float;
  fcl40Price : float;
  fclFixedFees : float
}.

(** The initial [useState] values. *)
Definition initial : Config := {|
  productOrigin := "China";
  shipOrigin := "China";
  mode := "Aéreo (Carga)";
  incoterm := "EXW";
  supplierCurrency := "USD";
  unitPrice := 300;
  qty := 100;
  unitWeightKg := 0.8;
  unitLcm := 17;
  unitWcm := 8;
  unitHcm := 5;
  fx := DEFAULT_FX;
  insurancePct := 0.5;
  brokerageFee := 120;
  portTHC := 150;
  otherFees := 50;
  localOriginTransport := 0;
  dutyPct := 0;
  ignoreDuty := true;
  originTariffEnabled := false;
  originDutyMap :=
    {[ "China" := 0; "Korea" := 0; "Hong Kong" := 0; "Brasil" := 0; "Outro" := 0 ]};
  vatPct := 23;
  vatRecoverable := true;
  airTiers := DEFAULT_AIR_TIERS;
  airVolFactor := 167;
  airMinChargeKg := 45;
  airFixedFees := 60;
  lclTiers := DEFAULT_LCL_TIERS;
  lclMinCbm := 1;
  lclFixedFees := 120;
  fcl20Price := 1800;
  fcl40Price := 2300;
  fclFixedFees := 300
|}.

(** The state setters ([setQty], [setShipOrigin], ...): the state with one
    variable replaced. *)
Definition setProductOrigin (v : string) (c : Config) : Config := {|
  productOrigin := v; shipOrigin := shipOrigin c; mode := mode c;
  incoterm := incoterm c; supplierCurrency := supplierCurrency c;
  unitPrice := unitPrice c; qty := qty c; unitWeightKg := unitWeightKg c;
  unitLcm := unitLcm c; unitWcm := unitWcm c; unitHcm := unitHcm c;
  fx := fx c; insurancePct := insurancePct c; brokerageFee := brokerageFee c;
  portTHC := portTHC c; otherFees := otherFees c;
  localOriginTransport := localOriginTransport c; dutyPct := dutyPct c;
  ignoreDuty := ignoreDuty c; originTariffEnabled := originTariffEnabled c;
  originDutyMap := originDutyMap c; vatPct := vatPct c;
  vatRecoverable := vatRecoverable c; airTiers := airTiers c;
  airVolFactor := airVolFactor c; airMinChargeKg := airMinChargeKg c;
  airFixedFees := airFixedFees c; lclTiers := lclTiers c;
  lclMinCbm := lclMinCbm c; lclFixedFees := lclFixedFees c;
  fcl20Price := fcl20Price c; fcl40Price := fcl40Price c;
  fclFixedFees := fclFixedFees c
|}.

Definition setShipOrigin (v : string) (c : Config) : Config := {|
  productOrigin := productOrigin c; shipOrigin := v; mode := mode c;
  incoterm := incoterm c; supplierCurrency := supplierCurrency c;
  unitPrice := unitPrice c; qty := qty c; unitWeightKg := unitWeightKg c;
  unitLcm := unitLcm c; unitWcm := unitWcm c; unitHcm := unitHcm c;
  fx := fx c; insurancePct := insurancePct c; brokerageFee := brokerageFee c;
  portTHC := portTHC c; otherFees := otherFees c;
  localOriginTransport := localOriginTransport c; dutyPct := dutyPct c;
  ignoreDuty := ignoreDuty c; originTariffEnabled := originTariffEnabled c;
  originDutyMap := originDutyMap c; vatPct := vatPct c;
  vatRecoverable := vatRecoverable c; airTiers := airTiers c;
  airVolFactor := airVolFactor c; airMinChargeKg := airMinChargeKg c;
  airFixedFees := airFixedFees c; lclTiers := lclTiers c;
  lclMinCbm := lclMinCbm c; lclFixedFees := lclFixedFees c;
  fcl20Price := fcl20Price c; fcl40Price := fcl40Price c;
  fclFixedFees := fclFixedFees c
|}.

Definition setMode (v : string) (c : Config) : Config := {|
  productOrigin := productOrigin c; shipOrigin := shipOrigin c; mode := v;
  incoterm := incoterm c; supplierCurrency := supplierCurrency c;
  unitPrice := unitPrice c; qty := qty c; unitWeightKg := unitWeightKg c;
  unitLcm := unitLcm c; unitWcm := unitWcm c; unitHcm := unitHcm c;
  fx := fx c; insurancePct := insurancePct c; brokerageFee := brokerageFee c;
  portTHC := portTHC c; otherFees := otherFees c;
  localOriginTransport := localOriginTransport c; dutyPct := dutyPct c;
  ignoreDuty := ignoreDuty c; originTariffEnabled := originTariffEnabled c;
  originDutyMap := originDutyMap c; vatPct := vatPct c;
  vatRecoverable := vatRecoverable c; airTiers := airTiers c;
  airVolFactor := airVolFactor c; airMinChargeKg := airMinChargeKg c;
  airFixedFees := airFixedFees c; lclTiers := lclTiers c;
  lclMinCbm := lclMinCbm c; lclFixedFees := lclFixedFees c;
  fcl20Price := fcl20Price c; fcl40Price := fcl40Price c;
  fclFixedFees := fclFixedFees c
|}.

Definition setIncoterm (v : string) (c : Config) : Config := {|
  productOrigin := productOrigin c; shipOrigin := shipOrigin c;
  mode := mode c; incoterm := v; supplierCurrency := supplierCurrency c;
  unitPrice := unitPrice c; qty := qty c; unitWeightKg := unitWeightKg c;
  unitLcm := unitLcm c; unitWcm := unitWcm c; unitHcm := unitHcm c;
  fx := fx c; insurancePct := insurancePct c; brokerageFee := brokerageFee c;
  portTHC := portTHC c; otherFees := otherFees c;
  localOriginTransport := localOriginTransport c; dutyPct := dutyPct c;
  ignoreDuty := ignoreDuty c; originTariffEnabled := originTariffEnabled c;
  originDutyMap := originDutyMap c; vatPct := vatPct c;
  vatRecoverable := vatRecoverable c; airTiers := airTiers c;
  airVolFactor := airVolFactor c; airMinChargeKg := airMinChargeKg c;
  airFixedFees := airFixedFees c; lclTiers := lclTiers c;
  lclMinCbm := lclMinCbm c; lclFixedFees := lclFixedFees c;
  fcl20Price := fcl20Price c; fcl40Price := fcl40Price c;
  fclFixedFees := fclFixedFees c
|}.

Definition setSupplierCurrency (v : string) (c : Config) : Config := {|
  productOrigin := productOrigin c; shipOrigin := shipOrigin c;
  mode := mode c; incoterm := incoterm c; supplierCurrency := v;
  unitPrice := unitPrice c; qty := qty c; unitWeightKg := unitWeightKg c;
  unitLcm := unitLcm c; unitWcm := unitWcm c; unitHcm := unitHcm c;
  fx := fx c; insurancePct := insurancePct c; brokerageFee := brokerageFee c;
  portTHC := portTHC c; otherFees := otherFees c;
  localOriginTransport := localOriginTransport c; dutyPct := dutyPct c;
  ignoreDuty := ignoreDuty c; originTariffEnabled := originTariffEnabled c;
  originDutyMap := originDutyMap c; vatPct := vatPct c;
  vatRecoverable := vatRecoverable c; airTiers := airTiers c;
  airVolFactor := airVolFactor c; airMinChargeKg := airMinChargeKg c;
  airFixedFees := airFixedFees c; lclTiers := lclTiers c;
  lclMinCbm := lclMinCbm c; lclFixedFees := lclFixedFees c;
  fcl20Price := fcl20Price c; fcl40Price := fcl40Price c;
  fclFixedFees := fclFixedFees c
|}.

Definition setUnitPrice (v : float) (c : Config) : Config := {|
  productOrigin := productOrigin c; shipOrigin := shipOrigin c;
  mode := mode c; incoterm := incoterm c;
  supplierCurrency := supplierCurrency c; unitPrice := v; qty := qty c;
  unitWeightKg := unitWeightKg c; unitLcm := unitLcm c; unitWcm := unitWcm c;
  unitHcm := unitHcm c; fx := fx c; insurancePct := insurancePct c;
  brokerageFee := brokerageFee c; portTHC := portTHC c;
  otherFees := otherFees c; localOriginTransport := localOriginTransport c;
  dutyPct := dutyPct c; ignoreDuty := ignoreDuty c;
  originTariffEnabled := originTariffEnabled c;
  originDutyMap := originDutyMap c; vatPct := vatPct c;
  vatRecoverable := vatRecoverable c; airTiers := airTiers c;
  airVolFactor := airVolFactor c; airMinChargeKg := airMinChargeKg c;
  airFixedFees := airFixedFees c; lclTiers := lclTiers c;
  lclMinCbm := lclMinCbm c; lclFixedFees := lclFixedFees c;
  fcl20Price := fcl20Price c; fcl40Price := fcl40Price c;
  fclFixedFees := fclFixedFees c
|}.

Definition setQty (v : float) (c : Config) : Config := {|
  productOrigin := productOrigin c; shipOrigin := shipOrigin c;
  mode := mode c; incoterm := incoterm c;
  supplierCurrency := supplierCurrency c; unitPrice := unitPrice c; qty := v;
  unitWeightKg := unitWeightKg c; unitLcm := unitLcm c; unitWcm := unitWcm c;
  unitHcm := unitHcm c; fx := fx c; insurancePct := insurancePct c;
  brokerageFee := brokerageFee c; portTHC := portTHC c;
  otherFees := otherFees c; localOriginTransport := localOriginTransport c;
  dutyPct := dutyPct c; ignoreDuty := ignoreDuty c;
  originTariffEnabled := originTariffEnabled c;
  originDutyMap := originDutyMap c; vatPct := vatPct c;
  vatRecoverable := vatRecoverable c; airTiers := airTiers c;
  airVolFactor := airVolFactor c; airMinChargeKg := airMinChargeKg c;
  airFixedFees := airFixedFees c; lclTiers := lclTiers c;
  lclMinCbm := lclMinCbm c; lclFixedFees := lclFixedFees c;
  fcl20Price := fcl20Price c; fcl40Price := fcl40Price c;
  fclFixedFees := fclFixedFees c
|}.

Definition setUnitLcm (v : float) (c : Config) : Config := {|
  productOrigin := productOrigin c; shipOrigin := shipOrigin c;
  mode := mode c; incoterm := incoterm c;
  supplierCurrency := supplierCurrency c; unitPrice := unitPrice c;
  qty := qty c; unitWeightKg := unitWeightKg c; unitLcm := v;
  unitWcm := unitWcm c; unitHcm := unitHcm c; fx := fx c;
  insurancePct := insurancePct c; brokerageFee := brokerageFee c;
  portTHC := portTHC c; otherFees := otherFees c;
  localOriginTransport := localOriginTransport c; dutyPct := dutyPct c;
  ignoreDuty := ignoreDuty c; originTariffEnabled := originTariffEnabled c;
  originDutyMap := originDutyMap c; vatPct := vatPct c;
  vatRecoverable := vatRecoverable c; airTiers := airTiers c;
  airVolFactor := airVolFactor c; airMinChargeKg := airMinChargeKg c;
  airFixedFees := airFixedFees c; lclTiers := lclTiers c;
  lclMinCbm := lclMinCbm c; lclFixedFees := lclFixedFees c;
  fcl20Price := fcl20Price c; fcl40Price := fcl40Price c;
  fclFixedFees := fclFixedFees c
|}.

Definition setUnitWcm (v : float) (c : Config) : Config := {|
  productOrigin := productOrigin c; shipOrigin := shipOrigin c;
  mode := mode c; incoterm := incoterm c;
  supplierCurrency := supplierCurrency c; unitPrice := unitPrice c;
  qty := qty c; unitWeightKg := unitWeightKg c; unitLcm := unitLcm c;
  unitWcm := v; unitHcm := unitHcm c; fx := fx c;
  insurancePct := insurancePct c; brokerageFee := brokerageFee c;
  portTHC := portTHC c; otherFees := otherFees c;
  localOriginTransport := localOriginTransport c; dutyPct := dutyPct c;
  ignoreDuty := ignoreDuty c; originTariffEnabled := originTariffEnabled c;
  originDutyMap := originDutyMap c; vatPct := vatPct c;
  vatRecoverable := vatRecoverable c; airTiers := airTiers c;
  airVolFactor := airVolFactor c; airMinChargeKg := airMinChargeKg c;
  airFixedFees := airFixedFees c; lclTiers := lclTiers c;
  lclMinCbm := lclMinCbm c; lclFixedFees := lclFixedFees c;
  fcl20Price := fcl20Price c; fcl40Price := fcl40Price c;
  fclFixedFees := fclFixedFees c
|}.

Definition setUnitHcm (v : float) (c : Config) : Config := {|
  productOrigin := productOrigin c; shipOrigin := shipOrigin c;
  mode := mode c; incoterm := incoterm c;
  supplierCurrency := supplierCurrency c; unitPrice := unitPrice c;
  qty := qty c; unitWeightKg := unitWeightKg c; unitLcm := unitLcm c;
  unitWcm := unitWcm c; unitHcm := v; fx := fx c;
  insurancePct := insurancePct c; brokerageFee := brokerageFee c;
  portTHC := portTHC c; otherFees := otherFees c;
  localOriginTransport := localOriginTransport c; dutyPct := dutyPct c;
  ignoreDuty := ignoreDuty c; originTariffEnabled := originTariffEnabled c;
  originDutyMap := originDutyMap c; vatPct := vatPct c;
  vatRecoverable := vatRecoverable c; airTiers := airTiers c;
  airVolFactor := airVolFactor c; airMinChargeKg := airMinChargeKg c;
  airFixedFees := airFixedFees c; lclTiers := lclTiers c;
  lclMinCbm := lclMinCbm c; lclFixedFees := lclFixedFees c;
  fcl20Price := fcl20Price c; fcl40Price := fcl40Price c;
  fclFixedFees := fclFixedFees c
|}.

Definition setDutyPct (v : float) (c : Config) : Config := {|
  productOrigin := productOrigin c; shipOrigin := shipOrigin c;
  mode := mode c; incoterm := incoterm c;
  supplierCurrency := supplierCurrency c; unitPrice := unitPrice c;
  qty := qty c; unitWeightKg := unitWeightKg c; unitLcm := unitLcm c;
  unitWcm := unitWcm c; unitHcm := unitHcm c; fx := fx c;
  insurancePct := insurancePct c; brokerageFee := brokerageFee c;
  portTHC := portTHC c; otherFees := otherFees c;
  localOriginTransport := localOriginTransport c; dutyPct := v;
  ignoreDuty := ignoreDuty c; originTariffEnabled := originTariffEnabled c;
  originDutyMap := originDutyMap c; vatPct := vatPct c;
  vatRecoverable := vatRecoverable c; airTiers := airTiers c;
  airVolFactor := airVolFactor c; airMinChargeKg := airMinChargeKg c;
  airFixedFees := airFixedFees c; lclTiers := lclTiers c;
  lclMinCbm := lclMinCbm c; lclFixedFees := lclFixedFees c;
  fcl20Price := fcl20Price c; fcl40Price := fcl40Price c;
  fclFixedFees := fclFixedFees c
|}.

Definition setIgnoreDuty (v : bool) (c : Config) : Config := {|
  productOrigin := productOrigin c; shipOrigin := shipOrigin c;
  mode := mode c; incoterm := incoterm c;
  supplierCurrency := supplierCurrency c; unitPrice := unitPrice c;
  qty := qty c; unitWeightKg := unitWeightKg c; unitLcm := unitLcm c;
  unitWcm := unitWcm c; unitHcm := unitHcm c; fx := fx c;
  insurancePct := insurancePct c; brokerageFee := brokerageFee c;
  portTHC := portTHC c; otherFees := otherFees c;
  localOriginTransport := localOriginTransport c; dutyPct := dutyPct c;
  ignoreDuty := v; originTariffEnabled := originTariffEnabled c;
  originDutyMap := originDutyMap c; vatPct := vatPct c;
  vatRecoverable := vatRecoverable c; airTiers := airTiers c;
  airVolFactor := airVolFactor c; airMinChargeKg := airMinChargeKg c;
  airFixedFees := airFixedFees c; lclTiers := lclTiers c;
  lclMinCbm := lclMinCbm c; lclFixedFees := lclFixedFees c;
  fcl20Price := fcl20Price c; fcl40Price := fcl40Price c;
  fclFixedFees := fclFixedFees c
|}.

Definition setOriginTariffEnabled (v : bool) (c : Config) : Config := {|
  productOrigin := productOrigin c; shipOrigin := shipOrigin c;
  mode := mode c; incoterm := incoterm c;
  supplierCurrency := supplierCurrency c; unitPrice := unitPrice c;
  qty := qty c; unitWeightKg := unitWeightKg c; unitLcm := unitLcm c;
  unitWcm := unitWcm c; unitHcm := unitHcm c; fx := fx c;
  insurancePct := insurancePct c; brokerageFee := brokerageFee c;
  portTHC := portTHC c; otherFees := otherFees c;
  localOriginTransport := localOriginTransport c; dutyPct := dutyPct c;
  ignoreDuty := ignoreDuty c; originTariffEnabled := v;
  originDutyMap := originDutyMap c; vatPct := vatPct c;
  vatRecoverable := vatRecoverable c; airTiers := airTiers c;
  airVolFactor := airVolFactor c; airMinChargeKg := airMinChargeKg c;
  airFixedFees := airFixedFees c; lclTiers := lclTiers c;
  lclMinCbm := lclMinCbm c; lclFixedFees := lclFixedFees c;
  fcl20Price := fcl20Price c; fcl40Price := fcl40Price c;
  fclFixedFees := fclFixedFees c
|}.

Definition setOriginDutyMap (v : gmap string float) (c : Config) : Config := {|
  productOrigin := productOrigin c; shipOrigin := shipOrigin c;
  mode := mode c; incoterm := incoterm c;
  supplierCurrency := supplierCurrency c; unitPrice := unitPrice c;
  qty := qty c; unitWeightKg := unitWeightKg c; unitLcm := unitLcm c;
  unitWcm := unitWcm c; unitHcm := unitHcm c; fx := fx c;
  insurancePct := insurancePct c; brokerageFee := brokerageFee c;
  portTHC := portTHC c; otherFees := otherFees c;
  localOriginTransport := localOriginTransport c; dutyPct := dutyPct c;
  ignoreDuty := ignoreDuty c; originTariffEnabled := originTariffEnabled c;
  originDutyMap := v; vatPct := vatPct c; vatRecoverable := vatRecoverable c;
  airTiers := airTiers c; airVolFactor := airVolFactor c;
  airMinChargeKg := airMinChargeKg c; airFixedFees := airFixedFees c;
  lclTiers := lclTiers c; lclMinCbm := lclMinCbm c;
  lclFixedFees := lclFixedFees c; fcl20Price := fcl20Price c;
  fcl40Price := fcl40Price c; fclFixedFees := fclFixedFees c
|}.

Definition setVatRecoverable (v : bool) (c : Config) : Config := {|
  productOrigin := productOrigin c; shipOrigin := shipOrigin c;
  mode := mode c; incoterm := incoterm c;
  supplierCurrency := supplierCurrency c; unitPrice := unitPrice c;
  qty := qty c; unitWeightKg := unitWeightKg c; unitLcm := unitLcm c;
  unitWcm := unitWcm c; unitHcm := unitHcm c; fx := fx c;
  insurancePct := insurancePct c; brokerageFee := brokerageFee c;
  portTHC := portTHC c; otherFees := otherFees c;
  localOriginTransport := localOriginTransport c; dutyPct := dutyPct c;
  ignoreDuty := ignoreDuty c; originTariffEnabled := originTariffEnabled c;
  originDutyMap := originDutyMap c; vatPct := vatPct c; vatRecoverable := v;
  airTiers := airTiers c; airVolFactor := airVolFactor c;
  airMinChargeKg := airMinChargeKg c; airFixedFees := airFixedFees c;
  lclTiers := lclTiers c; lclMinCbm := lclMinCbm c;
  lclFixedFees := lclFixedFees c; fcl20Price := fcl20Price c;
  fcl40Price := fcl40Price c; fclFixedFees := fclFixedFees c
|}.

Definition setAirTiers (v : list Tier) (c : Config) : Config := {|
  productOrigin := productOrigin c; shipOrigin := shipOrigin c;
  mode := mode c; incoterm := incoterm c;
  supplierCurrency := supplierCurrency c; unitPrice := unitPrice c;
  qty := qty c; unitWeightKg := unitWeightKg c; unitLcm := unitLcm c;
  unitWcm := unitWcm c; unitHcm := unitHcm c; fx := fx c;
  insurancePct := insurancePct c; brokerageFee := brokerageFee c;
  portTHC := portTHC c; otherFees := otherFees c;
  localOriginTransport := localOriginTransport c; dutyPct := dutyPct c;
  ignoreDuty := ignoreDuty c; originTariffEnabled := originTariffEnabled c;
  originDutyMap := originDutyMap c; vatPct := vatPct c;
  vatRecoverable := vatRecoverable c; airTiers := v;
  airVolFactor := airVolFactor c; airMinChargeKg := airMinChargeKg c;
  airFixedFees := airFixedFees c; lclTiers := lclTiers c;
  lclMinCbm := lclMinCbm c; lclFixedFees := lclFixedFees c;
  fcl20Price := fcl20Price c; fcl40Price := fcl40Price c;
  fclFixedFees := fclFixedFees c
|}.

Definition setLclTiers (v : list Tier) (c : Config) : Config := {|
  productOrigin := productOrigin c; shipOrigin := shipOrigin c;
  mode := mode c; incoterm := incoterm c;
  supplierCurrency := supplierCurrency c; unitPrice := unitPrice c;
  qty := qty c; unitWeightKg := unitWeightKg c; unitLcm := unitLcm c;
  unitWcm := unitWcm c; unitHcm := unitHcm c; fx := fx c;
  insurancePct := insurancePct c; brokerageFee := brokerageFee c;
  portTHC := portTHC c; otherFees := otherFees c;
  localOriginTransport := localOriginTransport c; dutyPct := dutyPct c;
  ignoreDuty := ignoreDuty c; originTariffEnabled := originTariffEnabled c;
  originDutyMap := originDutyMap c; vatPct := vatPct c;
  vatRecoverable := vatRecoverable c; airTiers := airTiers c;
  airVolFactor := airVolFactor c; airMinChargeKg := airMinChargeKg c;
  airFixedFees := airFixedFees c; lclTiers := v; lclMinCbm := lclMinCbm c;
  lclFixedFees := lclFixedFees c; fcl20Price := fcl20Price c;
  fcl40Price := fcl40Price c; fclFixedFees := fclFixedFees c
|}.

Definition setUnitWeightKg (v : float) (c : Config) : Config := {|
  productOrigin := productOrigin c; shipOrigin := shipOrigin c; mode := mode c;
  incoterm := incoterm c; supplierCurrency := supplierCurrency c;
  unitPrice := unitPrice c; qty := qty c; unitWeightKg := v;
  unitLcm := unitLcm c; unitWcm := unitWcm c; unitHcm := unitHcm c;
  fx := fx c; insurancePct := insurancePct c; brokerageFee := brokerageFee c;
  portTHC := portTHC c; otherFees := otherFees c;
  localOriginTransport := localOriginTransport c; dutyPct := dutyPct c;
  ignoreDuty := ignoreDuty c; originTariffEnabled := originTariffEnabled c;
  originDutyMap := originDutyMap c; vatPct := vatPct c;
  vatRecoverable := vatRecoverable c; airTiers := airTiers c;
  airVolFactor := airVolFactor c; airMinChargeKg := airMinChargeKg c;
  airFixedFees := airFixedFees c; lclTiers := lclTiers c;
  lclMinCbm := lclMinCbm c; lclFixedFees := lclFixedFees c;
  fcl20Price := fcl20Price c; fcl40Price := fcl40Price c;
  fclFixedFees := fclFixedFees c
|}.

Definition setFx (v : gmap string float) (c : Config) : Config := {|
  productOrigin := productOrigin c; shipOrigin := shipOrigin c; mode := mode c;
  incoterm := incoterm c; supplierCurrency := supplierCurrency c;
  unitPrice := unitPrice c; qty := qty c; unitWeightKg := unitWeightKg c;
  unitLcm := unitLcm c; unitWcm := unitWcm c; unitHcm := unitHcm c;
  fx := v; insurancePct := insurancePct c; brokerageFee := brokerageFee c;
  portTHC := portTHC c; otherFees := otherFees c;
  localOriginTransport := localOriginTransport c; dutyPct := dutyPct c;
  ignoreDuty := ignoreDuty c; originTariffEnabled := originTariffEnabled c;
  originDutyMap := originDutyMap c; vatPct := vatPct c;
  vatRecoverable := vatRecoverable c; airTiers := airTiers c;
  airVolFactor := airVolFactor c; airMinChargeKg := airMinChargeKg c;
  airFixedFees := airFixedFees c; lclTiers := lclTiers c;
  lclMinCbm := lclMinCbm c; lclFixedFees := lclFixedFees c;
  fcl20Price := fcl20Price c; fcl40Price := fcl40Price c;
  fclFixedFees := fclFixedFees c
|}.

Definition setInsurancePct (v : float) (c : Config) : Config := {|
  productOrigin := productOrigin c; shipOrigin := shipOrigin c; mode := mode c;
  incoterm := incoterm c; supplierCurrency := supplierCurrency c;
  unitPrice := unitPrice c; qty := qty c; unitWeightKg := unitWeightKg c;
  unitLcm := unitLcm c; unitWcm := unitWcm c; unitHcm := unitHcm c;
  fx := fx c; insurancePct := v; brokerageFee := brokerageFee c;
  portTHC := portTHC c; otherFees := otherFees c;
  localOriginTransport := localOriginTransport c; dutyPct := dutyPct c;
  ignoreDuty := ignoreDuty c; originTariffEnabled := originTariffEnabled c;
  originDutyMap := originDutyMap c; vatPct := vatPct c;
  vatRecoverable := vatRecoverable c; airTiers := airTiers c;
  airVolFactor := airVolFactor c; airMinChargeKg := airMinChargeKg c;
  airFixedFees := airFixedFees c; lclTiers := lclTiers c;
  lclMinCbm := lclMinCbm c; lclFixedFees := lclFixedFees c;
  fcl20Price := fcl20Price c; fcl40Price := fcl40Price c;
  fclFixedFees := fclFixedFees c
|}.

Definition setBrokerageFee (v : float) (c : Config) : Config := {|
  productOrigin := productOrigin c; shipOrigin := shipOrigin c; mode := mode c;
  incoterm := incoterm c; supplierCurrency := supplierCurrency c;
  unitPrice := unitPrice c; qty := qty c; unitWeightKg := unitWeightKg c;
  unitLcm := unitLcm c; unitWcm := unitWcm c; unitHcm := unitHcm c;
  fx := fx c; insurancePct := insurancePct c; brokerageFee := v;
  portTHC := portTHC c; otherFees := otherFees c;
  localOriginTransport := localOriginTransport c; dutyPct := dutyPct c;
  ignoreDuty := ignoreDuty c; originTariffEnabled := originTariffEnabled c;
  originDutyMap := originDutyMap c; vatPct := vatPct c;
  vatRecoverable := vatRecoverable c; airTiers := airTiers c;
  airVolFactor := airVolFactor c; airMinChargeKg := airMinChargeKg c;
  airFixedFees := airFixedFees c; lclTiers := lclTiers c;
  lclMinCbm := lclMinCbm c; lclFixedFees := lclFixedFees c;
  fcl20Price := fcl20Price c; fcl40Price := fcl40Price c;
  fclFixedFees := fclFixedFees c
|}.

Definition setPortTHC (v : float) (c : Config) : Config := {|
  productOrigin := productOrigin c; shipOrigin := shipOrigin c; mode := mode c;
  incoterm := incoterm c; supplierCurrency := supplierCurrency c;
  unitPrice := unitPrice c; qty := qty c; unitWeightKg := unitWeightKg c;
  unitLcm := unitLcm c; unitWcm := unitWcm c; unitHcm := unitHcm c;
  fx := fx c; insurancePct := insurancePct c; brokerageFee := brokerageFee c;
  portTHC := v; otherFees := otherFees c;
  localOriginTransport := localOriginTransport c; dutyPct := dutyPct c;
  ignoreDuty := ignoreDuty c; originTariffEnabled := originTariffEnabled c;
  originDutyMap := originDutyMap c; vatPct := vatPct c;
  vatRecoverable := vatRecoverable c; airTiers := airTiers c;
  airVolFactor := airVolFactor c; airMinChargeKg := airMinChargeKg c;
  airFixedFees := airFixedFees c; lclTiers := lclTiers c;
  lclMinCbm := lclMinCbm c; lclFixedFees := lclFixedFees c;
  fcl20Price := fcl20Price c; fcl40Price := fcl40Price c;
  fclFixedFees := fclFixedFees c
|}.

Definition setOtherFees (v : float) (c : Config) : Config := {|
  productOrigin := productOrigin c; shipOrigin := shipOrigin c; mode := mode c;
  incoterm := incoterm c; supplierCurrency := supplierCurrency c;
  unitPrice := unitPrice c; qty := qty c; unitWeightKg := unitWeightKg c;
  unitLcm := unitLcm c; unitWcm := unitWcm c; unitHcm := unitHcm c;
  fx := fx c; insurancePct := insurancePct c; brokerageFee := brokerageFee c;
  portTHC := portTHC c; otherFees := v;
  localOriginTransport := localOriginTransport c; dutyPct := dutyPct c;
  ignoreDuty := ignoreDuty c; originTariffEnabled := originTariffEnabled c;
  originDutyMap := originDutyMap c; vatPct := vatPct c;
  vatRecoverable := vatRecoverable c; airTiers := airTiers c;
  airVolFactor := airVolFactor c; airMinChargeKg := airMinChargeKg c;
  airFixedFees := airFixedFees c; lclTiers := lclTiers c;
  lclMinCbm := lclMinCbm c; lclFixedFees := lclFixedFees c;
  fcl20Price := fcl20Price c; fcl40Price := fcl40Price c;
  fclFixedFees := fclFixedFees c
|}.

Definition setLocalOriginTransport (v : float) (c : Config) : Config := {|
  productOrigin := productOrigin c; shipOrigin := shipOrigin c; mode := mode c;
  incoterm := incoterm c; supplierCurrency := supplierCurrency c;
  unitPrice := unitPrice c; qty := qty c; unitWeightKg := unitWeightKg c;
  unitLcm := unitLcm c; unitWcm := unitWcm c; unitHcm := unitHcm c;
  fx := fx c; insurancePct := insurancePct c; brokerageFee := brokerageFee c;
  portTHC := portTHC c; otherFees := otherFees c;
  localOriginTransport := v; dutyPct := dutyPct c;
  ignoreDuty := ignoreDuty c; originTariffEnabled := originTariffEnabled c;
  originDutyMap := originDutyMap c; vatPct := vatPct c;
  vatRecoverable := vatRecoverable c; airTiers := airTiers c;
  airVolFactor := airVolFactor c; airMinChargeKg := airMinChargeKg c;
  airFixedFees := airFixedFees c; lclTiers := lclTiers c;
  lclMinCbm := lclMinCbm c; lclFixedFees := lclFixedFees c;
  fcl20Price := fcl20Price c; fcl40Price := fcl40Price c;
  fclFixedFees := fclFixedFees c
|}.

Definition setVatPct (v : float) (c : Config) : Config := {|
  productOrigin := productOrigin c; shipOrigin := shipOrigin c; mode := mode c;
  incoterm := incoterm c; supplierCurrency := supplierCurrency c;
  unitPrice := unitPrice c; qty := qty c; unitWeightKg := unitWeightKg c;
  unitLcm := unitLcm c; unitWcm := unitWcm c; unitHcm := unitHcm c;
  fx := fx c; insurancePct := insurancePct c; brokerageFee := brokerageFee c;
  portTHC := portTHC c; otherFees := otherFees c;
  localOriginTransport := localOriginTransport c; dutyPct := dutyPct c;
  ignoreDuty := ignoreDuty c; originTariffEnabled := originTariffEnabled c;
  originDutyMap := originDutyMap c; vatPct := v;
  vatRecoverable := vatRecoverable c; airTiers := airTiers c;
  airVolFactor := airVolFactor c; airMinChargeKg := airMinChargeKg c;
  airFixedFees := airFixedFees c; lclTiers := lclTiers c;
  lclMinCbm := lclMinCbm c; lclFixedFees := lclFixedFees c;
  fcl20Price := fcl20Price c; fcl40Price := fcl40Price c;
  fclFixedFees := fclFixedFees c
|}.

Definition setAirVolFactor (v : float) (c : Config) : Config := {|
  productOrigin := productOrigin c; shipOrigin := shipOrigin c; mode := mode c;
  incoterm := incoterm c; supplierCurrency := supplierCurrency c;
  unitPrice := unitPrice c; qty := qty c; unitWeightKg := unitWeightKg c;
  unitLcm := unitLcm c; unitWcm := unitWcm c; unitHcm := unitHcm c;
  fx := fx c; insurancePct := insurancePct c; brokerageFee := brokerageFee c;
  portTHC := portTHC c; otherFees := otherFees c;
  localOriginTransport := localOriginTransport c; dutyPct := dutyPct c;
  ignoreDuty := ignoreDuty c; originTariffEnabled := originTariffEnabled c;
  originDutyMap := originDutyMap c; vatPct := vatPct c;
  vatRecoverable := vatRecoverable c; airTiers := airTiers c;
  airVolFactor := v; airMinChargeKg := airMinChargeKg c;
  airFixedFees := airFixedFees c; lclTiers := lclTiers c;
  lclMinCbm := lclMinCbm c; lclFixedFees := lclFixedFees c;
  fcl20Price := fcl20Price c; fcl40Price := fcl40Price c;
  fclFixedFees := fclFixedFees c
|}.

Definition setAirMinChargeKg (v : float) (c : Config) : Config := {|
  productOrigin := productOrigin c; shipOrigin := shipOrigin c; mode := mode c;
  incoterm := incoterm c; supplierCurrency := supplierCurrency c;
  unitPrice := unitPrice c; qty := qty c; unitWeightKg := unitWeightKg c;
  unitLcm := unitLcm c; unitWcm := unitWcm c; unitHcm := unitHcm c;
  fx := fx c; insurancePct := insurancePct c; brokerageFee := brokerageFee c;
  portTHC := portTHC c; otherFees := otherFees c;
  localOriginTransport := localOriginTransport c; dutyPct := dutyPct c;
  ignoreDuty := ignoreDuty c; originTariffEnabled := originTariffEnabled c;
  originDutyMap := originDutyMap c; vatPct := vatPct c;
  vatRecoverable := vatRecoverable c; airTiers := airTiers c;
  airVolFactor := airVolFactor c; airMinChargeKg := v;
  airFixedFees := airFixedFees c; lclTiers := lclTiers c;
  lclMinCbm := lclMinCbm c; lclFixedFees := lclFixedFees c;
  fcl20Price := fcl20Price c; fcl40Price := fcl40Price c;
  fclFixedFees := fclFixedFees c
|}.

Definition setAirFixedFees (v : float) (c : Config) : Config := {|
  productOrigin := productOrigin c; shipOrigin := shipOrigin c; mode := mode c;
  incoterm := incoterm c; supplierCurrency := supplierCurrency c;
  unitPrice := unitPrice c; qty := qty c; unitWeightKg := unitWeightKg c;
  unitLcm := unitLcm c; unitWcm := unitWcm c; unitHcm := unitHcm c;
  fx := fx c; insurancePct := insurancePct c; brokerageFee := brokerageFee c;
  portTHC := portTHC c; otherFees := otherFees c;
  localOriginTransport := localOriginTransport c; dutyPct := dutyPct c;
  ignoreDuty := ignoreDuty c; originTariffEnabled := originTariffEnabled c;
  originDutyMap := originDutyMap c; vatPct := vatPct c;
  vatRecoverable := vatRecoverable c; airTiers := airTiers c;
  airVolFactor := airVolFactor c; airMinChargeKg := airMinChargeKg c;
  airFixedFees := v; lclTiers := lclTiers c;
  lclMinCbm := lclMinCbm c; lclFixedFees := lclFixedFees c;
  fcl20Price := fcl20Price c; fcl40Price := fcl40Price c;
  fclFixedFees := fclFixedFees c
|}.

Definition setLclMinCbm (v : float) (c : Config) : Config := {|
  productOrigin := productOrigin c; shipOrigin := shipOrigin c; mode := mode c;
  incoterm := incoterm c; supplierCurrency := supplierCurrency c;
  unitPrice := unitPrice c; qty := qty c; unitWeightKg := unitWeightKg c;
  unitLcm := unitLcm c; unitWcm := unitWcm c; unitHcm := unitHcm c;
  fx := fx c; insurancePct := insurancePct c; brokerageFee := brokerageFee c;
  portTHC := portTHC c; otherFees := otherFees c;
  localOriginTransport := localOriginTransport c; dutyPct := dutyPct c;
  ignoreDuty := ignoreDuty c; originTariffEnabled := originTariffEnabled c;
  originDutyMap := originDutyMap c; vatPct := vatPct c;
  vatRecoverable := vatRecoverable c; airTiers := airTiers c;
  airVolFactor := airVolFactor c; airMinChargeKg := airMinChargeKg c;
  airFixedFees := airFixedFees c; lclTiers := lclTiers c;
  lclMinCbm := v; lclFixedFees := lclFixedFees c;
  fcl20Price := fcl20Price c; fcl40Price := fcl40Price c;
  fclFixedFees := fclFixedFees c
|}.

Definition setLclFixedFees (v : float) (c : Config) : Config := {|
  productOrigin := productOrigin c; shipOrigin := shipOrigin c; mode := mode c;
  incoterm := incoterm c; supplierCurrency := supplierCurrency c;
  unitPrice := unitPrice c; qty := qty c; unitWeightKg := unitWeightKg c;
  unitLcm := unitLcm c; unitWcm := unitWcm c; unitHcm := unitHcm c;
  fx := fx c; insurancePct := insurancePct c; brokerageFee := brokerageFee c;
  portTHC := portTHC c; otherFees := otherFees c;
  localOriginTransport := localOriginTransport c; dutyPct := dutyPct c;
  ignoreDuty := ignoreDuty c; originTariffEnabled := originTariffEnabled c;
  originDutyMap := originDutyMap c; vatPct := vatPct c;
  vatRecoverable := vatRecoverable c; airTiers := airTiers c;
  airVolFactor := airVolFactor c; airMinChargeKg := airMinChargeKg c;
  airFixedFees := airFixedFees c; lclTiers := lclTiers c;
  lclMinCbm := lclMinCbm c; lclFixedFees := v;
  fcl20Price := fcl20Price c; fcl40Price := fcl40Price c;
  fclFixedFees := fclFixedFees c
|}.

Definition setFcl20Price (v : float) (c : Config) : Config := {|
  productOrigin := productOrigin c; shipOrigin := shipOrigin c; mode := mode c;
  incoterm := incoterm c; supplierCurrency := supplierCurrency c;
  unitPrice := unitPrice c; qty := qty c; unitWeightKg := unitWeightKg c;
  unitLcm := unitLcm c; unitWcm := unitWcm c; unitHcm := unitHcm c;
  fx := fx c; insurancePct := insurancePct c; brokerageFee := brokerageFee c;
  portTHC := portTHC c; otherFees := otherFees c;
  localOriginTransport := localOriginTransport c; dutyPct := dutyPct c;
  ignoreDuty := ignoreDuty c; originTariffEnabled := originTariffEnabled c;
  originDutyMap := originDutyMap c; vatPct := vatPct c;
  vatRecoverable := vatRecoverable c; airTiers := airTiers c;
  airVolFactor := airVolFactor c; airMinChargeKg := airMinChargeKg c;
  airFixedFees := airFixedFees c; lclTiers := lclTiers c;
  lclMinCbm := lclMinCbm c; lclFixedFees := lclFixedFees c;
  fcl20Price := v; fcl40Price := fcl40Price c;
  fclFixedFees := fclFixedFees c
|}.

Definition setFcl40Price (v : float) (c : Config) : Config := {|
  productOrigin := productOrigin c; shipOrigin := shipOrigin c; mode := mode c;
  incoterm := incoterm c; supplierCurrency := supplierCurrency c;
  unitPrice := unitPrice c; qty := qty c; unitWeightKg := unitWeightKg c;
  unitLcm := unitLcm c; unitWcm := unitWcm c; unitHcm := unitHcm c;
  fx := fx c; insurancePct := insurancePct c; brokerageFee := brokerageFee c;
  portTHC := portTHC c; otherFees := otherFees c;
  localOriginTransport := localOriginTransport c; dutyPct := dutyPct c;
  ignoreDuty := ignoreDuty c; originTariffEnabled := originTariffEnabled c;
  originDutyMap := originDutyMap c; vatPct := vatPct c;
  vatRecoverable := vatRecoverable c; airTiers := airTiers c;
  airVolFactor := airVolFactor c; airMinChargeKg := airMinChargeKg c;
  airFixedFees := airFixedFees c; lclTiers := lclTiers c;
  lclMinCbm := lclMinCbm c; lclFixedFees := lclFixedFees c;
  fcl20Price := fcl20Price c; fcl40Price := v;
  fclFixedFees := fclFixedFees c
|}.

Definition setFclFixedFees (v : float) (c : Config) : Config := {|
  productOrigin := productOrigin c; shipOrigin := shipOrigin c; mode := mode c;
  incoterm := incoterm c; supplierCurrency := supplierCurrency c;
  unitPrice := unitPrice c; qty := qty c; unitWeightKg := unitWeightKg c;
  unitLcm := unitLcm c; unitWcm := unitWcm c; unitHcm := unitHcm c;
  fx := fx c; insurancePct := insurancePct c; brokerageFee := brokerageFee c;
  portTHC := portTHC c; otherFees := otherFees c;
  localOriginTransport := localOriginTransport c; dutyPct := dutyPct c;
  ignoreDuty := ignoreDuty c; originTariffEnabled := originTariffEnabled c;
  originDutyMap := originDutyMap c; vatPct := vatPct c;
  vatRecoverable := vatRecoverable c; airTiers := airTiers c;
  airVolFactor := airVolFactor c; airMinChargeKg := airMinChargeKg c;
  airFixedFees := airFixedFees c; lclTiers := lclTiers c;
  lclMinCbm := lclMinCbm c; lclFixedFees := lclFixedFees c;
  fcl20Price := fcl20Price c; fcl40Price := fcl40Price c;
  fclFixedFees := v
|}.

(** ** Event handlers of the editable inputs *)

(** The quantity input (line 265): [setQty(Math.max(1, Number(value)))]. *)
Definition onQtyChange (v : float) (c : Config) : Config :=
  setQty (JS.Math_max [1; v]) c.

(** The rate input of the tier at index [idx] in [TierEditor] (lines
    574-579): [copy = tiers.slice(); copy[idx] = {...t, rate: v}], where
    [t] is [tiers[idx]].  The editor renders one input for each existing
    tier and offers no way to add, remove or reorder tiers or to change a
    threshold. *)
Definition onTierRateChange (tiers : list Tier) (idx : nat) (v : float) : list Tier :=
  match tiers !! idx with
  | Some t => <[idx := {| threshold := threshold t; rate := v |}]> tiers
  | None => tiers
  end.

(** The tier tables that the editor can reach from a default table. *)
Inductive editable_from (tiers0 : list Tier) : list Tier -> Prop :=
  | editable_initial : editable_from tiers0 tiers0
  | editable_rate (tiers : list Tier) (idx : nat) (v : float) :
      editable_from tiers0 tiers ->
      editable_from tiers0 (onTierRateChange tiers idx v).

(** An exchange-rate input (line 310):
    [setFx({ ...fx, [code]: Number(value) })]. *)
Definition onFxChange (code : string) (v : float) (c : Config) : Config :=
  setFx (<[code := v]> (fx c)) c.

(** An input of the origin duty table (line 446):
    [setOriginDutyMap({ ...originDutyMap, [o]: Number(value) })]. *)
Definition onOriginDutyChange (o : string) (v : float) (c : Config) : Config :=
  setOriginDutyMap (<[o := v]> (originDutyMap c)) c.

(** The value shown in that input: [originDutyMap[o] ?? 0]. *)
Definition originDutyShown (o : string) (c : Config) : JS.value :=
  JS.coalesce (JS.get (originDutyMap c) o) (JS.Number 0).

(** ** The controls of the form (lines 232-463)

    One event for each control that changes the state.  A select reports
    one of its options, a checkbox its new state, and a number input the
    Number of its text, which may be any Number. *)
Inductive Event : Type :=
  | SelectProductOrigin (o : string)
  | SelectShipOrigin (o : string)
  | SelectMode (m : string)
  | SelectIncoterm (i : string)
  | InputQty (v : float)
  | InputUnitPrice (v : float)
  | SelectSupplierCurrency (code : string)
  | InputUnitWeightKg (v : float)
  | InputUnitLcm (v : float)
  | InputUnitWcm (v : float)
  | InputUnitHcm (v : float)
  | InputFx (code : string) (v : float)
  | InputInsurancePct (v : float)
  | InputBrokerageFee (v : float)
  | InputPortTHC (v : float)
  | InputOtherFees (v : float)
  | InputAirVolFactor (v : float)
  | InputAirMinChargeKg (v : float)
  | InputAirFixedFees (v : float)
  | InputAirTierRate (idx : nat) (v : float)
  | InputLclMinCbm (v : float)
  | InputLclFixedFees (v : float)
  | InputLclTierRate (idx : nat) (v : float)
  | InputFcl20Price (v : float)
  | InputFcl40Price (v : float)
  | InputFclFixedFees (v : float)
  | InputLocalOriginTransport (v : float)
  | CheckIgnoreDuty (b : bool)
  | CheckOriginTariffEnabled (b : bool)
  | InputDutyPct (v : float)
  | InputOriginDuty (o : string) (v : float)
  | InputVatPct (v : float)
  | CheckVatRecoverable (b : bool).

(** [mode === "Aéreo Express" || mode === "Aéreo (Carga)"] (line 352). *)
Definition airPanel (c : Config) : bool :=
  (mode c =? "Aéreo Express")%string || (mode c =? "Aéreo (Carga)")%string.

(** Whether the control of an event is rendered and not disabled in state
    [c], and offers the reported option: the freight panels are rendered
    for their own mode only (lines 352, 374, 392-400), the currency select
    and the exchange-rate inputs are generated from [Object.keys(fx)]
    (lines 279, 307), a tier table has one rate input for each of its tiers
    (line 564), and the duty controls are disabled as lines 433, 438 and
    446 say. *)
Definition enabled (c : Config) (e : Event) : bool :=
  match e with
  | SelectProductOrigin o | SelectShipOrigin o =>
      bool_decide (o ∈ ORIGINS ++ ["Outro"])
  | SelectMode m => bool_decide (m ∈ MODES)
  | SelectIncoterm i => bool_decide (i ∈ INCOTERMS)
  | SelectSupplierCurrency code | InputFx code _ =>
      bool_decide (is_Some (fx c !! code))
  | InputAirVolFactor _ | InputAirMinChargeKg _ | InputAirFixedFees _ =>
      airPanel c
  | InputAirTierRate idx _ => airPanel c && (idx <? length (airTiers c))%nat
  | InputLclMinCbm _ | InputLclFixedFees _ => (mode c =? "Marítimo LCL")%string
  | InputLclTierRate idx _ =>
      (mode c =? "Marítimo LCL")%string && (idx <? length (lclTiers c))%nat
  | InputFcl20Price _ => (mode c =? "Marítimo FCL 20'")%string
  | InputFcl40Price _ => (mode c =? "Marítimo FCL 40'")%string
  | InputFclFixedFees _ =>
      (mode c =? "Marítimo FCL 20'")%string || (mode c =? "Marítimo FCL 40'")%string
  | CheckOriginTariffEnabled _ => negb (ignoreDuty c)
  | InputDutyPct _ => negb (ignoreDuty c || originTariffEnabled c)
  | InputOriginDuty o _ =>
      bool_decide (o ∈ ORIGINS ++ ["Outro"])
      && negb (ignoreDuty c || negb (originTariffEnabled c))
  | _ => true
  end.

(** The [onChange] handler of each control. *)
Definition handle (e : Event) (c : Config) : Config :=
  match e with
  | SelectProductOrigin o => setProductOrigin o c
  | SelectShipOrigin o => setShipOrigin o c
  | SelectMode m => setMode m c
  | SelectIncoterm i => setIncoterm i c
  | InputQty v => onQtyChange v c
  | InputUnitPrice v => setUnitPrice v c
  | SelectSupplierCurrency code => setSupplierCurrency code c
  | InputUnitWeightKg v => setUnitWeightKg v c
  | InputUnitLcm v => setUnitLcm v c
  | InputUnitWcm v => setUnitWcm v c
  | InputUnitHcm v => setUnitHcm v c
  | InputFx code v => onFxChange code v c
  | InputInsurancePct v => setInsurancePct v c
  | InputBrokerageFee v => setBrokerageFee v c
  | InputPortTHC v => setPortTHC v c
  | InputOtherFees v => setOtherFees v c
  | InputAirVolFactor v => setAirVolFactor v c
  | InputAirMinChargeKg v => setAirMinChargeKg v c
  | InputAirFixedFees v => setAirFixedFees v c
  | InputAirTierRate idx v => setAirTiers (onTierRateChange (airTiers c) idx v) c
  | InputLclMinCbm v => setLclMinCbm v c
  | InputLclFixedFees v => setLclFixedFees v c
  | InputLclTierRate idx v => setLclTiers (onTierRateChange (lclTiers c) idx v) c
  | InputFcl20Price v => setFcl20Price v c
  | InputFcl40Price v => setFcl40Price v c
  | InputFclFixedFees v => setFclFixedFees v c
  | InputLocalOriginTransport v => setLocalOriginTransport v c
  | CheckIgnoreDuty b => setIgnoreDuty b c
  | CheckOriginTariffEnabled b => setOriginTariffEnabled b c
  | InputDutyPct v => setDutyPct v c
  | InputOriginDuty o v => onOriginDutyChange o v c
  | InputVatPct v => setVatPct v c
  | CheckVatRecoverable b => setVatRecoverable b c
  end.

(** The state after a sequence of events, if each one is possible in the
    state it occurs in. *)
Fixpoint run (es : list Event) (c : Config) : option Config :=
  match es with
  | [] => Some c
  | e :: es' => if enabled c e then run es' (handle e c) else None
  end.

(** The states of the running component. *)
Inductive reachable : Config -> Prop :=
  | reachable_initial : reachable initial
  | reachable_event (c : Config) (e : Event) :
      reachable c -> enabled c e = true -> reachable (handle e c).

(** What every event preserves. *)
Definition form_invariant (c : Config) : Prop :=
  mode c ∈ MODES /\
  incoterm c ∈ INCOTERMS /\
  productOrigin c ∈ ORIGINS ++ ["Outro"] /\
  shipOrigin c ∈ ORIGINS ++ ["Outro"] /\
  dom (fx c) = dom DEFAULT_FX /\
  supplierCurrency c ∈ dom (fx c) /\
  dom (originDutyMap c) = dom (originDutyMap initial) /\
  editable_from DEFAULT_AIR_TIERS (airTiers c) /\
  editable_from DEFAULT_LCL_TIERS (lclTiers c) /\
  (qty c = nan \/ (1 <=? qty c) = true).

(** ** Derived metrics (lines 107-112) *)

Definition unitVolumeM3 (c : Config) : float :=
  (unitLcm c / 100) * (unitWcm c / 100) * (unitHcm c / 100).

Definition totalVolumeM3 (c : Config) : float := unitVolumeM3 c * qty c.

Definition totalWeightKg (c : Config) : float := unitWeightKg c * qty c.

(** [fx[supplierCurrency] ?? 1] *)
Definition fxRate (c : Config) : JS.value :=
  JS.coalesce (JS.get (fx c) (supplierCurrency c)) (JS.Number 1).

Definition goodsEUR (c : Config) : float :=
  (unitPrice c * qty c) * JS.ToNumber (fxRate c).

(** ** Freight (lines 115-149) *)

(** [tiers.find(t => x <= t.threshold)?.rate ?? tiers[tiers.length-1].rate]:
    the rate of the first tier, in list order, whose threshold is at least
    [x]; without such a tier, the rate of the last tier.  On an empty list
    [tiers[-1]] is [undefined] and reading its [rate] throws. *)
Definition tierRate (tiers : list Tier) (x : float) : JS.completion float :=
  match find (fun t => x <=? threshold t) tiers with
  | Some t => JS.Return (rate t)
  | None =>
      match last tiers with
      | Some t => JS.Return (rate t)
      | None => JS.TypeError
      end
  end.

(** Thresholds strictly increasing along the table. *)
Fixpoint strictly_increasing (tiers : list Tier) : bool :=
  match tiers with
  | t1 :: rest =>
      match rest with
      | t2 :: _ => (threshold t1 <? threshold t2) && strictly_increasing rest
      | [] => true
      end
  | [] => true
  end.

(** The [basisLabel] template strings, kept as the template chosen and the
    Numbers interpolated into it (their decimal formatting by
    [Intl.NumberFormat] and [toFixed] is presentation). *)
Inductive BasisLabel : Type :=
  | PesoTributavel (chargeable rate : float)
  | VolumeTributavel (cbm rate : float)
  | Contentores20 (containers ocupacao : float)
  | Contentores40 (containers ocupacao : float)
  | SemBase.

Record Freight : Type := { cost : float; basisLabel : BasisLabel }.

Definition calcFreight (c : Config) (q : float) : JS.completion Freight :=
  let volM3 := unitVolumeM3 c * q in
  let kg := unitWeightKg c * q in
  if (mode c =? "Aéreo Express")%string || (mode c =? "Aéreo (Carga)")%string then
    let volWeight := volM3 * airVolFactor c in
    let chargeable := JS.Math_max [kg; volWeight; airMinChargeKg c] in
    rate ← tierRate (airTiers c) chargeable;
    let cost := chargeable * rate + airFixedFees c in
    JS.Return {| cost := cost; basisLabel := PesoTributavel chargeable rate |}
  else if (mode c =? "Marítimo LCL")%string then
    let cbm := JS.Math_max [volM3; lclMinCbm c] in
    rate ← tierRate (lclTiers c) cbm;
    let cost := cbm * rate + lclFixedFees c in
    JS.Return {| cost := cost; basisLabel := VolumeTributavel cbm rate |}
  else if (mode c =? "Marítimo FCL 20'")%string then
    let cap := FCL_CAPACITY_at "Marítimo FCL 20'" in
    let containers := JS.Math_max [1; JS.Math_ceil (volM3 / cap)] in
    let price := fcl20Price c * containers + fclFixedFees c in
    let utilization := volM3 / (containers * cap) in
    JS.Return {| cost := price; basisLabel := Contentores20 containers (utilization * 100) |}
  else if (mode c =? "Marítimo FCL 40'")%string then
    let cap := FCL_CAPACITY_at "Marítimo FCL 40'" in
    let containers := JS.Math_max [1; JS.Math_ceil (volM3 / cap)] in
    let price := fcl40Price c * containers + fclFixedFees c in
    let utilization := volM3 / (containers * cap) in
    JS.Return {| cost := price; basisLabel := Contentores40 containers (utilization * 100) |}
  else JS.Return {| cost := 0; basisLabel := SemBase |}.

Definition freight (c : Config) : JS.completion Freight := calcFreight c (qty c).

(** ** Insurance, customs base, duty and VAT (lines 152-167) *)

Definition insuranceEUR (c : Config) : JS.completion float :=
  fr ← freight c;
  JS.Return ((goodsEUR c + cost fr) * (insurancePct c / 100)).

Definition customsBase (c : Config) : JS.completion float :=
  fr ← freight c;
  ins ← insuranceEUR c;
  let base :=
    if (incoterm c =? "CIF")%string then goodsEUR c
    else goodsEUR c + cost fr + ins in
  JS.Return (base + localOriginTransport c).

(** [originDutyMap[productOrigin] ?? originDutyMap["Outro"] ?? 0], which
    associates to the left. *)
Definition originDutyRate (c : Config) : JS.value :=
  JS.coalesce
    (JS.coalesce (JS.get (originDutyMap c) (productOrigin c))
                 (JS.get (originDutyMap c) "Outro"))
    (JS.Number 0).

Definition dutyRateFromOrigin (c : Config) : JS.value :=
  if originTariffEnabled c then originDutyRate c else JS.Number (dutyPct c).

Definition effectiveDutyPct (c : Config) : JS.value :=
  if ignoreDuty c then JS.Number 0 else dutyRateFromOrigin c.

Definition dutyEUR (c : Config) : JS.completion float :=
  cb ← customsBase c;
  JS.Return (cb * (JS.ToNumber (effectiveDutyPct c) / 100)).

Definition vatBase (c : Config) : JS.completion float :=
  cb ← customsBase c;
  duty ← dutyEUR c;
  JS.Return (cb + duty + brokerageFee c + portTHC c + otherFees c).

Definition vatEUR (c : Config) : JS.completion float :=
  vb ← vatBase c;
  JS.Return (vb * (vatPct c / 100)).

(** ** Landed cost (lines 170-176) *)

Definition landedExVAT (c : Config) : JS.completion float :=
  fr ← freight c;
  ins ← insuranceEUR c;
  duty ← dutyEUR c;
  let base :=
    goodsEUR c + localOriginTransport c + cost fr + ins + duty
    + brokerageFee c + portTHC c + otherFees c in
  JS.Return base.

Definition landedInclVAT (c : Config) : JS.completion float :=
  ex ← landedExVAT c;
  vat ← vatEUR c;
  JS.Return (ex + (if vatRecoverable c then 0 else vat)).

Definition unitLanded (c : Config) : JS.completion float :=
  total ← landedInclVAT c;
  JS.Return (total / JS.or_else (qty c) 1).

(** ** Cost composition of the pie chart (lines 179-189) *)

Record Slice : Type := { name : string; value : float }.

Definition composition (c : Config) : JS.completion (list Slice) :=
  fr ← freight c;
  ins ← insuranceEUR c;
  duty ← dutyEUR c;
  JS.Return (List.filter (fun x => 0 <? value x)
    [ {| name := "Mercadoria"; value := goodsEUR c |};
      {| name := String.append "Origem produto: " (productOrigin c); value := 0 |};
      {| name := "Transp. Local (origem)"; value := localOriginTransport c |};
      {| name := String.append "Frete (" (String.append (shipOrigin c) ")");
         value := cost fr |};
      {| name := "Seguro"; value := ins |};
      {| name := "Direitos"; value := duty |};
      {| name := "Despachante"; value := brokerageFee c |};
      {| name := "THC/Porto"; value := portTHC c |};
      {| name := "Outras Taxas"; value := otherFees c |} ]).

(** The colours of the pie slices (lines 215, 488-490): the cell of the
    slice at [index] is filled with
    [PIE_COLORS[index % PIE_COLORS.length]]. *)
Definition PIE_COLORS : list string :=
  ["#0ea5e9"; "#22c55e"; "#f59e0b"; "#ef4444"; "#8b5cf6"; "#14b8a6"; "#64748b";
   "#94a3b8"].

Definition cellFill (index : nat) : option string :=
  PIE_COLORS !! (index mod length PIE_COLORS)%nat.

Definition cellFills (slices : list Slice) : list (option string) :=
  imap (fun index _ => cellFill index) slices.

(** ** Sensitivity curve: unit cost against quantity (lines 192-212) *)

Record Point : Type := { pt_qty : float; pt_unit : float }.

Definition qMin : float := 10.
Definition qMax (c : Config) : float := JS.Math_max [2000; qty c * 2].
Definition steps : float := 40.

(** The quantity sampled at loop index [i]. *)
Definition sampleQty (c : Config) (i : float) : float :=
  JS.Math_round (qMin + (i * (qMax c - qMin) / steps)).

(** The constants of one loop iteration, in the order of the source. *)
Definition sens_goods (c : Config) (q : float) : float :=
  (unitPrice c * q)
  * JS.ToNumber (JS.coalesce (JS.get (fx c) (supplierCurrency c)) (JS.Number 1)).

Definition sens_ins (c : Config) (goods fr : float) : float :=
  (goods + fr) * (insurancePct c / 100).

Definition sens_customs (c : Config) (goods fr ins : float) : float :=
  if (incoterm c =? "CIF")%string then goods + localOriginTransport c
  else goods + fr + ins + localOriginTransport c.

Definition sens_dutyRate (c : Config) : JS.value :=
  if ignoreDuty c then JS.Number 0
  else if originTariffEnabled c then
    JS.coalesce
      (JS.coalesce (JS.get (originDutyMap c) (productOrigin c))
                   (JS.get (originDutyMap c) "Outro"))
      (JS.Number 0)
  else JS.Number (dutyPct c).

(** The body of the loop for the sampled quantity [q]. *)
Definition samplePoint (c : Config) (q : float) : JS.completion Point :=
  let goods := sens_goods c q in
  f ← calcFreight c q;
  let fr := cost f in
  let ins := sens_ins c goods fr in
  let customs := sens_customs c goods fr ins in
  let dutyRate := sens_dutyRate c in
  let duty := customs * (JS.ToNumber dutyRate / 100) in
  let exVAT :=
    goods + localOriginTransport c + fr + ins + duty
    + brokerageFee c + portTHC c + otherFees c in
  let vatB := customs + duty + brokerageFee c + portTHC c + otherFees c in
  let vat := vatB * (vatPct c / 100) in
  let total := exVAT + (if vatRecoverable c then 0 else vat) in
  JS.Return {| pt_qty := q; pt_unit := total / q |}.

(** The loop indices: [i] runs over 0, 1, ..., 40 while [i <= steps]. *)
Definition sampleIndices : list float := map JS.of_nat (seq 0 41).

Definition sensitivityData (c : Config) : JS.completion (list Point) :=
  JS.traverse (fun i => samplePoint c (sampleQty c i)) sampleIndices.

(** ** Predicates on binary64 values *)

Module SF.

(** The number of binary digits of a mantissa. *)
Abbreviation D p := (Zpos (digits2_pos p)).

(** Zero, positive or NaN. *)
Definition nonneg (x : spec_float) : Prop :=
  match x with
  | S754_zero _ | S754_finite false _ _ | S754_infinity false | S754_nan => True
  | _ => False
  end.

(** [+Infinity], or positive and at least [2^(K-1)]. *)
Definition magnitude_ge (K : Z) (x : spec_float) : Prop :=
  match x with
  | S754_infinity false => True
  | S754_finite false m e => (K <= D m + e)%Z
  | _ => False
  end.

(** [x] is the integer [N]: a zero for [N = 0], else a finite value
    [+-m * 2^e] equal to [N]. *)
Definition is_integer (N : Z) (x : spec_float) : Prop :=
  match x with
  | S754_zero _ => N = 0%Z
  | S754_finite s m e =>
      (cond_Zopp s (Zpos m) * 2 ^ Z.max e 0 = N * 2 ^ Z.max (- e) 0)%Z
  | _ => False
  end.

End SF.

(** Two running sums that are the same Number, or both a zero. *)
Definition same_sum (s p : float) : Prop :=
  s = p \/ (PrimFloat.is_zero s = true /\ PrimFloat.is_zero p = true).

(** * The built-ins on sample arguments *)

Example Math_ceil_examples :
  JS.Math_ceil 2.1 = 3 /\ JS.Math_ceil 7 = 7 /\ JS.Math_ceil 0.0000001 = 1 /\
  JS.Math_ceil (-0.5) = neg_zero /\ JS.Math_ceil (-2.5) = -2 /\
  JS.Math_ceil 4503599627370495.5 = 4503599627370496 /\
  JS.Math_ceil 1e300 = 1e300 /\ JS.Math_ceil infinity = infinity /\
  JS.Math_ceil nan = nan /\ JS.Math_ceil neg_zero = neg_zero.
Proof. repeat split; reflexivity. Qed.

Example Math_round_examples :
  JS.Math_round 2.5 = 3 /\ JS.Math_round 2.4 = 2 /\ JS.Math_round 1234.5 = 1235 /\
  JS.Math_round (-2.5) = -2 /\ JS.Math_round (-2.6) = -3 /\
  JS.Math_round 0.5 = 1 /\ JS.Math_round 0.49999999999999994 = 0 /\
  JS.Math_round (-0.5) = neg_zero /\ JS.Math_round (-0.2) = neg_zero /\
  JS.Math_round 4503599627370495.5 = 4503599627370496 /\
  JS.Math_round neg_infinity = neg_infinity /\ JS.Math_round nan = nan.
Proof. repeat split; reflexivity. Qed.

Example Math_max_examples :
  JS.Math_max [80; 11.356; 45] = 80 /\ JS.Math_max [1; nan; 3] = nan /\
  JS.Math_max [neg_zero; 0] = 0 /\ JS.Math_max [0; neg_zero] = 0 /\
  JS.Math_max [neg_zero; neg_zero] = neg_zero /\
  JS.Math_max [2000; infinity] = infinity /\ JS.Math_max [] = neg_infinity.
Proof. repeat split; reflexivity. Qed.

Example or_else_examples :
  JS.or_else 100 1 = 100 /\ JS.or_else 0 1 = 1 /\ JS.or_else neg_zero 1 = 1 /\
  JS.or_else nan 1 = 1 /\ JS.or_else 0.5 1 = 0.5 /\ JS.or_else (-2) 1 = -2.
Proof. repeat split; reflexivity. Qed.

(** The initial state: 100 units at 300 USD make 27600 EUR of goods; 80 kg
    are charged (more than the volumetric 11.356 kg and the minimum 45 kg)
    at 5.8 EUR/kg plus 60 EUR of fixed fees. *)
Example initial_scenario :
  goodsEUR initial = 27600 /\
  JS.Math_max [0.8 * 100; unitVolumeM3 initial * 100 * 167; 45] = 80 /\
  freight initial = JS.Return {| cost := 80 * 5.8 + 60; basisLabel := PesoTributavel 80 5.8 |} /\
  insuranceEUR initial = JS.Return 140.62 /\
  customsBase initial = JS.Return 28264.62 /\
  dutyEUR initial = JS.Return 0 /\
  landedExVAT initial = JS.Return 28584.62 /\
  landedInclVAT initial = JS.Return 28584.62 /\
  unitLanded initial = JS.Return 285.8462.
Proof. repeat split; reflexivity. Qed.

(** * Facts about binary64 arithmetic

    Derived from the specification of the primitive operations
    ([FloatAxioms]) over [spec_float]. *)

Module F64.

Import SF.

(** *** Classification *)

Lemma nan_of_spec (x : float) : Prim2SF x = S754_nan -> x = nan.
Proof.
  intros H. rewrite <- (SF2Prim_Prim2SF x), H. reflexivity.
Qed.

Lemma SFcompare_refl (x : spec_float) :
  x <> S754_nan -> SFcompare x x = Some Eq.
Proof.
  destruct x as [[]|[]| |[] m e]; simpl; try congruence; intros _;
    rewrite Z.compare_refl, Pos.compare_cont_refl; reflexivity.
Qed.

Lemma is_nan_spec (x : float) : is_nan x = true <-> Prim2SF x = S754_nan.
Proof.
  unfold is_nan. rewrite FloatAxioms.eqb_spec. unfold SFeqb.
  destruct (Prim2SF x) as [s|s| |s m e] eqn:Hx.
  1,2,4: rewrite SFcompare_refl by discriminate; simpl; split; discriminate.
  simpl. split; reflexivity.
Qed.

Lemma is_nan_false (x : float) : is_nan x = false <-> Prim2SF x <> S754_nan.
Proof.
  rewrite <- is_nan_spec. destruct (is_nan x); split; congruence.
Qed.

Lemma is_zero_spec (x : float) :
  PrimFloat.is_zero x = true <-> exists s, Prim2SF x = S754_zero s.
Proof.
  unfold PrimFloat.is_zero. rewrite FloatAxioms.eqb_spec. unfold SFeqb.
  change (Prim2SF zero) with (S754_zero false).
  destruct (Prim2SF x) as [s|[]| |[] m e]; simpl; split;
    try discriminate; try (intros [? ?]; discriminate); eauto.
Qed.

(** A Number is truthy exactly when it is a non-zero finite value or an
    infinity. *)
Lemma truthy_spec (x : float) :
  JS.truthy x = true <->
  (exists s m e, Prim2SF x = S754_finite s m e) \/ (exists s, Prim2SF x = S754_infinity s).
Proof.
  unfold JS.truthy. rewrite negb_true_iff, orb_false_iff.
  split.
  - intros [Hz Hn]. apply is_nan_false in Hn.
    destruct (Prim2SF x) as [s|s| |s m e] eqn:Hx; eauto.
    + exfalso. enough (PrimFloat.is_zero x = true) by congruence.
      apply is_zero_spec. eauto.
    + congruence.
  - intros H. split.
    + destruct (PrimFloat.is_zero x) eqn:Hz; [|reflexivity].
      apply is_zero_spec in Hz. destruct Hz as [s Hs].
      destruct H as [(?&?&?&H)|(?&H)]; congruence.
    + apply is_nan_false. destruct H as [(?&?&?&H)|(?&H)]; congruence.
Qed.

(** *** Order *)

Lemma SFcompare_antisym (x y : spec_float) :
  SFcompare y x = option_map CompOpp (SFcompare x y).
Proof.
  destruct x as [[]|[]| |[] mx ex], y as [[]|[]| |[] my ey]; simpl; try reflexivity;
    rewrite (Z.compare_antisym ey ex);
    destruct (ey ?= ex)%Z; simpl; try reflexivity;
    change (Pos.compare_cont Eq mx my) with (mx ?= my)%positive;
    change (Pos.compare_cont Eq my mx) with (my ?= mx)%positive;
    rewrite (Pos.compare_antisym my mx); destruct (my ?= mx)%positive; reflexivity.
Qed.

Lemma SFcompare_total (x y : spec_float) :
  x <> S754_nan -> y <> S754_nan -> exists c, SFcompare x y = Some c.
Proof.
  destruct x as [[]|[]| |[] mx ex], y as [[]|[]| |[] my ey]; simpl;
    try congruence; eauto.
Qed.

Lemma SFcompare_lt_trans (a b c : spec_float) :
  SFcompare a b = Some Lt -> SFcompare b c = Some Lt -> SFcompare a c = Some Lt.
Proof.
  destruct a as [[]|[]| |[] ma ea], b as [[]|[]| |[] mb eb], c as [[]|[]| |[] mc ec];
    simpl; try congruence;
    repeat match goal with
    | |- context [Pos.compare_cont Eq ?p ?q] =>
        change (Pos.compare_cont Eq p q) with (p ?= q)%positive
    end;
    destruct (Z.compare_spec ea eb), (Z.compare_spec eb ec), (Z.compare_spec ea ec);
    try congruence; try lia;
    destruct (Pos.compare_spec ma mb), (Pos.compare_spec mb mc), (Pos.compare_spec ma mc);
    simpl; try congruence; try lia.
Qed.

Lemma ltb_leb_false (x y : float) : (x <? y) = true -> (y <=? x) = false.
Proof.
  rewrite ltb_spec, leb_spec. unfold SFltb, SFleb.
  rewrite (SFcompare_antisym (Prim2SF x) (Prim2SF y)).
  destruct (SFcompare (Prim2SF x) (Prim2SF y)) as [[]|]; simpl; congruence.
Qed.

Lemma ltb_leb (x y : float) : (x <? y) = true -> (x <=? y) = true.
Proof.
  rewrite ltb_spec, leb_spec. unfold SFltb, SFleb.
  destruct (SFcompare (Prim2SF x) (Prim2SF y)) as [[]|]; simpl; congruence.
Qed.

Lemma leb_refl (x : float) : is_nan x = false -> (x <=? x) = true.
Proof.
  intros H. apply is_nan_false in H. rewrite leb_spec. unfold SFleb.
  rewrite SFcompare_refl by assumption. reflexivity.
Qed.

Lemma leb_not_nan_r (x y : float) : (x <=? y) = true -> is_nan y = false.
Proof.
  rewrite leb_spec. unfold SFleb. intros H. apply is_nan_false. intros Hy.
  rewrite Hy in H. destruct (Prim2SF x); discriminate.
Qed.

Lemma leb_of_not_ltb (x y : float) :
  is_nan x = false -> is_nan y = false ->
  (y <? x) = false -> (x <=? y) = true.
Proof.
  intros Hx Hy. apply is_nan_false in Hx, Hy.
  rewrite ltb_spec, leb_spec. unfold SFltb, SFleb.
  rewrite (SFcompare_antisym (Prim2SF x) (Prim2SF y)).
  destruct (SFcompare_total _ _ Hx Hy) as [[] ->]; simpl; congruence.
Qed.

Lemma ltb_trans (x y z : float) :
  (x <? y) = true -> (y <? z) = true -> (x <? z) = true.
Proof.
  rewrite !ltb_spec. unfold SFltb.
  destruct (SFcompare (Prim2SF x) (Prim2SF y)) as [[]|] eqn:H1; try discriminate.
  destruct (SFcompare (Prim2SF y) (Prim2SF z)) as [[]|] eqn:H2; try discriminate.
  rewrite (SFcompare_lt_trans _ _ _ H1 H2). reflexivity.
Qed.

(** Nothing is larger than [+Infinity]. *)
Lemma infinity_top (x y : float) : (x =? infinity) = true -> (x <? y) = false.
Proof.
  rewrite FloatAxioms.eqb_spec, ltb_spec. unfold SFeqb, SFltb.
  change (Prim2SF infinity) with (S754_infinity false).
  destruct (Prim2SF x) as [[]|[]| |[] mx ex]; simpl; try discriminate.
  intros _. destruct (Prim2SF y) as [[]|[]| |[] my ey]; reflexivity.
Qed.

(** *** NaN is absorbing *)

Lemma add_nan_l (x : float) : nan + x = nan.
Proof. apply nan_of_spec. rewrite add_spec. reflexivity. Qed.

Lemma add_nan_r (x : float) : x + nan = nan.
Proof.
  apply nan_of_spec. rewrite add_spec. change (Prim2SF nan) with S754_nan.
  destruct (Prim2SF x) as [[]|[]| |[] mx ex]; reflexivity.
Qed.

Lemma sub_nan_l (x : float) : nan - x = nan.
Proof. apply nan_of_spec. rewrite sub_spec. reflexivity. Qed.

Lemma mul_nan_l (x : float) : nan * x = nan.
Proof. apply nan_of_spec. rewrite mul_spec. reflexivity. Qed.

Lemma mul_nan_r (x : float) : x * nan = nan.
Proof.
  apply nan_of_spec. rewrite mul_spec. change (Prim2SF nan) with S754_nan.
  destruct (Prim2SF x) as [[]|[]| |[] mx ex]; reflexivity.
Qed.

Lemma div_nan_l (x : float) : nan / x = nan.
Proof. apply nan_of_spec. rewrite div_spec. reflexivity. Qed.

Lemma div_nan_r (x : float) : x / nan = nan.
Proof.
  apply nan_of_spec. rewrite div_spec. change (Prim2SF nan) with S754_nan.
  destruct (Prim2SF x) as [[]|[]| |[] mx ex]; reflexivity.
Qed.

(** *** Zero *)

(** [x + 0] is [x], up to the sign of a zero ([-0 + 0] is [+0]). *)
Lemma add_zero_r (x : float) : JS.same_value_zero (x + 0) x = true.
Proof.
  unfold JS.same_value_zero.
  destruct (is_nan x) eqn:Hn.
  - apply is_nan_spec, nan_of_spec in Hn. subst x. reflexivity.
  - apply orb_true_iff. left.
    rewrite FloatAxioms.eqb_spec, add_spec. unfold SFeqb.
    apply is_nan_false in Hn.
    change (Prim2SF 0) with (S754_zero false).
    destruct (Prim2SF x) as [[]|[]| |[] mx ex]; simpl; try congruence;
      rewrite Z.compare_refl, Pos.compare_cont_refl; reflexivity.
Qed.

Lemma add_zero_r_exact (x : float) : x <> neg_zero -> x + 0 = x.
Proof.
  intros Hx. apply Prim2SF_inj. rewrite add_spec.
  change (Prim2SF 0) with (S754_zero false).
  destruct (Prim2SF x) as [[]|[]| |s m e] eqn:E; try reflexivity.
  exfalso. apply Hx. apply Prim2SF_inj. rewrite E. reflexivity.
Qed.

(** A finite Number times zero is a zero. *)
Lemma mul_zero_r (x : float) : JS.isFinite x = true -> PrimFloat.is_zero (x * 0) = true.
Proof.
  unfold JS.isFinite. intros H. apply is_zero_spec. rewrite mul_spec.
  change (Prim2SF 0) with (S754_zero false).
  destruct (Prim2SF x) as [[]|[]| |[] mx ex]; try discriminate; simpl; eauto.
Qed.

(** *** Valid mantissas and their digits *)

Lemma valid_finite (x : float) s m e :
  Prim2SF x = S754_finite s m e -> bounded prec emax m e = true.
Proof.
  intros H. pose proof (Prim2SF_valid x) as V. rewrite H in V. exact V.
Qed.

Lemma bounded_inv m e :
  bounded prec emax m e = true ->
  fexp prec emax (D m + e) = e /\ (e <= emax - prec)%Z.
Proof.
  unfold bounded, canonical_mantissa. intros H.
  apply andb_true_iff in H. destruct H as [H1 H2].
  apply Z.eqb_eq in H1. apply Z.leb_le in H2. auto.
Qed.

Lemma fexp_eq z : fexp prec emax z = Z.max (z - 53) (-1074).
Proof. reflexivity. Qed.

Lemma normal_digits m e :
  bounded prec emax m e = true -> (-1074 < e)%Z -> D m = 53%Z.
Proof.
  intros Hb He. apply bounded_inv in Hb. destruct Hb as [Hc _].
  rewrite fexp_eq in Hc. lia.
Qed.

Lemma bounded_digits m e : bounded prec emax m e = true -> (D m <= 53)%Z.
Proof.
  intros Hb. apply bounded_inv in Hb. destruct Hb as [Hc _].
  rewrite fexp_eq in Hc. lia.
Qed.

Lemma digits2_size p : digits2_pos p = Pos.size p.
Proof. induction p; simpl; congruence. Qed.

Lemma digits2_log2 p : D p = (Z.log2 (Zpos p) + 1)%Z.
Proof. destruct p; simpl; rewrite ?digits2_size; lia. Qed.

Lemma digits2_mono p q : (p <= q)%positive -> (D p <= D q)%Z.
Proof.
  intros H. rewrite !digits2_log2.
  apply Z.add_le_mono_r, Z.log2_le_mono. lia.
Qed.

Lemma digits2_lower p : (2 ^ (D p - 1) <= Zpos p)%Z.
Proof.
  rewrite digits2_log2. replace (Z.log2 (Zpos p) + 1 - 1)%Z with (Z.log2 (Zpos p)) by lia.
  apply Z.log2_spec. lia.
Qed.

Lemma digits2_upper p : (Zpos p < 2 ^ D p)%Z.
Proof.
  rewrite digits2_log2. apply Z.log2_spec. lia.
Qed.

Lemma digits2_iter_xO p n : D (Pos.iter xO p n) = (D p + Zpos n)%Z.
Proof.
  revert p. induction n as [n IH|n IH|]; intros p; simpl.
  - rewrite Pos2Z.inj_succ, !IH. lia.
  - rewrite !IH. lia.
  - lia.
Qed.

Lemma iter_xO_value p n : Zpos (Pos.iter xO p n) = (Zpos p * 2 ^ Zpos n)%Z.
Proof.
  revert p. induction n as [n IH|n IH|]; intros p; simpl Pos.iter.
  - rewrite Pos2Z.inj_xO, !IH.
    replace (Z.pos n~1) with (Z.pos n + Z.pos n + 1)%Z by lia.
    rewrite !Z.pow_add_r by lia. lia.
  - rewrite !IH.
    replace (Z.pos n~0) with (Z.pos n + Z.pos n)%Z by lia.
    rewrite !Z.pow_add_r by lia. lia.
  - change (2 ^ 1)%Z with 2%Z. lia.
Qed.

(** *** Shifts of a mantissa *)

Lemma shr_1_digits r p :
  shr_m r = Zpos p -> (1 < D p)%Z ->
  exists q, shr_m (shr_1 r) = Zpos q /\ D q = (D p - 1)%Z.
Proof.
  destruct r as [m rr ss]. simpl shr_m. intros -> H.
  destruct p as [p|p|]; cbn [digits2_pos] in *; rewrite ?Pos2Z.inj_succ in *;
    [exists p|exists p|lia]; split; try reflexivity; lia.
Qed.

Lemma iter_shr_digits k : forall r p,
  shr_m r = Zpos p -> (Zpos k < D p)%Z ->
  exists q, shr_m (SpecFloat.iter_pos shr_1 k r) = Zpos q /\ D q = (D p - Zpos k)%Z.
Proof.
  induction k as [k IH|k IH|]; intros r p Hr Hk; cbn [SpecFloat.iter_pos];
    [assert (Ek : Zpos k~1 = (2 * Zpos k + 1)%Z) by reflexivity
    |assert (Ek : Zpos k~0 = (2 * Zpos k)%Z) by reflexivity|].
  - destruct (shr_1_digits r p Hr) as (q1 & H1 & D1); [lia|].
    destruct (IH _ _ H1) as (q2 & H2 & D2); [lia|].
    destruct (IH _ _ H2) as (q3 & H3 & D3); [lia|].
    exists q3. split; [assumption|lia].
  - destruct (IH _ _ Hr) as (q2 & H2 & D2); [lia|].
    destruct (IH _ _ H2) as (q3 & H3 & D3); [lia|].
    exists q3. split; [assumption|lia].
  - apply shr_1_digits; assumption.
Qed.

Lemma iter_shr_exact k : forall m,
  SpecFloat.iter_pos shr_1 k (Build_shr_record (Zpos (Pos.iter xO m k)) false false)
  = Build_shr_record (Zpos m) false false.
Proof.
  induction k as [k IH|k IH|]; intros m; simpl.
  - rewrite !IH. reflexivity.
  - rewrite !IH. reflexivity.
  - reflexivity.
Qed.

Lemma shr_record_of_loc_m m l : shr_m (shr_record_of_loc m l) = m.
Proof. destruct l as [|[]]; reflexivity. Qed.

(** In the normal range, [shr_fexp] keeps the mantissa positive and the
    magnitude [digits + exponent]. *)
Lemma shr_fexp_normal p e l :
  (-1074 <= D p + e - 53)%Z ->
  exists r e' q, shr_fexp prec emax (Zpos p) e l = (r, e') /\
    shr_m r = Zpos q /\ (D q + e' = D p + e)%Z.
Proof.
  intros H. unfold shr_fexp, shr. simpl Zdigits2. rewrite fexp_eq.
  rewrite Z.max_l by lia.
  destruct (D p + e - 53 - e)%Z as [|k|k] eqn:Ek.
  - do 3 eexists. split; [reflexivity|]. rewrite shr_record_of_loc_m. split; [reflexivity|lia].
  - destruct (iter_shr_digits k (shr_record_of_loc (Zpos p) l) p) as (q & Hq & Dq).
    { apply shr_record_of_loc_m. } { lia. }
    do 3 eexists. split; [reflexivity|]. split; [exact Hq|]. lia.
  - do 3 eexists. split; [reflexivity|]. rewrite shr_record_of_loc_m. split; [reflexivity|lia].
Qed.

Lemma shl_align_magnitude p e e' :
(D (fst (shl_align p e e')) + snd (shl_align p e e') = D p + e)%Z /\
  (Zpos p <= Zpos (fst (shl_align p e e')))%Z.
Proof.
  unfold shl_align. destruct (e' - e)%Z as [|k|k] eqn:Ek; cbn [fst snd]; try lia.
  rewrite digits2_iter_xO, iter_xO_value. split; [lia|].
  assert (0 < 2 ^ Zpos k)%Z by (apply Z.pow_pos_nonneg; lia). nia.
Qed.

Lemma shl_align_value p e e' :
  (e' <= e)%Z ->
  Zpos (fst (shl_align p e e')) = (Zpos p * 2 ^ (e - e'))%Z.
Proof.
  intros H. unfold shl_align.
  destruct (e' - e)%Z as [|k|k] eqn:Ek; cbn [fst]; try lia.
  - replace (e - e')%Z with 0%Z by lia. lia.
  - rewrite iter_xO_value. f_equal. f_equal. lia.
Qed.

Lemma shl_align_snd p e e' : (e' <= e)%Z -> snd (shl_align p e e') = e'.
Proof.
  intros H. unfold shl_align.
  destruct (e' - e)%Z as [|k|k] eqn:Ek; cbn [snd]; lia.
Qed.

(** *** Rounding *)

Lemma round_nearest_even_pos p l :
  exists q, round_nearest_even (Zpos p) l = Zpos q /\ (D p <= D q)%Z.
Proof.
  assert (Hs : exists q, (Zpos p + 1)%Z = Zpos q /\ (D p <= D q)%Z).
  { exists (p + 1)%positive. split; [lia|]. apply digits2_mono. lia. }
  destruct l as [|[]]; cbn [round_nearest_even];
    try destruct (Z.even (Zpos p));
    first [exact Hs | exists p; split; [reflexivity|lia]].
Qed.

(** Rounding a positive mantissa of normal magnitude gives an infinity or
    a finite value of at least that magnitude, of the given sign. *)
Lemma binary_round_aux_normal s p e l :
  (-1074 <= D p + e - 53)%Z ->
  binary_round_aux prec emax s (Zpos p) e l = S754_infinity s \/
  exists q e', binary_round_aux prec emax s (Zpos p) e l = S754_finite s q e' /\
               (D p + e <= D q + e')%Z.
Proof.
  intros H. unfold binary_round_aux.
  destruct (shr_fexp_normal p e l H) as (r1 & e1 & q1 & -> & Hq1 & E1).
  rewrite Hq1.
  destruct (round_nearest_even_pos q1 (loc_of_shr_record r1)) as (q2 & -> & D2).
  destruct (shr_fexp_normal q2 e1 loc_Exact) as (r3 & e3 & q3 & -> & Hq3 & E3); [lia|].
  rewrite Hq3.
  destruct (e3 <=? emax - prec)%Z; [right|left; reflexivity].
  exists q3, e3. split; [reflexivity|lia].
Qed.

Lemma binary_round_normal s p e :
  (-1074 <= D p + e - 53)%Z ->
  binary_round prec emax s p e = S754_infinity s \/
  exists q e', binary_round prec emax s p e = S754_finite s q e' /\
               (D p + e <= D q + e')%Z.
Proof.
  intros H. unfold binary_round.
  pose proof (shl_align_magnitude p e (fexp prec emax (D p + e))) as [Hm _].
  destruct (shl_align p e _) as [mz ez]. cbn [fst snd] in Hm.
  destruct (binary_round_aux_normal s mz ez loc_Exact) as [Hr|(q & e' & Hr & Hq)];
    [lia|left; assumption|right].
  exists q, e'. split; [assumption|lia].
Qed.

(** Rounding a value that is already a binary64 number returns it. *)
Lemma binary_round_aux_exact s m e n :
  bounded prec emax m e = true ->
  binary_round_aux prec emax s (Zpos (Pos.iter xO m n)) (e - Zpos n) loc_Exact
  = S754_finite s m e.
Proof.
  intros Hb. apply bounded_inv in Hb. destruct Hb as [Hc Hb].
  unfold binary_round_aux, shr_fexp at 1. cbn [Zdigits2].
  rewrite digits2_iter_xO.
  replace (D m + Zpos n + (e - Zpos n))%Z with (D m + e)%Z by lia.
  rewrite Hc.
  replace (e - (e - Zpos n))%Z with (Zpos n) by lia.
  cbn [shr shr_record_of_loc]. rewrite iter_shr_exact.
  cbn [shr_m loc_of_shr_record round_nearest_even].
  replace (e - Zpos n + Zpos n)%Z with e by lia.
  unfold shr_fexp. cbn [Zdigits2]. rewrite Hc, Z.sub_diag.
  cbn [shr shr_record_of_loc shr_m].
  apply Z.leb_le in Hb. rewrite Hb. reflexivity.
Qed.

Lemma binary_round_aux_sign s m e l :
  match binary_round_aux prec emax s m e l with
  | S754_zero s' | S754_infinity s' | S754_finite s' _ _ => s' = s
  | S754_nan => True
  end.
Proof.
  unfold binary_round_aux.
  destruct (shr_fexp prec emax m e l) as [r1 e1].
  destruct (shr_fexp prec emax _ e1 loc_Exact) as [r2 e2].
  destruct (shr_m r2); [reflexivity| |exact I].
  destruct (e2 <=? emax - prec)%Z; reflexivity.
Qed.

Lemma binary_round_sign s p e :
  match binary_round prec emax s p e with
  | S754_zero s' | S754_infinity s' | S754_finite s' _ _ => s' = s
  | S754_nan => True
  end.
Proof.
  unfold binary_round. destruct (shl_align p e _) as [mz ez].
  apply binary_round_aux_sign.
Qed.

Lemma mul_one_r (x : float) : x * 1 = x.
Proof.
  apply Prim2SF_inj. rewrite mul_spec.
  change (Prim2SF 1) with (S754_finite false 4503599627370496 (-52)).
  destruct (Prim2SF x) as [[]|[]| |s m e] eqn:Hx; try reflexivity.
  apply valid_finite in Hx.
  unfold SF64mul, SFmul.
  rewrite xorb_false_r, Pos.mul_comm.
  change (4503599627370496 * m)%positive with (Pos.iter xO m 52).
  change (e + -52)%Z with (e - 52)%Z.
  apply binary_round_aux_exact. assumption.
Qed.

(** *** Signs *)

Lemma nonneg_round_aux m e l : SF.nonneg (binary_round_aux prec emax false m e l).
Proof.
  pose proof (binary_round_aux_sign false m e l) as H.
  destruct (binary_round_aux prec emax false m e l); simpl; subst; exact I.
Qed.

Lemma nonneg_round p e : SF.nonneg (binary_round prec emax false p e).
Proof.
  pose proof (binary_round_sign false p e) as H.
  destruct (binary_round prec emax false p e); simpl; subst; exact I.
Qed.

Lemma nonneg_mul a b : SF.nonneg a -> SF.nonneg b -> SF.nonneg (SF64mul a b).
Proof.
  destruct a as [[]|[]| |[] ma ea], b as [[]|[]| |[] mb eb]; simpl;
    try tauto; intros _ _; apply nonneg_round_aux.
Qed.

Lemma nonneg_div a m e : SF.nonneg a -> SF.nonneg (SF64div a (S754_finite false m e)).
Proof.
  destruct a as [[]|[]| |[] ma ea]; simpl; try tauto; intros _.
  unfold SF64div, SFdiv. destruct (SFdiv_core_binary _ _ _ _ _ _) as [[mz ez] lz].
  apply nonneg_round_aux.
Qed.

Lemma of_Z_nonneg (z : Z) : (0 <= z < 2 ^ 63)%Z -> SF.nonneg (Prim2SF (JS.of_Z z)).
Proof.
  intros Hz. unfold JS.of_Z.
  rewrite of_uint63_spec, Uint63.of_Z_spec.
  rewrite Z.mod_small by (change Uint63.wB with (2 ^ 63)%Z; lia).
  destruct z as [|p|p]; try lia; cbn [binary_normalize]; [exact I|apply nonneg_round].
Qed.

(** *** Magnitudes *)

(** A Number that is at least 2000 is [+Infinity] or at least [2^10]. *)
Lemma ge_2000_magnitude (x : float) :
  (2000 <=? x) = true -> SF.magnitude_ge 11 (Prim2SF x) /\
  match Prim2SF x with S754_finite _ _ e => (-42 <= e)%Z | _ => True end.
Proof.
  rewrite leb_spec. unfold SFleb.
  change (Prim2SF 2000) with (S754_finite false 8796093022208000 (-42)).
  destruct (Prim2SF x) as [[]|[]| |[] m e] eqn:Hx;
    cbn [SFcompare SF.magnitude_ge]; try discriminate; try tauto.
  apply valid_finite in Hx.
  destruct (Z.compare_spec (-42) e); try discriminate; intros _;
    rewrite (normal_digits m e Hx) by lia; lia.
Qed.

Lemma sub_10_nonneg (x : float) :
  (2000 <=? x) = true -> SF.nonneg (Prim2SF (x - 10)).
Proof.
  intros H. destruct (ge_2000_magnitude x H) as [Hm He].
  rewrite sub_spec.
  change (Prim2SF 10) with (S754_finite false 5629499534213120 (-49)).
  destruct (Prim2SF x) as [[]|[]| |[] m e] eqn:Hx; simpl in Hm; try tauto; try exact I.
  apply valid_finite in Hx.
  unfold SF64sub, SFsub.
  rewrite Z.min_r by lia.
  rewrite (shl_align_value m e (-49)) by lia.
  rewrite (shl_align_value _ (-49) (-49)) by lia.
  cbn [cond_Zopp]. rewrite Z.sub_diag, Z.mul_1_r.
  pose proof (digits2_lower m) as Hl.
  rewrite (normal_digits m e Hx) in Hl by lia.
  assert (Hp : (2 ^ 7 <= 2 ^ (e - -49))%Z) by (apply Z.pow_le_mono_r; lia).
  change (2 ^ (53 - 1))%Z with 4503599627370496%Z in Hl.
  change (2 ^ 7)%Z with 128%Z in Hp.
  destruct (Z.pos m * 2 ^ (e - -49) - 5629499534213120)%Z as [|d|d] eqn:Ed;
    cbn [binary_normalize]; [exact I|apply nonneg_round|nia].
Qed.

(** Adding a non-negative Number to 10 gives NaN or at least 8. *)
Lemma add_10_magnitude (t : float) :
  SF.nonneg (Prim2SF t) ->
  Prim2SF (10 + t) = S754_nan \/ SF.magnitude_ge 4 (Prim2SF (10 + t)).
Proof.
  intros Ht. rewrite add_spec.
  change (Prim2SF 10) with (S754_finite false 5629499534213120 (-49)).
  destruct (Prim2SF t) as [[]|[]| |[] m e]; simpl in Ht; try tauto;
    try (left; reflexivity); try (right; simpl; lia).
  right. unfold SF64add, SFadd.
  set (ez := Z.min (-49) e).
  pose proof (shl_align_magnitude 5629499534213120 (-49) ez) as [Ha _].
  rewrite (shl_align_snd _ (-49) ez) in Ha by lia.
  set (a := fst (shl_align 5629499534213120 (-49) ez)) in *.
  set (b := fst (shl_align m e ez)).
  cbn [cond_Zopp Z.add binary_normalize].
  assert (Hab : (D a <= D (a + b))%Z) by (apply digits2_mono; lia).
  change (D 5629499534213120) with 53%Z in Ha.
  change (binary_normalize prec emax (Zpos a + Zpos b) ez false)
    with (binary_round prec emax false (a + b) ez).
  destruct (binary_round_normal false (a + b) ez) as [Hr|(q & e' & Hr & Hq)];
    [lia|rewrite Hr; exact I|].
  rewrite Hr. simpl. lia.
Qed.

Lemma ge_1_positive (q : float) :
  (1 <=? q) = true ->
  Prim2SF q = S754_infinity false \/ exists m e, Prim2SF q = S754_finite false m e.
Proof.
  rewrite leb_spec. unfold SFleb.
  change (Prim2SF 1) with (S754_finite false 4503599627370496 (-52)).
  destruct (Prim2SF q) as [[]|[]| |[] m e]; simpl; try discriminate; eauto.
Qed.

Lemma ge_1_truthy (q : float) : (1 <=? q) = true -> JS.truthy q = true.
Proof.
  intros H. apply truthy_spec.
  destruct (ge_1_positive q H) as [E|(m & e & E)]; eauto.
Qed.

(** *** [Math.max] and [Math.round] *)

(** [Math.max(a, b)] is NaN or at least [a]. *)
Lemma max2_lower (a b : float) :
  JS.max2 a b = nan \/ (a <=? JS.max2 a b) = true.
Proof.
  unfold JS.max2.
  destruct (is_nan a) eqn:Ha; [left; reflexivity|].
  destruct (is_nan b) eqn:Hb; [left; reflexivity|]. right. cbn [orb].
  destruct (a <? b) eqn:Hab; [now apply ltb_leb|].
  destruct (b <? a) eqn:Hba; [now apply leb_refl|].
  destruct (get_sign a); [now apply leb_of_not_ltb|now apply leb_refl].
Qed.

(** [Math.max(q, 1)] is [q] itself from 1 upwards. *)
Lemma Math_max_ge_1 (q : float) : (1 <=? q) = true -> JS.Math_max [q; 1] = q.
Proof.
  intros H.
  assert (Hn : is_nan q = false) by exact (leb_not_nan_r _ _ H).
  assert (Hlt : (q <? 1) = false).
  { destruct (q <? 1) eqn:E; [|reflexivity].
    apply ltb_leb_false in E. congruence. }
  assert (Hinf : (neg_infinity <? q) = true).
  { rewrite ltb_spec. change (Prim2SF neg_infinity) with (S754_infinity true).
    destruct (ge_1_positive q H) as [E|(m & e & E)]; rewrite E; reflexivity. }
  assert (Hs : get_sign q = false).
  { unfold get_sign.
    pose proof (ge_1_truthy q H) as Ht. unfold JS.truthy in Ht.
    apply negb_true_iff, orb_false_iff in Ht. destruct Ht as [-> _].
    rewrite ltb_spec. change (Prim2SF zero) with (S754_zero false).
    destruct (ge_1_positive q H) as [E|(m & e & E)]; rewrite E; reflexivity. }
  unfold JS.Math_max. cbn [fold_left]. unfold JS.max2 at 2.
  change (is_nan neg_infinity) with false. rewrite Hn, Hinf. cbn [orb].
  unfold JS.max2. rewrite Hn, Hlt, Hs. change (is_nan 1) with false. cbn [orb].
  destruct (1 <? q); reflexivity.
Qed.

(** The Number of a positive integer below [2^63] is not zero. *)
Lemma of_Z_truthy (z : Z) : (0 < z < 2 ^ 63)%Z -> JS.truthy (JS.of_Z z) = true.
Proof.
  intros Hz. apply truthy_spec. unfold JS.of_Z.
  rewrite of_uint63_spec, Uint63.of_Z_spec.
  rewrite Z.mod_small by (change Uint63.wB with (2 ^ 63)%Z; lia).
  destruct z as [|p|p]; try lia. cbn [binary_normalize].
  destruct (binary_round_normal false p 0) as [Hr|(q & e' & Hr & _)].
  - pose proof (Pos2Z.is_pos (digits2_pos p)). lia.
  - right. eauto.
  - left. eauto.
Qed.

Lemma Math_round_nan : JS.Math_round nan = nan.
Proof. reflexivity. Qed.

(** Rounding a Number that is at least 8 gives a truthy Number. *)
Lemma round_truthy (y : float) :
  SF.magnitude_ge 4 (Prim2SF y) -> JS.truthy (JS.Math_round y) = true.
Proof.
  intros Hy. unfold JS.Math_round.
  destruct (Prim2SF y) as [[]|[]| |[] m e] eqn:E; simpl in Hy; try tauto.
  - apply truthy_spec. right. eauto.
  - destruct (0 <=? e)%Z eqn:He; [apply truthy_spec; left; eauto|].
    apply Z.leb_gt in He.
    pose proof (bounded_digits m e (valid_finite y _ _ _ E)) as Hd.
    pose proof (digits2_lower m) as Hl. pose proof (digits2_upper m) as Hu.
    set (k := (2 ^ (- e))%Z) in *.
    assert (Hk : (0 < k)%Z) by (apply Z.pow_pos_nonneg; lia).
    assert (H8 : (8 * k <= Zpos m)%Z).
    { apply Z.le_trans with (2 := Hl). unfold k.
      change 8%Z with (2 ^ 3)%Z. rewrite <- Z.pow_add_r by lia.
      apply Z.pow_le_mono_r; lia. }
    assert (Hn : (8 <= Zpos m / k)%Z) by (apply Z.div_le_lower_bound; lia).
    assert (Hn' : (Zpos m / k <= Zpos m)%Z) by (apply Z.div_le_upper_bound; nia).
    assert (Hm : (Zpos m < 2 ^ 53)%Z).
    { apply Z.lt_le_trans with (1 := Hu). apply Z.pow_le_mono_r; lia. }
    change (2 ^ 53)%Z with 9007199254740992%Z in Hm.
    set (n := (Zpos m / k)%Z) in *.
    assert (Hr : forall r, (n <= r <= n + 1)%Z ->
                 (if (r =? 0)%Z then zero else JS.of_Z r) = JS.of_Z r /\
                 JS.truthy (JS.of_Z r) = true).
    { intros r Hr. split.
      - destruct (Z.eqb_spec r 0); [lia|reflexivity].
      - apply of_Z_truthy. change (2 ^ 63)%Z with 9223372036854775808%Z. lia. }
    destruct (k <=? 2 * (Zpos m mod k))%Z;
      [destruct (Hr (n + 1)%Z) as [-> ?]|destruct (Hr n) as [-> ?]]; auto; lia.
Qed.

(** *** The built-ins [Math.ceil] and [Math.round] compute the integers
    they name *)

Lemma binary_round_aux_canonical s m e :
  bounded prec emax m e = true ->
  binary_round_aux prec emax s (Zpos m) e loc_Exact = S754_finite s m e.
Proof.
  intros Hb. apply bounded_inv in Hb. destruct Hb as [Hc Hb].
  unfold binary_round_aux, shr_fexp. cbn [Zdigits2].
  rewrite Hc, Z.sub_diag. cbn [shr shr_record_of_loc shr_m loc_of_shr_record
    round_nearest_even Zdigits2].
  rewrite Hc, Z.sub_diag. cbn [shr shr_m].
  apply Z.leb_le in Hb. rewrite Hb. reflexivity.
Qed.

Lemma digits2_below p K : (Zpos p < 2 ^ K)%Z -> (D p <= K)%Z.
Proof.
  intros H. pose proof (digits2_lower p) as Hl.
  destruct (Z.le_gt_cases (D p) K) as [|Hgt]; [assumption|exfalso].
  assert (2 ^ K <= 2 ^ (D p - 1))%Z by (apply Z.pow_le_mono_r; lia). lia.
Qed.

(** The Number of an integer below [2^53] is that integer. *)
Lemma of_Z_exact (N : Z) :
  (0 < N < 2 ^ 53)%Z -> SF.is_integer N (Prim2SF (JS.of_Z N)).
Proof.
  intros HN. unfold JS.of_Z.
  rewrite of_uint63_spec, Uint63.of_Z_spec.
  rewrite Z.mod_small
    by (change Uint63.wB with (2 ^ 63)%Z;
        assert (2 ^ 53 < 2 ^ 63)%Z by reflexivity; lia).
  destruct N as [|p|p]; try lia. cbn [binary_normalize]. unfold binary_round.
  pose proof (digits2_below p 53 (proj2 HN)) as Hd.
  pose proof (Pos2Z.is_pos (digits2_pos p)) as Hd0.
  set (ez := fexp prec emax (D p + 0)).
  assert (Hez : ez = (D p - 53)%Z) by (unfold ez; rewrite fexp_eq; lia).
  pose proof (shl_align_magnitude p 0 ez) as [Hm _].
  pose proof (shl_align_value p 0 ez) as Hv.
  pose proof (shl_align_snd p 0 ez) as Hs.
  destruct (shl_align p 0 ez) as [mz ez']. cbn [fst snd] in Hm, Hv, Hs.
  rewrite Hs in * by lia. clear Hs. specialize (Hv ltac:(lia)).
  rewrite binary_round_aux_canonical.
  - unfold SF.is_integer. cbn [cond_Zopp].
    rewrite Z.max_r, Z.max_l by lia. rewrite Hv.
    change (2 ^ 0)%Z with 1%Z. replace (0 - ez)%Z with (- ez)%Z by lia. lia.
  - unfold bounded, canonical_mantissa. apply andb_true_iff. split.
    + apply Z.eqb_eq. rewrite Hm, fexp_eq. lia.
    + apply Z.leb_le. change (emax - prec)%Z with 971%Z. lia.
Qed.

Lemma is_integer_opp N x : SF.is_integer N x -> SF.is_integer (- N) (SFopp x).
Proof.
  destruct x as [s|s| |s m e]; unfold SF.is_integer; cbn [SFopp]; try tauto; try lia.
  destruct s; cbn [negb cond_Zopp]; lia.
Qed.

(** [Math.ceil(x)], for a finite non-zero [x = num / den], is the integer
    [N] with [N - 1 < x <= N]. *)
Lemma Math_ceil_spec (x : float) s m e :
  Prim2SF x = S754_finite s m e ->
  let num := (cond_Zopp s (Zpos m) * 2 ^ Z.max e 0)%Z in
  let den := (2 ^ Z.max (- e) 0)%Z in
  exists N, SF.is_integer N (Prim2SF (JS.Math_ceil x)) /\
            ((N - 1) * den < num <= N * den)%Z.
Proof.
  intros Hx num den. unfold JS.Math_ceil. rewrite Hx.
  destruct (0 <=? e)%Z eqn:He.
  - apply Z.leb_le in He. exists num. rewrite Hx. unfold SF.is_integer, num, den.
    rewrite (Z.max_r (- e) 0) by lia. change (2 ^ 0)%Z with 1%Z. lia.
  - apply Z.leb_gt in He. unfold num, den.
    rewrite (Z.max_r e 0), (Z.max_l (- e) 0) by lia. change (2 ^ 0)%Z with 1%Z.
    set (k := (2 ^ (- e))%Z).
    assert (Hk : (2 <= k)%Z).
    { change 2%Z with (2 ^ 1)%Z. apply Z.pow_le_mono_r; lia. }
    pose proof (Z.div_mod (Zpos m) k ltac:(lia)) as Hdm.
    pose proof (Z.mod_pos_bound (Zpos m) k ltac:(lia)) as Hmod.
    assert (Hn0 : (0 <= Zpos m / k)%Z) by (apply Z.div_pos; lia).
    pose proof (digits2_upper m) as Hu.
    pose proof (bounded_digits m e (valid_finite x _ _ _ Hx)) as Hd.
    assert (Hm : (Zpos m < 2 ^ 53)%Z).
    { apply Z.lt_le_trans with (1 := Hu). apply Z.pow_le_mono_r; lia. }
    change (2 ^ 53)%Z with 9007199254740992%Z in Hm.
    assert (Hof : forall N, (0 < N <= Zpos m / k + 1)%Z ->
                            SF.is_integer N (Prim2SF (JS.of_Z N))).
    { intros N HN. apply of_Z_exact.
      change (2 ^ 53)%Z with 9007199254740992%Z. nia. }
    set (n := (Zpos m / k)%Z) in *. set (f := (Zpos m mod k)%Z) in *.
    destruct s; cbn [cond_Zopp].
    + exists (- n)%Z. split; [|nia].
      destruct (Z.eqb_spec n 0) as [E|E].
      * rewrite E. exact eq_refl.
      * rewrite opp_spec. apply is_integer_opp, Hof. lia.
    + destruct (Z.eqb_spec f 0) as [E|E].
      * exists n. split; [apply Hof; nia|nia].
      * exists (n + 1)%Z. split; [apply Hof; lia|nia].
Qed.

(** [Math.round(x)], for a finite non-zero [x = num / den], is the integer
    [N] with [N - 1/2 <= x < N + 1/2]. *)
Lemma Math_round_spec (x : float) s m e :
  Prim2SF x = S754_finite s m e ->
  let num := (cond_Zopp s (Zpos m) * 2 ^ Z.max e 0)%Z in
  let den := (2 ^ Z.max (- e) 0)%Z in
  exists N, SF.is_integer N (Prim2SF (JS.Math_round x)) /\
            ((2 * N - 1) * den <= 2 * num < (2 * N + 1) * den)%Z.
Proof.
  intros Hx num den. unfold JS.Math_round. rewrite Hx.
  destruct (0 <=? e)%Z eqn:He.
  - apply Z.leb_le in He. exists num. rewrite Hx. unfold SF.is_integer, num, den.
    rewrite (Z.max_r (- e) 0) by lia. change (2 ^ 0)%Z with 1%Z. lia.
  - apply Z.leb_gt in He. unfold num, den.
    rewrite (Z.max_r e 0), (Z.max_l (- e) 0) by lia. change (2 ^ 0)%Z with 1%Z.
    set (k := (2 ^ (- e))%Z).
    assert (Hk : (2 <= k)%Z).
    { change 2%Z with (2 ^ 1)%Z. apply Z.pow_le_mono_r; lia. }
    pose proof (Z.div_mod (Zpos m) k ltac:(lia)) as Hdm.
    pose proof (Z.mod_pos_bound (Zpos m) k ltac:(lia)) as Hmod.
    assert (Hn0 : (0 <= Zpos m / k)%Z) by (apply Z.div_pos; lia).
    pose proof (digits2_upper m) as Hu.
    pose proof (bounded_digits m e (valid_finite x _ _ _ Hx)) as Hd.
    assert (Hm : (Zpos m < 2 ^ 53)%Z).
    { apply Z.lt_le_trans with (1 := Hu). apply Z.pow_le_mono_r; lia. }
    change (2 ^ 53)%Z with 9007199254740992%Z in Hm.
    assert (Hof : forall N, (0 < N <= Zpos m / k + 1)%Z ->
                            SF.is_integer N (Prim2SF (JS.of_Z N))).
    { intros N HN. apply of_Z_exact.
      change (2 ^ 53)%Z with 9007199254740992%Z. nia. }
    set (n := (Zpos m / k)%Z) in *. set (f := (Zpos m mod k)%Z) in *.
    destruct s; cbn [cond_Zopp].
    + destruct (Z.ltb_spec k (2 * f)) as [Hf|Hf].
      * exists (- (n + 1))%Z. split; [|nia].
        destruct (Z.eqb_spec (n + 1) 0) as [E|E]; [lia|].
        rewrite opp_spec. apply is_integer_opp, Hof. lia.
      * exists (- n)%Z. split; [|nia].
        destruct (Z.eqb_spec n 0) as [E|E].
        -- rewrite E. exact eq_refl.
        -- rewrite opp_spec. apply is_integer_opp, Hof. lia.
    + destruct (Z.leb_spec k (2 * f)) as [Hf|Hf].
      * exists (n + 1)%Z. split; [|nia].
        destruct (Z.eqb_spec (n + 1) 0) as [E|E]; [lia|]. apply Hof. lia.
      * exists n. split; [|nia].
        destruct (Z.eqb_spec n 0) as [E|E].
        -- rewrite E. exact eq_refl.
        -- apply Hof. lia.
Qed.

End F64.

(** * Tier lookup *)

Section TierLookup.

Variable x : float.

Lemma find_first (tiers pre post : list Tier) (t : Tier) :
  tiers = pre ++ t :: post ->
  (x <=? threshold t) = true ->
  (forall u, u ∈ pre -> (x <=? threshold u) = false) ->
  find (fun t => x <=? threshold t) tiers = Some t.
Proof.
  intros -> Ht. induction pre as [|p pre IH]; intros Hpre; simpl.
  - rewrite Ht. reflexivity.
  - rewrite (Hpre p) by constructor. apply IH. intros u Hu. apply Hpre. now constructor.
Qed.

Lemma find_split (tiers : list Tier) (t : Tier) :
  find (fun t => x <=? threshold t) tiers = Some t ->
  exists pre post, tiers = pre ++ t :: post /\ (x <=? threshold t) = true /\
    forall u, u ∈ pre -> (x <=? threshold u) = false.
Proof.
  induction tiers as [|a tiers IH]; simpl; [discriminate|].
  destruct (x <=? threshold a) eqn:Ha.
  - intros [= ->]. exists [], tiers. repeat split; auto. intros u Hu. inversion Hu.
  - intros H. destruct (IH H) as (pre & post & -> & Ht & Hpre).
    exists (a :: pre), post. repeat split; auto.
    intros u Hu. inversion Hu; subst; auto.
Qed.

Lemma find_none_all (tiers : list Tier) :
  find (fun t => x <=? threshold t) tiers = None -> forall u, u ∈ tiers -> (x <=? threshold u) = false.
Proof.
  induction tiers as [|a tiers IH]; simpl; intros H u Hu; [inversion Hu|].
  destruct (x <=? threshold a) eqn:Ha; [discriminate|].
  inversion Hu; subst; auto.
Qed.

End TierLookup.

Lemma strictly_increasing_tail (t : Tier) (tiers : list Tier) :
  strictly_increasing (t :: tiers) = true -> strictly_increasing tiers = true.
Proof.
  simpl. destruct tiers; [reflexivity|]. intros H. apply andb_true_iff in H. tauto.
Qed.

Lemma strictly_increasing_app (pre post : list Tier) :
  strictly_increasing (pre ++ post) = true -> strictly_increasing post = true.
Proof.
  induction pre as [|p pre IH]; [trivial|].
  intros H. apply IH. exact (strictly_increasing_tail _ _ H).
Qed.

(** In an increasing table every later tier has a larger threshold. *)
Lemma strictly_increasing_later (t : Tier) (post : list Tier) :
  strictly_increasing (t :: post) = true ->
  forall u, u ∈ post -> (threshold t <? threshold u) = true.
Proof.
  revert t. induction post as [|a post IH]; intros t H u Hu; [inversion Hu|].
  simpl in H. apply andb_true_iff in H. destruct H as [Hta Hrest].
  inversion Hu; subst; [assumption|].
  apply (F64.ltb_trans _ (threshold a)); [assumption|]. now apply IH.
Qed.

Lemma last_app_cons (pre post : list Tier) (t : Tier) :
  last (pre ++ t :: post) = last (t :: post).
Proof.
  induction pre as [|p pre IH]; [reflexivity|].
  simpl. destruct (pre ++ t :: post) eqn:E; [destruct pre; discriminate|]. exact IH.
Qed.

(** A tier with threshold [+Infinity] can only be the last of an increasing table. *)
Lemma unbounded_is_last (pre post : list Tier) (t : Tier) :
  strictly_increasing (pre ++ t :: post) = true ->
  (threshold t =? infinity) = true ->
  last (pre ++ t :: post) = Some t.
Proof.
  intros H Hinf. rewrite last_app_cons.
  apply strictly_increasing_app in H.
  destruct post as [|a post]; [reflexivity|].
  simpl in H. apply andb_true_iff in H. destruct H as [H _].
  rewrite (F64.infinity_top _ (threshold a) Hinf) in H. discriminate.
Qed.

(** The editor keeps the thresholds of a tier table: a table reached from
    a default table has its thresholds, so it is non-empty and strictly
    increasing. *)
Lemma onTierRateChange_thresholds (tiers : list Tier) (idx : nat) (v : float) :
  map threshold (onTierRateChange tiers idx v) = map threshold tiers.
Proof.
  unfold onTierRateChange. destruct (tiers !! idx) as [t|] eqn:E; [|reflexivity].
  revert idx E. induction tiers as [|a tiers IH]; intros [|idx] E;
    try discriminate; simpl in *.
  - injection E as ->. reflexivity.
  - f_equal. now apply IH.
Qed.

Lemma strictly_increasing_thresholds (tiers tiers' : list Tier) :
  map threshold tiers = map threshold tiers' ->
  strictly_increasing tiers = strictly_increasing tiers'.
Proof.
  revert tiers'. induction tiers as [|a tiers IH]; intros [|a' tiers'] E;
    try discriminate; [reflexivity|].
  injection E as Ea E. simpl.
  destruct tiers as [|b tiers], tiers' as [|b' tiers']; try discriminate; [reflexivity|].
  rewrite (IH (b' :: tiers') E), Ea. injection E as -> _. reflexivity.
Qed.

Lemma editable_from_thresholds (tiers0 tiers : list Tier) :
  editable_from tiers0 tiers -> map threshold tiers = map threshold tiers0.
Proof.
  induction 1 as [|tiers idx v _ IH]; [reflexivity|].
  now rewrite onTierRateChange_thresholds.
Qed.

Lemma last_map_threshold (tiers : list Tier) (x : float) :
  last (map threshold tiers) = Some x ->
  exists t, last tiers = Some t /\ threshold t = x.
Proof.
  induction tiers as [|a tiers IH]; [discriminate|].
  destruct tiers as [|b tiers]; simpl in *.
  - intros [= <-]. eauto.
  - exact IH.
Qed.

Lemma editable_tiers_invariant (tiers : list Tier) :
  editable_from DEFAULT_AIR_TIERS tiers \/ editable_from DEFAULT_LCL_TIERS tiers ->
  tiers <> [] /\ strictly_increasing tiers = true /\
  exists t, last tiers = Some t /\ threshold t = infinity.
Proof.
  intros H.
  assert (Ht : map threshold tiers = map threshold DEFAULT_AIR_TIERS \/
               map threshold tiers = map threshold DEFAULT_LCL_TIERS).
  { destruct H as [H|H]; [left|right]; now apply editable_from_thresholds. }
  assert (Hlast : last (map threshold tiers) = Some infinity).
  { destruct Ht as [-> | ->]; reflexivity. }
  split; [|split].
  - intros ->. destruct Ht; discriminate.
  - destruct Ht as [Ht|Ht]; rewrite (strictly_increasing_thresholds _ _ Ht); reflexivity.
  - now apply last_map_threshold.
Qed.

Lemma tierRate_total (tiers : list Tier) (x : float) :
  tiers <> [] -> exists r, tierRate tiers x = JS.Return r.
Proof.
  intros Hne. unfold tierRate.
  destruct (find _ tiers); [eauto|].
  destruct (last tiers) eqn:E; [eauto|].
  apply last_None in E. contradiction.
Qed.

Lemma tierRate_fallback (tiers : list Tier) (x : float) (t : Tier) :
  last tiers = Some t ->
  (forall u, u ∈ tiers -> (x <=? threshold u) = false) ->
  tierRate tiers x = JS.Return (rate t).
Proof.
  intros Hl Hnone. unfold tierRate.
  destruct (find _ tiers) as [f|] eqn:Ef; [|rewrite Hl; reflexivity].
  destruct (find_split x tiers f Ef) as (pre & post & -> & Hf & _).
  rewrite Hnone in Hf; [discriminate|]. apply elem_of_app. right. constructor.
Qed.

Lemma tierRate_returns (tiers : list Tier) (x : float) (t : Tier) :
  last tiers = Some t -> exists r, tierRate tiers x = JS.Return r.
Proof.
  intros Hl. apply tierRate_total. intros ->. discriminate.
Qed.

(** The air and LCL branches of [calcFreight] look the rate up by the
    chargeable weight and the chargeable volume. *)
Lemma calcFreight_air (c : Config) (q : float) :
  mode c = "Aéreo Express" \/ mode c = "Aéreo (Carga)" ->
  let chargeable :=
    JS.Math_max [unitWeightKg c * q; unitVolumeM3 c * q * airVolFactor c;
                 airMinChargeKg c] in
  calcFreight c q
  = JS.bind (tierRate (airTiers c) chargeable) (fun rate =>
      JS.Return {| cost := chargeable * rate + airFixedFees c;
                   basisLabel := PesoTributavel chargeable rate |}).
Proof.
  intros Hm chargeable. unfold calcFreight.
  destruct Hm as [-> | ->]; reflexivity.
Qed.

Lemma calcFreight_lcl (c : Config) (q : float) :
  mode c = "Marítimo LCL" ->
  let cbm := JS.Math_max [unitVolumeM3 c * q; lclMinCbm c] in
  calcFreight c q
  = JS.bind (tierRate (lclTiers c) cbm) (fun rate =>
      JS.Return {| cost := cbm * rate + lclFixedFees c;
                   basisLabel := VolumeTributavel cbm rate |}).
Proof.
  intros Hm cbm. unfold calcFreight. rewrite Hm. reflexivity.
Qed.

(** C1. On a non-empty tier table with strictly increasing thresholds the
    lookup returns the rate of the first tier of the table whose threshold
    is at least the chargeable quantity, which is the qualifying tier of
    smallest threshold; when no tier qualifies, and in particular when the
    quantity exceeds every threshold other than [+Infinity], it returns the
    rate of the last tier.  [calcFreight] uses this lookup for the air
    chargeable weight and the LCL chargeable volume, and every table that
    the tier editor can produce from the defaults is non-empty and strictly
    increasing.  On the default air table, 45 resolves to 6.5, 100 to 5.8,
    301 to 4.6 and 10000 to 4.2. *)
Theorem tierRate_first_qualifying :
  (forall (tiers : list Tier) (x : float),
     tiers <> [] ->
     strictly_increasing tiers = true ->
     ((exists pre t post,
         tiers = pre ++ t :: post /\
         (x <=? threshold t) = true /\
         (forall u, u ∈ pre -> (x <=? threshold u) = false) /\
         tierRate tiers x = JS.Return (rate t)) \/
      ((forall u, u ∈ tiers -> (x <=? threshold u) = false) /\
       exists t, last tiers = Some t /\ tierRate tiers x = JS.Return (rate t))) /\
     (forall pre t post,
        tiers = pre ++ t :: post ->
        (x <=? threshold t) = true ->
        (forall u, u ∈ pre -> (x <=? threshold u) = false) ->
        tierRate tiers x = JS.Return (rate t)) /\
     (forall t,
        t ∈ tiers ->
        (x <=? threshold t) = true ->
        (forall u, u ∈ tiers -> (x <=? threshold u) = true ->
                   (threshold t <=? threshold u) = true) ->
        tierRate tiers x = JS.Return (rate t)) /\
     (forall t, last tiers = Some t ->
        ((forall u, u ∈ tiers -> (x <=? threshold u) = false) ->
         tierRate tiers x = JS.Return (rate t)) /\
        ((forall u, u ∈ tiers -> (threshold u =? infinity) = false ->
                    (threshold u <? x) = true) ->
         tierRate tiers x = JS.Return (rate t)))) /\
  (forall c q,
     (mode c = "Aéreo Express" \/ mode c = "Aéreo (Carga)" ->
      let chargeable :=
        JS.Math_max [unitWeightKg c * q; unitVolumeM3 c * q * airVolFactor c;
                     airMinChargeKg c] in
      calcFreight c q
      = JS.bind (tierRate (airTiers c) chargeable) (fun rate =>
          JS.Return {| cost := chargeable * rate + airFixedFees c;
                       basisLabel := PesoTributavel chargeable rate |})) /\
     (mode c = "Marítimo LCL" ->
      let cbm := JS.Math_max [unitVolumeM3 c * q; lclMinCbm c] in
      calcFreight c q
      = JS.bind (tierRate (lclTiers c) cbm) (fun rate =>
          JS.Return {| cost := cbm * rate + lclFixedFees c;
                       basisLabel := VolumeTributavel cbm rate |}))) /\
  (forall tiers,
     editable_from DEFAULT_AIR_TIERS tiers \/ editable_from DEFAULT_LCL_TIERS tiers ->
     tiers <> [] /\ strictly_increasing tiers = true) /\
  tierRate DEFAULT_AIR_TIERS 45 = JS.Return 6.5 /\
  tierRate DEFAULT_AIR_TIERS 100 = JS.Return 5.8 /\
  tierRate DEFAULT_AIR_TIERS 301 = JS.Return 4.6 /\
  tierRate DEFAULT_AIR_TIERS 10000 = JS.Return 4.2.
Proof.
  split; [|split; [|split; [|repeat split; reflexivity]]].
  2: { intros c q. split; [apply calcFreight_air|apply calcFreight_lcl]. }
  2: { intros tiers H. destruct (editable_tiers_invariant tiers H) as (? & ? & _). auto. }
  intros tiers x Hne Hinc. split; [|split; [|split]].
  - unfold tierRate. destruct (find _ tiers) as [f|] eqn:Ef.
    + left. destruct (find_split x tiers f Ef) as (pre & post & E & Hf & Hpre).
      exists pre, f, post. auto.
    + right. split; [exact (find_none_all x tiers Ef)|].
      destruct (last tiers) as [l|] eqn:El; [eauto|].
      apply last_None in El. contradiction.
  - intros pre t post E Ht Hpre. unfold tierRate.
    rewrite (find_first x tiers pre post t E Ht Hpre). reflexivity.
  - intros t Hin Ht Hmin. unfold tierRate.
    destruct (find _ tiers) as [f|] eqn:Ef.
    + destruct (find_split x tiers f Ef) as (pre & post & E & Hf & Hpre).
      subst tiers. apply elem_of_app in Hin. destruct Hin as [Hin|Hin].
      * rewrite (Hpre t Hin) in Ht. discriminate.
      * inversion Hin as [|? ? ? Hpost]; subst; [reflexivity|].
        apply strictly_increasing_app in Hinc.
        pose proof (strictly_increasing_later f post Hinc t Hpost) as Hlt.
        apply F64.ltb_leb_false in Hlt.
        rewrite Hmin in Hlt; [discriminate| |assumption].
        apply elem_of_app. right. constructor.
    + rewrite (find_none_all x tiers Ef t Hin) in Ht. discriminate.
  - intros t Hl. split; [now apply tierRate_fallback|].
    intros Hexc. unfold tierRate.
    destruct (find _ tiers) as [f|] eqn:Ef; [|rewrite Hl; reflexivity].
    destruct (find_split x tiers f Ef) as (pre & post & E & Hf & Hpre).
    subst tiers. f_equal. f_equal.
    enough (Hlast : last (pre ++ f :: post) = Some f) by congruence.
    apply unbounded_is_last; [assumption|].
    destruct (threshold f =? infinity) eqn:Hinf; [reflexivity|].
    assert (Hlt : (threshold f <? x) = true).
    { apply Hexc; [|assumption]. apply elem_of_app. right. constructor. }
    apply F64.ltb_leb_false in Hlt. congruence.
Qed.

Lemma tierRate_first_qualifying_witness :
  tierRate DEFAULT_AIR_TIERS 301 = JS.Return 4.6 /\
  tierRate DEFAULT_AIR_TIERS infinity = JS.Return 4.2.
Proof.
  destruct tierRate_first_qualifying as [H _].
  destruct (H DEFAULT_AIR_TIERS 301) as (_ & Hfirst & _); [discriminate|reflexivity|].
  destruct (H DEFAULT_AIR_TIERS infinity) as (_ & _ & _ & Hlast); [discriminate|reflexivity|].
  split.
  - apply (Hfirst (firstn 3 DEFAULT_AIR_TIERS) {| threshold := 500; rate := 4.6 |}
             (skipn 4 DEFAULT_AIR_TIERS)); [reflexivity|reflexivity|].
    intros u Hu.
    repeat (inversion Hu as [|? ? ? Hu']; subst; [reflexivity|]; clear Hu; rename Hu' into Hu).
    inversion Hu.
  - apply (Hlast {| threshold := infinity; rate := 4.2 |} eq_refl).
    intros t Ht Hinf.
    repeat (inversion Ht as [|? ? ? Ht']; subst;
            [first [reflexivity|discriminate]|]; clear Ht; rename Ht' into Ht).
    inversion Ht.
Defined.

(** * Customs base, duty and VAT *)

(** Unfolding the memoised values once the freight of the configured
    quantity is known. *)
Lemma insuranceEUR_eq (c : Config) (fr : Freight) :
  freight c = JS.Return fr ->
  insuranceEUR c = JS.Return ((goodsEUR c + cost fr) * (insurancePct c / 100)).
Proof. intros H. unfold insuranceEUR. rewrite H. reflexivity. Qed.

Lemma customsBase_eq (c : Config) (fr : Freight) :
  freight c = JS.Return fr ->
  customsBase c =
  JS.Return ((if (incoterm c =? "CIF")%string then goodsEUR c
              else goodsEUR c + cost fr
                   + (goodsEUR c + cost fr) * (insurancePct c / 100))
             + localOriginTransport c).
Proof.
  intros H. unfold customsBase. rewrite (insuranceEUR_eq c fr H), H. reflexivity.
Qed.

(** C3. The customs base is goods plus local origin transport under CIF,
    and goods plus freight plus insurance plus local origin transport under
    EXW and FOB, in the main pipeline and in the sensitivity loop; changing
    only the incoterm leaves goods, freight and insurance unchanged. *)
Theorem customsBase_incoterm (c : Config) (fr : Freight) :
  freight c = JS.Return fr ->
  let goods := goodsEUR c in
  let ins := (goods + cost fr) * (insurancePct c / 100) in
  insuranceEUR c = JS.Return ins /\
  (incoterm c = "CIF" ->
   customsBase c = JS.Return (goods + localOriginTransport c)) /\
  (incoterm c = "EXW" \/ incoterm c = "FOB" ->
   customsBase c = JS.Return (goods + cost fr + ins + localOriginTransport c)) /\
  (forall g f i,
     (incoterm c = "CIF" -> sens_customs c g f i = g + localOriginTransport c) /\
     (incoterm c = "EXW" \/ incoterm c = "FOB" ->
      sens_customs c g f i = g + f + i + localOriginTransport c)) /\
  (forall inc,
     goodsEUR (setIncoterm inc c) = goods /\
     freight (setIncoterm inc c) = JS.Return fr /\
     insuranceEUR (setIncoterm inc c) = JS.Return ins) /\
  customsBase (setIncoterm "CIF" c) = JS.Return (goods + localOriginTransport c) /\
  customsBase (setIncoterm "EXW" c)
  = JS.Return (goods + cost fr + ins + localOriginTransport c) /\
  customsBase (setIncoterm "FOB" c)
  = JS.Return (goods + cost fr + ins + localOriginTransport c).
Proof.
  intros H goods ins.
  assert (Hset : forall inc, freight (setIncoterm inc c) = JS.Return fr) by exact (fun _ => H).
  split; [exact (insuranceEUR_eq c fr H)|].
  split; [intros E; rewrite (customsBase_eq c fr H), E; reflexivity|].
  split; [intros [E|E]; rewrite (customsBase_eq c fr H), E; reflexivity|].
  split.
  { intros g f i. unfold sens_customs.
    split; [intros E|intros [E|E]]; rewrite E; reflexivity. }
  split.
  { intros inc. split; [reflexivity|]. split; [apply Hset|].
    exact (insuranceEUR_eq _ fr (Hset inc)). }
  split; [|split]; rewrite (customsBase_eq _ fr (Hset _)); reflexivity.
Qed.

Lemma customsBase_incoterm_witness :
  customsBase initial = JS.Return (27600 + 524 + 140.62 + 0) /\
  customsBase (setIncoterm "CIF" initial) = JS.Return (27600 + 0).
Proof.
  destruct (customsBase_incoterm initial {| cost := 524; basisLabel := PesoTributavel 80 5.8 |})
    as (_ & _ & Hexw & _ & _ & Hcif & _); [reflexivity|].
  split; [apply Hexw; left; reflexivity|exact Hcif].
Defined.

(** * The sensitivity curve *)

Lemma qMax_lower (c : Config) : qMax c = nan \/ (2000 <=? qMax c) = true.
Proof.
  unfold qMax.
  change (JS.Math_max [2000; qty c * 2]) with (JS.max2 2000 (qty c * 2)).
  apply F64.max2_lower.
Qed.

(** Every sampled quantity is NaN or truthy: the loop never divides by a
    zero quantity. *)
Lemma sampleQty_truthy (c : Config) (i : float) :
  SF.nonneg (Prim2SF i) ->
  sampleQty c i = nan \/ JS.truthy (sampleQty c i) = true.
Proof.
  intros Hi. unfold sampleQty, qMin, steps.
  destruct (qMax_lower c) as [Hq|Hq].
  - left. rewrite Hq, F64.sub_nan_l, F64.mul_nan_r, F64.div_nan_l, F64.add_nan_r.
    reflexivity.
  - set (t := i * (qMax c - 10) / 40).
    assert (Ht : SF.nonneg (Prim2SF t)).
    { unfold t. rewrite div_spec.
      change (Prim2SF 40) with (S754_finite false 5629499534213120 (-47)).
      apply F64.nonneg_div. rewrite mul_spec.
      apply F64.nonneg_mul; [assumption|]. now apply F64.sub_10_nonneg. }
    destruct (F64.add_10_magnitude t Ht) as [Hn|Hm].
    + left. rewrite (F64.nan_of_spec _ Hn). reflexivity.
    + right. now apply F64.round_truthy.
Qed.

Lemma sampleIndices_nonneg (i : float) :
  i ∈ sampleIndices -> SF.nonneg (Prim2SF i).
Proof.
  unfold sampleIndices. intros H. apply list_elem_of_fmap in H.
  destruct H as (n & -> & Hn). apply elem_of_seq in Hn.
  apply F64.of_Z_nonneg. change (2 ^ 63)%Z with 9223372036854775808%Z. lia.
Qed.

Lemma or_else_truthy (x d : float) : JS.truthy x = true -> JS.or_else x d = x.
Proof. unfold JS.or_else. intros ->. reflexivity. Qed.

Lemma traverse_Forall2 {A B : Type} (f : A -> JS.completion B) (l : list A) :
  forall bs, JS.traverse f l = JS.Return bs ->
  Forall2 (fun a b => f a = JS.Return b) l bs.
Proof.
  induction l as [|a l IH]; simpl; intros bs H.
  - injection H as <-. constructor.
  - destruct (f a) as [b|] eqn:Ea; simpl in H; [|discriminate].
    destruct (JS.traverse f l) as [bs'|]; simpl in H; [|discriminate].
    injection H as <-. constructor; auto.
Qed.

(** The body of the loop at a quantity [q] that is truthy or NaN computes
    the unit landed cost of the state in which [qty] is [q]. *)
Lemma samplePoint_unitLanded (c : Config) (q : float) :
  q = nan \/ JS.truthy q = true ->
  unitLanded (setQty q c)
  = JS.bind (samplePoint c q) (fun p => JS.Return (pt_unit p)).
Proof.
  intros Hq.
  unfold unitLanded, landedInclVAT, vatEUR, vatBase, landedExVAT, dutyEUR,
    customsBase, insuranceEUR, freight, samplePoint.
  change (calcFreight (setQty q c) (qty (setQty q c))) with (calcFreight c q).
  destruct (calcFreight c q) as [f|]; [|reflexivity].
  cbn [mbind completion_bind JS.bind pt_unit].
  destruct Hq as [->|Hq].
  - unfold sens_goods, goodsEUR. cbn [setQty qty unitPrice].
    rewrite !F64.mul_nan_r, !F64.mul_nan_l, !F64.add_nan_l.
    rewrite F64.div_nan_l, F64.div_nan_r. reflexivity.
  - change (qty (setQty q c)) with q. rewrite (or_else_truthy q 1 Hq).
    unfold sens_customs.
    change (incoterm (setQty q c)) with (incoterm c).
    destruct (incoterm c =? "CIF")%string; reflexivity.
Qed.

(** C2. The loop body and the main pipeline compute the same unit cost at
    every quantity that is NaN or truthy, and every sampled quantity is one
    of these.  Hence every point of the sensitivity curve records, for its
    sampled quantity, the unit landed cost that the main pipeline computes
    for the state in which only [qty] is replaced by that quantity; and the
    curve throws only if the pipeline throws at a sampled quantity. *)
Theorem sensitivity_matches_pipeline (c : Config) :
  (forall q, q = nan \/ JS.truthy q = true ->
     unitLanded (setQty q c)
     = JS.bind (samplePoint c q) (fun p => JS.Return (pt_unit p))) /\
  (forall i, i ∈ sampleIndices ->
     sampleQty c i = nan \/ JS.truthy (sampleQty c i) = true) /\
  (forall i, i ∈ sampleIndices ->
     unitLanded (setQty (sampleQty c i) c)
     = JS.bind (samplePoint c (sampleQty c i)) (fun p => JS.Return (pt_unit p))) /\
  (forall points, sensitivityData c = JS.Return points ->
     Forall2 (fun i p =>
                pt_qty p = sampleQty c i /\
                unitLanded (setQty (pt_qty p) c) = JS.Return (pt_unit p))
             sampleIndices points) /\
  (sensitivityData c = JS.TypeError ->
   exists i, i ∈ sampleIndices /\ unitLanded (setQty (sampleQty c i) c) = JS.TypeError).
Proof.
  assert (Hbody : forall i, i ∈ sampleIndices ->
     unitLanded (setQty (sampleQty c i) c)
     = JS.bind (samplePoint c (sampleQty c i)) (fun p => JS.Return (pt_unit p))).
  { intros i Hi. apply samplePoint_unitLanded, sampleQty_truthy.
    now apply sampleIndices_nonneg. }
  split; [exact (samplePoint_unitLanded c)|].
  split; [intros i Hi; now apply sampleQty_truthy, sampleIndices_nonneg|].
  split; [exact Hbody|]. unfold sensitivityData. split.
  - intros points H. apply traverse_Forall2 in H.
    revert Hbody H. generalize sampleIndices.
    intros l Hbody H. induction H as [|i p l ps Hp _ IH]; constructor.
    + assert (Hq : pt_qty p = sampleQty c i).
      { unfold samplePoint in Hp. destruct (calcFreight c _); simpl in Hp; [|discriminate].
        injection Hp as <-. reflexivity. }
      split; [assumption|]. rewrite Hq, Hbody, Hp by constructor. reflexivity.
    + apply IH. intros j Hj. apply Hbody. now constructor.
  - revert Hbody. generalize sampleIndices. intros l Hbody H.
    induction l as [|i l IH]; simpl in H; [discriminate|].
    destruct (samplePoint c (sampleQty c i)) as [p|] eqn:Ep.
    + simpl in H. destruct (JS.traverse _ l) eqn:El; simpl in H; [discriminate|].
      destruct IH as (j & Hj & Hu); [intros j Hj; apply Hbody; now constructor|reflexivity|].
      exists j. split; [now constructor|assumption].
    + exists i. split; [constructor|]. rewrite Hbody, Ep by constructor. reflexivity.
Qed.

Lemma sensitivity_matches_pipeline_witness :
  exists points,
    sensitivityData initial = JS.Return points /\
    Forall2 (fun i p =>
               pt_qty p = sampleQty initial i /\
               unitLanded (setQty (pt_qty p) initial) = JS.Return (pt_unit p))
            sampleIndices points.
Proof.
  eexists. split.
  - vm_compute. reflexivity.
  - apply (sensitivity_matches_pipeline initial). vm_compute. reflexivity.
Defined.

(** * Freight *)

(** C4, counterexample. With an empty air tier table the freight
    calculation of the initial state throws, and so does the unit landed
    cost; likewise for an empty LCL table in LCL mode. *)
Lemma calcFreight_empty_tiers_throws :
  calcFreight (setAirTiers [] initial) 100 = JS.TypeError /\
  unitLanded (setAirTiers [] initial) = JS.TypeError /\
  calcFreight (setLclTiers [] (setMode "Marítimo LCL" initial)) 100 = JS.TypeError /\
  ~ (exists fr, calcFreight (setAirTiers [] initial) 100 = JS.Return fr).
Proof.
  repeat split; try reflexivity. intros [fr H]. discriminate H.
Qed.

(** On a table with increasing thresholds, a quantity above every finite
    threshold is charged at the rate of the last tier: either no tier
    qualifies, or the first qualifying tier has the threshold [Infinity] and
    is the last one. *)
Lemma tierRate_above_finite (tiers : list Tier) (x : float) (t : Tier) :
  strictly_increasing tiers = true ->
  last tiers = Some t ->
  (forall u, u ∈ tiers -> (threshold u =? infinity) = false ->
             (threshold u <? x) = true) ->
  tierRate tiers x = JS.Return (rate t).
Proof.
  intros Hinc Hl Hexc. unfold tierRate.
  destruct (find _ tiers) as [f|] eqn:Ef; [|rewrite Hl; reflexivity].
  destruct (find_split x tiers f Ef) as (pre & post & E & Hf & Hpre).
  subst tiers. f_equal. f_equal.
  enough (Hlast : last (pre ++ f :: post) = Some f) by congruence.
  apply unbounded_is_last; [assumption|].
  destruct (threshold f =? infinity) eqn:Hinf; [reflexivity|].
  assert (Hlt : (threshold f <? x) = true).
  { apply Hexc; [|assumption]. apply elem_of_app. right. constructor. }
  apply F64.ltb_leb_false in Hlt. congruence.
Qed.

Lemma calcFreight_air_fallback (c : Config) (q : float) (t : Tier) :
  mode c = "Aéreo Express" \/ mode c = "Aéreo (Carga)" ->
  last (airTiers c) = Some t ->
  let chargeable :=
    JS.Math_max [unitWeightKg c * q; unitVolumeM3 c * q * airVolFactor c;
                 airMinChargeKg c] in
  (exists fr, calcFreight c q = JS.Return fr) /\
  ((forall u, u ∈ airTiers c -> (chargeable <=? threshold u) = false) ->
   calcFreight c q
   = JS.Return {| cost := chargeable * rate t + airFixedFees c;
                  basisLabel := PesoTributavel chargeable (rate t) |}).
Proof.
  intros Hm Hl chargeable. rewrite (calcFreight_air c q Hm). fold chargeable. split.
  - destruct (tierRate_returns (airTiers c) chargeable t Hl) as [r ->]. simpl. eauto.
  - intros Hnone. rewrite (tierRate_fallback _ _ t Hl Hnone). reflexivity.
Qed.

Lemma calcFreight_air_above_finite (c : Config) (q : float) (t : Tier) :
  mode c = "Aéreo Express" \/ mode c = "Aéreo (Carga)" ->
  last (airTiers c) = Some t ->
  strictly_increasing (airTiers c) = true ->
  let chargeable :=
    JS.Math_max [unitWeightKg c * q; unitVolumeM3 c * q * airVolFactor c;
                 airMinChargeKg c] in
  (forall u, u ∈ airTiers c -> (threshold u =? infinity) = false ->
             (threshold u <? chargeable) = true) ->
  calcFreight c q
  = JS.Return {| cost := chargeable * rate t + airFixedFees c;
                 basisLabel := PesoTributavel chargeable (rate t) |}.
Proof.
  intros Hm Hl Hinc chargeable Hexc. rewrite (calcFreight_air c q Hm). fold chargeable.
  rewrite (tierRate_above_finite _ _ t Hinc Hl Hexc). reflexivity.
Qed.

Lemma calcFreight_lcl_above_finite (c : Config) (q : float) (t : Tier) :
  mode c = "Marítimo LCL" ->
  last (lclTiers c) = Some t ->
  strictly_increasing (lclTiers c) = true ->
  let cbm := JS.Math_max [unitVolumeM3 c * q; lclMinCbm c] in
  (forall u, u ∈ lclTiers c -> (threshold u =? infinity) = false ->
             (threshold u <? cbm) = true) ->
  calcFreight c q
  = JS.Return {| cost := cbm * rate t + lclFixedFees c;
                 basisLabel := VolumeTributavel cbm (rate t) |}.
Proof.
  intros Hm Hl Hinc cbm Hexc. rewrite (calcFreight_lcl c q Hm). fold cbm.
  rewrite (tierRate_above_finite _ _ t Hinc Hl Hexc). reflexivity.
Qed.

Lemma calcFreight_lcl_fallback (c : Config) (q : float) (t : Tier) :
  mode c = "Marítimo LCL" ->
  last (lclTiers c) = Some t ->
  let cbm := JS.Math_max [unitVolumeM3 c * q; lclMinCbm c] in
  (exists fr, calcFreight c q = JS.Return fr) /\
  ((forall u, u ∈ lclTiers c -> (cbm <=? threshold u) = false) ->
   calcFreight c q
   = JS.Return {| cost := cbm * rate t + lclFixedFees c;
                  basisLabel := VolumeTributavel cbm (rate t) |}).
Proof.
  intros Hm Hl cbm. rewrite (calcFreight_lcl c q Hm). fold cbm. split.
  - destruct (tierRate_returns (lclTiers c) cbm t Hl) as [r ->]. simpl. eauto.
  - intros Hnone. rewrite (tierRate_fallback _ _ t Hl Hnone). reflexivity.
Qed.

Lemma calcFreight_other_returns (c : Config) (q : float) :
  mode c <> "Aéreo Express" -> mode c <> "Aéreo (Carga)" ->
  mode c <> "Marítimo LCL" ->
  exists fr, calcFreight c q = JS.Return fr.
Proof.
  intros H1 H2 H3. unfold calcFreight.
  apply String.eqb_neq in H1, H2, H3. rewrite H1, H2, H3. cbn [orb].
  destruct (mode c =? "Marítimo FCL 20'")%string; [eauto|].
  destruct (mode c =? "Marítimo FCL 40'")%string; eauto.
Qed.

(** C4, amended. In the air and LCL modes, when the tier table has a last
    tier the freight calculation returns; it charges the rate of the last
    tier when no tier has a threshold at least the chargeable quantity, and,
    on a table with increasing thresholds, when the chargeable quantity is
    above every finite threshold.  In the FCL modes and for an unknown mode
    it returns whatever the tier tables are.  Every table that the tier
    editor can produce from the defaults has a last tier and increasing
    thresholds, so on all of them the calculation returns and charges the
    rate of the last tier above every finite threshold. *)
Theorem calcFreight_last_tier_fallback (c : Config) (q : float) :
  (mode c = "Aéreo Express" \/ mode c = "Aéreo (Carga)" ->
   forall t, last (airTiers c) = Some t ->
     let chargeable :=
       JS.Math_max [unitWeightKg c * q; unitVolumeM3 c * q * airVolFactor c;
                    airMinChargeKg c] in
     (exists fr, calcFreight c q = JS.Return fr) /\
     ((forall u, u ∈ airTiers c -> (chargeable <=? threshold u) = false) ->
      calcFreight c q
      = JS.Return {| cost := chargeable * rate t + airFixedFees c;
                     basisLabel := PesoTributavel chargeable (rate t) |}) /\
     (strictly_increasing (airTiers c) = true ->
      (forall u, u ∈ airTiers c -> (threshold u =? infinity) = false ->
                 (threshold u <? chargeable) = true) ->
      calcFreight c q
      = JS.Return {| cost := chargeable * rate t + airFixedFees c;
                     basisLabel := PesoTributavel chargeable (rate t) |})) /\
  (mode c = "Marítimo LCL" ->
   forall t, last (lclTiers c) = Some t ->
     let cbm := JS.Math_max [unitVolumeM3 c * q; lclMinCbm c] in
     (exists fr, calcFreight c q = JS.Return fr) /\
     ((forall u, u ∈ lclTiers c -> (cbm <=? threshold u) = false) ->
      calcFreight c q
      = JS.Return {| cost := cbm * rate t + lclFixedFees c;
                     basisLabel := VolumeTributavel cbm (rate t) |}) /\
     (strictly_increasing (lclTiers c) = true ->
      (forall u, u ∈ lclTiers c -> (threshold u =? infinity) = false ->
                 (threshold u <? cbm) = true) ->
      calcFreight c q
      = JS.Return {| cost := cbm * rate t + lclFixedFees c;
                     basisLabel := VolumeTributavel cbm (rate t) |})) /\
  (mode c <> "Aéreo Express" -> mode c <> "Aéreo (Carga)" ->
   mode c <> "Marítimo LCL" ->
   exists fr, calcFreight c q = JS.Return fr) /\
  (editable_from DEFAULT_AIR_TIERS (airTiers c) ->
   editable_from DEFAULT_LCL_TIERS (lclTiers c) ->
   exists fr, calcFreight c q = JS.Return fr) /\
  (editable_from DEFAULT_AIR_TIERS (airTiers c) ->
   mode c = "Aéreo Express" \/ mode c = "Aéreo (Carga)" ->
   let chargeable :=
     JS.Math_max [unitWeightKg c * q; unitVolumeM3 c * q * airVolFactor c;
                  airMinChargeKg c] in
   (forall u, u ∈ airTiers c -> (threshold u =? infinity) = false ->
              (threshold u <? chargeable) = true) ->
   exists t, last (airTiers c) = Some t /\
     calcFreight c q
     = JS.Return {| cost := chargeable * rate t + airFixedFees c;
                    basisLabel := PesoTributavel chargeable (rate t) |}) /\
  (editable_from DEFAULT_LCL_TIERS (lclTiers c) ->
   mode c = "Marítimo LCL" ->
   let cbm := JS.Math_max [unitVolumeM3 c * q; lclMinCbm c] in
   (forall u, u ∈ lclTiers c -> (threshold u =? infinity) = false ->
              (threshold u <? cbm) = true) ->
   exists t, last (lclTiers c) = Some t /\
     calcFreight c q
     = JS.Return {| cost := cbm * rate t + lclFixedFees c;
                    basisLabel := VolumeTributavel cbm (rate t) |}).
Proof.
  split; [|split; [|split; [|split; [|split]]]].
  - intros Hm t Hl chargeable.
    destruct (calcFreight_air_fallback c q t Hm Hl) as [Hret Hnone].
    split; [exact Hret|]. split; [exact Hnone|].
    intros Hinc. now apply calcFreight_air_above_finite.
  - intros Hm t Hl cbm.
    destruct (calcFreight_lcl_fallback c q t Hm Hl) as [Hret Hnone].
    split; [exact Hret|]. split; [exact Hnone|].
    intros Hinc. now apply calcFreight_lcl_above_finite.
  - apply calcFreight_other_returns.
  - intros Ea El.
    destruct (editable_tiers_invariant (airTiers c) (or_introl Ea))
      as (_ & _ & ta & Hta & _).
    destruct (editable_tiers_invariant (lclTiers c) (or_intror El))
      as (_ & _ & tl & Htl & _).
    destruct (String.eqb_spec (mode c) "Aéreo Express") as [E1|N1];
      [exact (proj1 (calcFreight_air_fallback c q ta (or_introl E1) Hta))|].
    destruct (String.eqb_spec (mode c) "Aéreo (Carga)") as [E2|N2];
      [exact (proj1 (calcFreight_air_fallback c q ta (or_intror E2) Hta))|].
    destruct (String.eqb_spec (mode c) "Marítimo LCL") as [E3|N3];
      [exact (proj1 (calcFreight_lcl_fallback c q tl E3 Htl))|].
    now apply calcFreight_other_returns.
  - intros Ea Hm chargeable Hexc.
    destruct (editable_tiers_invariant (airTiers c) (or_introl Ea))
      as (_ & Hinc & ta & Hta & _).
    exists ta. split; [exact Hta|]. now apply calcFreight_air_above_finite.
  - intros El Hm cbm Hexc.
    destruct (editable_tiers_invariant (lclTiers c) (or_intror El))
      as (_ & Hinc & tl & Htl & _).
    exists tl. split; [exact Htl|]. now apply calcFreight_lcl_above_finite.
Qed.

Lemma calcFreight_last_tier_fallback_witness :
  calcFreight (setAirTiers (firstn 4 DEFAULT_AIR_TIERS) initial) 1000
  = JS.Return {| cost := 800 * 4.6 + 60; basisLabel := PesoTributavel 800 4.6 |} /\
  calcFreight (setUnitWeightKg 1 initial) 10000
  = JS.Return {| cost := 10000 * 4.2 + 60; basisLabel := PesoTributavel 10000 4.2 |}.
Proof.
  split.
  - destruct (calcFreight_last_tier_fallback
                (setAirTiers (firstn 4 DEFAULT_AIR_TIERS) initial) 1000) as (Hair & _).
    destruct (Hair (or_intror eq_refl) {| threshold := 500; rate := 4.6 |} eq_refl)
      as (_ & Hfall & _).
    apply Hfall. intros u Hu.
    repeat (inversion Hu as [|? ? ? Hu']; subst; [reflexivity|]; clear Hu; rename Hu' into Hu).
    inversion Hu.
  - destruct (calcFreight_last_tier_fallback (setUnitWeightKg 1 initial) 10000)
      as (Hair & _).
    destruct (Hair (or_intror eq_refl) {| threshold := infinity; rate := 4.2 |} eq_refl)
      as (_ & _ & Habove).
    apply Habove; [reflexivity|]. intros u Hu.
    repeat (inversion Hu as [|? ? ? Hu']; subst;
            [first [reflexivity | discriminate]|]; clear Hu; rename Hu' into Hu).
    inversion Hu.
Defined.

(** C8. In an FCL mode the number of containers is
    [Math.max(1, Math.ceil(volume / capacity))], NaN or at least 1; the cost
    is the container price times that number plus the fixed fees, and the
    utilisation appears in the label only.  The capacities are 33.2 and 67.7
    m³, and 70 m³ with the 20' capacity makes 3 containers.
    ([F64.Math_ceil_spec] shows that [Math_ceil] is the integer ceiling.) *)
Theorem fcl_container_count (c : Config) (q : float) :
  let volM3 := unitVolumeM3 c * q in
  (mode c = "Marítimo FCL 20'" ->
   let cap := FCL_CAPACITY_at "Marítimo FCL 20'" in
   let containers := JS.Math_max [1; JS.Math_ceil (volM3 / cap)] in
   calcFreight c q
   = JS.Return {| cost := fcl20Price c * containers + fclFixedFees c;
                  basisLabel :=
                    Contentores20 containers (volM3 / (containers * cap) * 100) |} /\
   (containers = nan \/ (1 <=? containers) = true)) /\
  (mode c = "Marítimo FCL 40'" ->
   let cap := FCL_CAPACITY_at "Marítimo FCL 40'" in
   let containers := JS.Math_max [1; JS.Math_ceil (volM3 / cap)] in
   calcFreight c q
   = JS.Return {| cost := fcl40Price c * containers + fclFixedFees c;
                  basisLabel :=
                    Contentores40 containers (volM3 / (containers * cap) * 100) |} /\
   (containers = nan \/ (1 <=? containers) = true)) /\
  FCL_CAPACITY_at "Marítimo FCL 20'" = 33.2 /\
  FCL_CAPACITY_at "Marítimo FCL 40'" = 67.7 /\
  JS.Math_ceil (70 / 33.2) = 3 /\
  JS.Math_max [1; JS.Math_ceil (70 / FCL_CAPACITY_at "Marítimo FCL 20'")] = 3 /\
  calcFreight
    (setMode "Marítimo FCL 20'" (setUnitLcm 100 (setUnitWcm 100 (setUnitHcm 100 initial))))
    70
  = JS.Return {| cost := 1800 * 3 + 300;
                 basisLabel := Contentores20 3 (70 / (3 * 33.2) * 100) |}.
Proof.
  intros volM3. split; [|split; [|repeat split; reflexivity]].
  - intros Hm cap containers. split.
    + unfold calcFreight. rewrite Hm. reflexivity.
    + apply (F64.max2_lower 1).
  - intros Hm cap containers. split.
    + unfold calcFreight. rewrite Hm. reflexivity.
    + apply (F64.max2_lower 1).
Qed.

Lemma fcl_container_count_witness :
  calcFreight (setMode "Marítimo FCL 40'" initial) 100000
  = JS.Return {| cost := 2300 * 2 + 300;
                 basisLabel := Contentores40 2 (68 / (2 * 67.7) * 100) |}.
Proof.
  destruct (fcl_container_count (setMode "Marítimo FCL 40'" initial) 100000)
    as (_ & H40 & _).
  destruct (H40 eq_refl) as [H _]. exact H.
Defined.

(** * Landed cost *)

Lemma float_neq (x y : float) : Prim2SF x <> Prim2SF y -> x <> y.
Proof. intros H E. apply H. rewrite E. reflexivity. Qed.

(** The quantity input only stores quantities that are at least 1: on
    the states it produces, the divisor [qty || 1] is [Math.max(qty, 1)]. *)
Lemma onQtyChange_at_least_1 (v : float) (c : Config) :
  is_nan v = false ->
  (1 <=? qty (onQtyChange v c)) = true /\
  JS.or_else (qty (onQtyChange v c)) 1 = JS.Math_max [qty (onQtyChange v c); 1].
Proof.
  intros Hv.
  assert (H1 : (1 <=? qty (onQtyChange v c)) = true).
  { change (qty (onQtyChange v c)) with (JS.max2 1 v).
    destruct (F64.max2_lower 1 v) as [Hn|Hle]; [|assumption].
    unfold JS.max2 in Hn. rewrite Hv in Hn. cbn [is_nan orb] in Hn.
    change (is_nan 1) with false in Hn. cbn [orb] in Hn.
    exfalso. destruct (1 <? v), (v <? 1); cbn [get_sign] in Hn;
      try (rewrite Hn in Hv; discriminate Hv);
      apply (f_equal Prim2SF) in Hn; vm_compute in Hn; discriminate Hn. }
  split; [assumption|].
  rewrite (F64.Math_max_ge_1 _ H1). unfold JS.or_else.
  rewrite (F64.ge_1_truthy _ H1). reflexivity.
Qed.

(** C5, counterexample. At a quantity of 0.5, and at a quantity of -2, the
    unit landed cost is the total divided by the quantity itself, which
    differs from the total divided by [Math.max(quantity, 1)]. *)
Lemma unitLanded_not_max_clamp :
  (exists total,
     landedInclVAT (setQty 0.5 initial) = JS.Return total /\
     unitLanded (setQty 0.5 initial) = JS.Return (total / 0.5) /\
     total / 0.5 <> total / JS.Math_max [0.5; 1]) /\
  (exists total,
     landedInclVAT (setQty (-2) initial) = JS.Return total /\
     unitLanded (setQty (-2) initial) = JS.Return (total / (-2)) /\
     total / (-2) <> total / JS.Math_max [-2; 1]).
Proof.
  split; eexists; (split; [vm_compute; reflexivity|]);
    (split; [vm_compute; reflexivity|]);
    apply float_neq; vm_compute; discriminate.
Qed.

(** C5, amended. The unit landed cost is the landed cost divided by
    [qty || 1]: by the quantity when it is neither zero nor NaN, and by 1
    otherwise.  From 1 upwards that quantity is also
    [Math.max(quantity, 1)]. *)
Theorem unitLanded_divisor (c : Config) (total : float) :
  landedInclVAT c = JS.Return total ->
  unitLanded c = JS.Return (total / (if JS.truthy (qty c) then qty c else 1)) /\
  ((1 <=? qty c) = true ->
   unitLanded c = JS.Return (total / qty c) /\ JS.Math_max [qty c; 1] = qty c) /\
  (PrimFloat.is_zero (qty c) = true \/ is_nan (qty c) = true ->
   unitLanded c = JS.Return (total / 1)).
Proof.
  intros H. unfold unitLanded. rewrite H. cbn [mbind completion_bind JS.bind].
  unfold JS.or_else. split; [reflexivity|]. split.
  - intros Hq. rewrite (F64.ge_1_truthy _ Hq). split; [reflexivity|].
    now apply F64.Math_max_ge_1.
  - intros Hq. unfold JS.truthy. destruct Hq as [-> | ->];
      rewrite ?orb_true_r; reflexivity.
Qed.

Lemma unitLanded_divisor_witness :
  unitLanded initial = JS.Return (28584.62 / 100) /\
  (exists total,
     landedInclVAT (setQty 0 initial) = JS.Return total /\
     unitLanded (setQty 0 initial) = JS.Return (total / 1)).
Proof.
  split.
  - destruct (unitLanded_divisor initial 28584.62) as (_ & H & _); [reflexivity|].
    destruct H as [H _]; [reflexivity|exact H].
  - eexists. split; [vm_compute; reflexivity|].
    eapply unitLanded_divisor; [vm_compute; reflexivity|]. left. reflexivity.
Defined.

(** C6. With recoverable VAT the landed cost including VAT is the landed
    cost excluding VAT plus zero, the same Number (identical unless it is
    [-0], which becomes [+0]); with non-recoverable VAT it is the landed cost
    excluding VAT plus the VAT amount.  The toggle changes neither the landed
    cost excluding VAT nor the VAT amount. *)
Theorem landedInclVAT_vat_recoverable (c : Config) (ex vat : float) :
  landedExVAT c = JS.Return ex ->
  vatEUR c = JS.Return vat ->
  (vatRecoverable c = true ->
   landedInclVAT c = JS.Return (ex + 0) /\
   JS.same_value_zero (ex + 0) ex = true /\
   (ex <> neg_zero -> landedInclVAT c = JS.Return ex)) /\
  (vatRecoverable c = false -> landedInclVAT c = JS.Return (ex + vat)) /\
  (forall b, landedExVAT (setVatRecoverable b c) = JS.Return ex /\
             vatEUR (setVatRecoverable b c) = JS.Return vat) /\
  landedInclVAT (setVatRecoverable true c) = JS.Return (ex + 0) /\
  landedInclVAT (setVatRecoverable false c) = JS.Return (ex + vat).
Proof.
  intros Hex Hvat.
  assert (Hset : forall b, landedExVAT (setVatRecoverable b c) = JS.Return ex /\
                           vatEUR (setVatRecoverable b c) = JS.Return vat)
    by (intros b; split; [exact Hex|exact Hvat]).
  split; [|split; [|split; [exact Hset|split]]].
  - intros Hr. unfold landedInclVAT. rewrite Hex, Hvat, Hr.
    split; [reflexivity|]. split; [apply F64.add_zero_r|].
    intros Hnz. cbn [mbind completion_bind JS.bind].
    rewrite (F64.add_zero_r_exact ex Hnz). reflexivity.
  - intros Hr. unfold landedInclVAT. rewrite Hex, Hvat, Hr. reflexivity.
  - unfold landedInclVAT. destruct (Hset true) as [-> ->]. reflexivity.
  - unfold landedInclVAT. destruct (Hset false) as [-> ->]. reflexivity.
Qed.

Lemma landedInclVAT_vat_recoverable_witness :
  landedInclVAT initial = JS.Return 28584.62 /\
  (exists vat,
     vatEUR initial = JS.Return vat /\
     landedInclVAT (setVatRecoverable false initial) = JS.Return (28584.62 + vat)).
Proof.
  split.
  - destruct (landedInclVAT_vat_recoverable initial 28584.62 (28584.62 * (23 / 100)))
      as (Hrec & _); [reflexivity|reflexivity|].
    destruct (Hrec eq_refl) as (_ & _ & H). apply H.
    apply float_neq. vm_compute. discriminate.
  - eexists. split; [vm_compute; reflexivity|].
    eapply landedInclVAT_vat_recoverable; [reflexivity|vm_compute; reflexivity].
Defined.

(** * Duty *)

(** C7, counterexample. With duty ignored, a unit price of 1e308 makes the
    goods value overflow to [Infinity]; the customs base is [Infinity] and
    the duty, [Infinity * 0], is NaN and not zero.  With duty not ignored
    and origin tariffs enabled, the product origin "toString" has no entry
    in the origin table, yet the rate read is the inherited function and not
    the 4.5 of the "Outro" entry, and the duty is NaN. *)
Lemma ignoreDuty_duty_nan :
  (ignoreDuty (setUnitPrice 1e308 initial) = true /\
   customsBase (setUnitPrice 1e308 initial) = JS.Return infinity /\
   dutyEUR (setUnitPrice 1e308 initial) = JS.Return nan /\
   PrimFloat.is_zero nan = false) /\
  (originDutyMap
     (setIgnoreDuty false (setOriginTariffEnabled true
        (setProductOrigin "toString" (onOriginDutyChange "Outro" 4.5 initial))))
   !! "toString" = None /\
   originDutyMap
     (setIgnoreDuty false (setOriginTariffEnabled true
        (setProductOrigin "toString" (onOriginDutyChange "Outro" 4.5 initial))))
   !! "Outro" = Some 4.5 /\
   effectiveDutyPct
     (setIgnoreDuty false (setOriginTariffEnabled true
        (setProductOrigin "toString" (onOriginDutyChange "Outro" 4.5 initial))))
   = JS.Inherited /\
   effectiveDutyPct
     (setIgnoreDuty false (setOriginTariffEnabled true
        (setProductOrigin "toString" (onOriginDutyChange "Outro" 4.5 initial))))
   <> JS.Number 4.5 /\
   dutyEUR
     (setIgnoreDuty false (setOriginTariffEnabled true
        (setProductOrigin "toString" (onOriginDutyChange "Outro" 4.5 initial))))
   = JS.Return nan).
Proof.
  split; [repeat split; reflexivity|].
  split; [reflexivity|]. split; [reflexivity|]. split; [reflexivity|].
  split; [|reflexivity]. intros H. vm_compute in H. discriminate H.
Qed.

(** C7, amended. With duty ignored the effective duty rate is 0 and the
    duty is the customs base times zero, whatever the manual percentage, the
    origin toggle, the product origin and the origin table are: a zero
    whenever the customs base is finite.  With duty not ignored the effective
    rate is, when origin tariffs are enabled, the origin-table entry of the
    product origin, and for a product origin without an entry that is not
    the name of a member of [Object.prototype], the entry of "Outro", else
    0; it is the manual percentage when origin tariffs are disabled.  The
    sensitivity loop uses the same rate. *)
Theorem effectiveDutyPct_ignoreDuty (c : Config) :
  (ignoreDuty c = true ->
   effectiveDutyPct c = JS.Number 0 /\
   (forall cb, customsBase c = JS.Return cb ->
      dutyEUR c = JS.Return (cb * 0) /\
      (JS.isFinite cb = true -> PrimFloat.is_zero (cb * 0) = true)) /\
   (forall pct enabled origin table,
      dutyEUR (setDutyPct pct (setOriginTariffEnabled enabled
                 (setProductOrigin origin (setOriginDutyMap table c))))
      = dutyEUR c)) /\
  (ignoreDuty c = false ->
   (originTariffEnabled c = true ->
    (forall r, originDutyMap c !! productOrigin c = Some r ->
       effectiveDutyPct c = JS.Number r) /\
    (originDutyMap c !! productOrigin c = None ->
     productOrigin c ∉ JS.Object_prototype ->
     effectiveDutyPct c =
     JS.Number match originDutyMap c !! "Outro" with Some r => r | None => 0 end)) /\
   (originTariffEnabled c = false -> effectiveDutyPct c = JS.Number (dutyPct c))) /\
  (forall cb, customsBase c = JS.Return cb ->
     dutyEUR c = JS.Return (cb * (JS.ToNumber (effectiveDutyPct c) / 100))) /\
  sens_dutyRate c = effectiveDutyPct c.
Proof.
  split; [|split; [|split; [|reflexivity]]].
  - intros Hi. split; [unfold effectiveDutyPct; rewrite Hi; reflexivity|]. split.
    + intros cb Hcb. unfold dutyEUR, effectiveDutyPct. rewrite Hcb, Hi.
      split; [reflexivity|]. apply F64.mul_zero_r.
    + intros pct enabled origin table.
      unfold dutyEUR, effectiveDutyPct. cbn [ignoreDuty setDutyPct setOriginTariffEnabled
        setProductOrigin setOriginDutyMap]. rewrite Hi. reflexivity.
  - intros Hi. unfold effectiveDutyPct, dutyRateFromOrigin, originDutyRate. rewrite Hi.
    split; intros ->; [|reflexivity]. split.
    + intros r Hr. unfold JS.get at 1. rewrite Hr. reflexivity.
    + intros Hnone Hproto. unfold JS.get. rewrite Hnone.
      rewrite (bool_decide_eq_false_2 _ Hproto).
      change (bool_decide ("Outro" ∈ JS.Object_prototype)) with false.
      destruct (originDutyMap c !! "Outro"); reflexivity.
  - intros cb Hcb. unfold dutyEUR. rewrite Hcb. reflexivity.
Qed.

Lemma effectiveDutyPct_ignoreDuty_witness :
  dutyEUR initial = JS.Return (28264.62 * 0) /\
  effectiveDutyPct
    (setIgnoreDuty false (setOriginTariffEnabled true
       (setProductOrigin "Japan" (setOriginDutyMap {[ "Outro" := 4.5 ]} initial))))
  = JS.Number 4.5.
Proof.
  destruct (effectiveDutyPct_ignoreDuty initial) as (Hign & _).
  destruct (Hign eq_refl) as (_ & Hduty & _).
  destruct (Hduty 28264.62) as [H _]; [reflexivity|].
  split; [exact H|].
  destruct (effectiveDutyPct_ignoreDuty
              (setIgnoreDuty false (setOriginTariffEnabled true
                 (setProductOrigin "Japan" (setOriginDutyMap {[ "Outro" := 4.5 ]} initial)))))
    as (_ & Hnot & _).
  destruct (Hnot eq_refl) as [H' _]. destruct (H' eq_refl) as [_ Hout].
  apply Hout; [reflexivity|]. refine (bool_decide_eq_false_1 _ _). reflexivity.
Defined.

(** * Goods value *)

(** C9, counterexample. The supplier currency "toString" has no entry in
    the FX table, yet the rate read is the inherited function and not 1: the
    goods value is NaN, not unit price times quantity, in the main pipeline
    and in the sensitivity loop. *)
Lemma goodsEUR_inherited_currency :
  fx (setSupplierCurrency "toString" initial) !! "toString" = None /\
  fxRate (setSupplierCurrency "toString" initial) = JS.Inherited /\
  goodsEUR (setSupplierCurrency "toString" initial) = nan /\
  goodsEUR (setSupplierCurrency "toString" initial) <> 300 * 100 /\
  sens_goods (setSupplierCurrency "toString" initial) 10 = nan /\
  sens_goods (setSupplierCurrency "toString" initial) 10 <> 300 * 10.
Proof.
  repeat split; try reflexivity; apply float_neq; vm_compute; discriminate.
Qed.

(** C9, amended. When the supplier currency has no entry in the FX table
    and is not the name of a member of [Object.prototype], the rate is 1 and
    the goods value is exactly unit price times quantity, in the main
    pipeline and in the sensitivity loop; with an entry it is that product
    times the entry. *)
Theorem goodsEUR_missing_currency (c : Config) :
  (fx c !! supplierCurrency c = None ->
   supplierCurrency c ∉ JS.Object_prototype ->
   fxRate c = JS.Number 1 /\
   goodsEUR c = unitPrice c * qty c /\
   (forall q, sens_goods c q = unitPrice c * q)) /\
  (forall r, fx c !! supplierCurrency c = Some r ->
     fxRate c = JS.Number r /\
     goodsEUR c = unitPrice c * qty c * r /\
     (forall q, sens_goods c q = unitPrice c * q * r)).
Proof.
  split.
  - intros H Hproto. unfold goodsEUR, sens_goods, fxRate, JS.get. rewrite H.
    rewrite (bool_decide_eq_false_2 _ Hproto). cbn [JS.coalesce JS.ToNumber].
    repeat split; intros; apply F64.mul_one_r.
  - intros r H. unfold goodsEUR, sens_goods, fxRate, JS.get. rewrite H.
    repeat split; reflexivity.
Qed.

Lemma goodsEUR_missing_currency_witness :
  goodsEUR (setSupplierCurrency "JPY" initial) = 300 * 100 /\
  goodsEUR initial = 300 * 100 * 0.92.
Proof.
  split.
  - destruct (goodsEUR_missing_currency (setSupplierCurrency "JPY" initial)) as (H & _).
    destruct H as (_ & Hg & _); [reflexivity| |exact Hg].
    refine (bool_decide_eq_false_1 _ _). reflexivity.
  - destruct (goodsEUR_missing_currency initial) as (_ & H).
    destruct (H 0.92 eq_refl) as (_ & Hg & _). exact Hg.
Defined.

(** * The shipment origin *)

Lemma map_value_filter (P : float -> bool) (l : list Slice) :
  map value (List.filter (fun x => P (value x)) l) = List.filter P (map value l).
Proof.
  induction l as [|a l IH]; [reflexivity|].
  simpl. destruct (P (value a)); simpl; rewrite IH; reflexivity.
Qed.

(** C10. Two states that differ only in the shipment origin have the same
    freight (cost and basis label) at every quantity, the same goods value,
    insurance, customs base, duty, VAT base and amount, landed costs, unit
    landed cost and sensitivity curve, and cost slices of the same values:
    the shipment origin reaches only the name of the freight slice. *)
Theorem shipOrigin_noninterference (c : Config) (s1 s2 : string) :
  let c1 := setShipOrigin s1 c in
  let c2 := setShipOrigin s2 c in
  (forall q, calcFreight c1 q = calcFreight c2 q) /\
  freight c1 = freight c2 /\
  goodsEUR c1 = goodsEUR c2 /\
  insuranceEUR c1 = insuranceEUR c2 /\
  customsBase c1 = customsBase c2 /\
  effectiveDutyPct c1 = effectiveDutyPct c2 /\
  dutyEUR c1 = dutyEUR c2 /\
  vatBase c1 = vatBase c2 /\
  vatEUR c1 = vatEUR c2 /\
  landedExVAT c1 = landedExVAT c2 /\
  landedInclVAT c1 = landedInclVAT c2 /\
  unitLanded c1 = unitLanded c2 /\
  sensitivityData c1 = sensitivityData c2 /\
  JS.bind (composition c1) (fun l => JS.Return (map value l))
  = JS.bind (composition c2) (fun l => JS.Return (map value l)).
Proof.
  intros c1 c2.
  repeat (split; [reflexivity|]).
  unfold composition.
  change (freight c1) with (freight c); change (freight c2) with (freight c).
  change (insuranceEUR c1) with (insuranceEUR c);
    change (insuranceEUR c2) with (insuranceEUR c).
  change (dutyEUR c1) with (dutyEUR c); change (dutyEUR c2) with (dutyEUR c).
  destruct (freight c) as [fr|]; [|reflexivity].
  destruct (insuranceEUR c) as [ins|]; [|reflexivity].
  destruct (dutyEUR c) as [duty|]; [|reflexivity].
  cbn [mbind completion_bind JS.bind].
  rewrite !(map_value_filter (fun v => 0 <? v)). reflexivity.
Qed.

(** The shipment origin does reach the name of the freight slice. *)
Example composition_names_shipOrigin :
  JS.bind (composition (setShipOrigin "Korea" initial))
          (fun l => JS.Return (map name l))
  = JS.Return ["Mercadoria"; "Frete (Korea)"; "Seguro"; "Despachante";
               "THC/Porto"; "Outras Taxas"].
Proof. reflexivity. Qed.

(** * [Math.max] *)

Lemma SFleb_trans (a b c : spec_float) :
  SFleb a b = true -> SFleb b c = true -> SFleb a c = true.
Proof.
  unfold SFleb.
  destruct a as [[]|[]| |[] ma ea], b as [[]|[]| |[] mb eb], c as [[]|[]| |[] mc ec];
    simpl; try congruence;
    repeat match goal with
    | |- context [Pos.compare_cont Eq ?p ?q] =>
        change (Pos.compare_cont Eq p q) with (p ?= q)%positive
    end;
    destruct (Z.compare_spec ea eb), (Z.compare_spec eb ec), (Z.compare_spec ea ec);
    try congruence; try lia;
    destruct (Pos.compare_spec ma mb), (Pos.compare_spec mb mc), (Pos.compare_spec ma mc);
    simpl; try congruence; try lia.
Qed.

Lemma leb_trans (x y z : float) :
  (x <=? y) = true -> (y <=? z) = true -> (x <=? z) = true.
Proof. rewrite !leb_spec. apply SFleb_trans. Qed.

Lemma leb_not_nan_l (x y : float) : (x <=? y) = true -> is_nan x = false.
Proof.
  rewrite leb_spec. unfold SFleb. intros H. apply F64.is_nan_false. intros Hx.
  rewrite Hx in H. discriminate.
Qed.

Lemma is_nan_eq (x : float) : is_nan x = true <-> x = nan.
Proof.
  split.
  - intros H. apply F64.nan_of_spec. now apply F64.is_nan_spec.
  - intros ->. reflexivity.
Qed.

Lemma max2_upper (a b : float) :
  JS.max2 a b = nan \/ (b <=? JS.max2 a b) = true.
Proof.
  unfold JS.max2.
  destruct (is_nan a) eqn:Ha; [left; reflexivity|].
  destruct (is_nan b) eqn:Hb; [left; reflexivity|]. right. cbn [orb].
  destruct (a <? b) eqn:Hab; [now apply F64.leb_refl|].
  destruct (b <? a) eqn:Hba; [now apply F64.ltb_leb|].
  destruct (get_sign a); [now apply F64.leb_refl|now apply F64.leb_of_not_ltb].
Qed.

(** [Math.max] returns NaN exactly when an argument is NaN, and one of its
    arguments otherwise. *)
Lemma max2_nan_iff (a b : float) :
  JS.max2 a b = nan <-> a = nan \/ b = nan.
Proof.
  rewrite <- !is_nan_eq. unfold JS.max2.
  destruct (is_nan a) eqn:Ha, (is_nan b) eqn:Hb; cbn [orb];
    try (split; [auto | reflexivity]).
  split; [| intros [H | H]; discriminate].
  repeat match goal with |- context [if ?t then _ else _] => destruct t end;
    intros H; rewrite ?Ha, ?Hb in H; discriminate.
Qed.

Lemma max2_choice (a b : float) :
  JS.max2 a b = nan \/ JS.max2 a b = a \/ JS.max2 a b = b.
Proof.
  unfold JS.max2.
  repeat match goal with |- context [if ?t then _ else _] => destruct t end; auto.
Qed.

Lemma max2_neg_infinity (a : float) : JS.max2 neg_infinity a = a.
Proof.
  unfold JS.max2. change (is_nan neg_infinity) with false. cbn [orb].
  destruct (is_nan a) eqn:Ha; [symmetry; now apply is_nan_eq |].
  destruct (neg_infinity <? a) eqn:H1; [reflexivity |].
  change (get_sign neg_infinity) with true.
  destruct (a <? neg_infinity) eqn:H2; [| reflexivity].
  exfalso. revert H2. rewrite ltb_spec. unfold SFltb.
  change (Prim2SF neg_infinity) with (S754_infinity true).
  destruct (Prim2SF a) as [[]|[]| |[] m e]; discriminate.
Qed.

Lemma fold_max2_spec (xs : list float) : forall acc,
  let r := fold_left JS.max2 xs acc in
  (r = nan <-> acc = nan \/ nan ∈ xs) /\
  (r = nan \/ ((acc <=? r) = true /\ forall x, x ∈ xs -> (x <=? r) = true)) /\
  (r = nan \/ r = acc \/ r ∈ xs).
Proof.
  induction xs as [| x xs IH]; intros acc; cbn [fold_left].
  - split; [| split].
    + rewrite elem_of_nil. tauto.
    + destruct (is_nan acc) eqn:Ha; [left; now apply is_nan_eq | right].
      split; [now apply F64.leb_refl |]. intros x Hx. inversion Hx.
    + auto.
  - destruct (IH (JS.max2 acc x)) as (Hnan & Hle & Hch). cbn zeta in *.
    set (r := fold_left JS.max2 xs (JS.max2 acc x)) in *.
    split; [| split].
    + rewrite Hnan, max2_nan_iff, elem_of_cons.
      split; [intros [[H | H] | H] | intros [H | [H | H]]]; auto.
    + destruct Hle as [Hr | [Hacc Hxs]]; [now left | right].
      assert (Hm : JS.max2 acc x <> nan).
      { intros E. rewrite E in Hacc. apply leb_not_nan_l in Hacc. discriminate. }
      split.
      * destruct (F64.max2_lower acc x) as [E | E]; [contradiction |].
        exact (leb_trans _ _ _ E Hacc).
      * intros y Hy. apply elem_of_cons in Hy as [-> | Hy]; [| now apply Hxs].
        destruct (max2_upper acc x) as [E | E]; [contradiction |].
        exact (leb_trans _ _ _ E Hacc).
    + destruct Hch as [H | [H | H]]; [now left | | right; right; now constructor].
      destruct (max2_choice acc x) as [E | [E | E]]; rewrite E in H; auto.
      right. right. rewrite H. constructor.
Qed.

(** [Math.max] of a non-empty argument list. *)
Lemma Math_max_spec (x : float) (xs : list float) :
  let r := JS.Math_max (x :: xs) in
  (r = nan <-> nan ∈ x :: xs) /\
  (r = nan \/ forall y, y ∈ x :: xs -> (y <=? r) = true) /\
  r ∈ x :: xs.
Proof.
  unfold JS.Math_max. cbn [fold_left]. rewrite max2_neg_infinity.
  destruct (fold_max2_spec xs x) as (Hnan & Hle & Hch). cbn zeta in *.
  set (r := fold_left JS.max2 xs x) in *.
  split; [| split].
  - rewrite Hnan, elem_of_cons. split; intros [H | H]; auto.
  - destruct Hle as [H | [Hx Hxs]]; [now left | right].
    intros y Hy. apply elem_of_cons in Hy as [-> | Hy]; auto.
  - destruct Hch as [H | [H | H]].
    + rewrite H. apply Hnan in H. apply elem_of_cons.
      destruct H as [H | H]; auto.
    + rewrite H. constructor.
    + now constructor.
Qed.

(** * The states reachable through the form *)

Lemma leb_infinity (x : float) : is_nan x = false -> (x <=? infinity) = true.
Proof.
  intros Hx. apply F64.is_nan_false in Hx.
  rewrite leb_spec. unfold SFleb.
  change (Prim2SF infinity) with (S754_infinity false).
  destruct (Prim2SF x) as [s | s | | s m e]; try congruence; destruct s; reflexivity.
Qed.

Lemma editable_from_length (tiers0 tiers : list Tier) :
  editable_from tiers0 tiers -> length tiers = length tiers0.
Proof.
  intros H. apply editable_from_thresholds in H.
  apply (f_equal (@length float)) in H. now rewrite !length_map in H.
Qed.

(** On a table that the editor can produce, every Number other than NaN
    falls into a tier: the last threshold is [Infinity]. *)
Lemma editable_tierRate_finds (tiers : list Tier) (x : float) :
  editable_from DEFAULT_AIR_TIERS tiers \/ editable_from DEFAULT_LCL_TIERS tiers ->
  is_nan x = false ->
  exists pre t post,
    tiers = pre ++ t :: post /\ (x <=? threshold t) = true /\
    (forall u, u ∈ pre -> (x <=? threshold u) = false) /\
    tierRate tiers x = JS.Return (rate t).
Proof.
  intros Hed Hx.
  pose proof (editable_tiers_invariant tiers Hed) as (_ & _ & tl & Hlast & Htl).
  unfold tierRate.
  destruct (find (fun t => x <=? threshold t) tiers) as [t |] eqn:Hfind.
  - destruct (find_split x tiers t Hfind) as (pre & post & Heq & Ht & Hpre).
    exists pre, t, post. auto.
  - exfalso.
    assert (Hin : tl ∈ tiers).
    { apply last_Some in Hlast as [l' ->]. apply elem_of_app. right. constructor. }
    pose proof (find_none_all x tiers Hfind tl Hin) as Hno.
    rewrite Htl, leb_infinity in Hno by exact Hx. discriminate.
Qed.

Lemma Math_max_1_lower (v : float) :
  JS.Math_max [1; v] = nan \/ (1 <=? JS.Math_max [1; v]) = true.
Proof.
  unfold JS.Math_max. cbn [fold_left].
  change (JS.max2 neg_infinity 1) with 1.
  apply F64.max2_lower.
Qed.

Lemma initial_invariant : form_invariant initial.
Proof.
  unfold form_invariant. cbn.
  repeat split; try (apply editable_initial); try set_solver.
Qed.

Lemma dom_insert_existing (m : gmap string float) (k : string) (v : float) :
  is_Some (m !! k) -> dom (<[k := v]> m) = dom m.
Proof.
  intros Hk. rewrite dom_insert_L.
  apply elem_of_dom in Hk.
  apply subseteq_union_1_L, singleton_subseteq_l, Hk.
Qed.

Lemma handle_invariant (c : Config) (e : Event) :
  form_invariant c -> enabled c e = true -> form_invariant (handle e c).
Proof.
  unfold form_invariant.
  intros (Hm & Hi & Hp & Hs & Hfx & Hcur & Hod & Hair & Hlcl & Hq) Hen.
  destruct e; cbn [handle enabled] in Hen |- *;
    repeat match goal with |- _ /\ _ => split end;
    try assumption; try (apply bool_decide_eq_true in Hen; exact Hen);
    try (apply editable_rate; assumption).
  - apply Math_max_1_lower.
  - apply bool_decide_eq_true in Hen. apply elem_of_dom, Hen.
  - apply bool_decide_eq_true in Hen.
    cbn. now rewrite (dom_insert_existing _ _ _ Hen).
  - apply bool_decide_eq_true in Hen.
    cbn. now rewrite (dom_insert_existing _ _ _ Hen).
  - apply andb_true_iff in Hen as [Hen _]. apply bool_decide_eq_true in Hen.
    assert (Hok : is_Some (originDutyMap c !! o)).
    { apply elem_of_dom. rewrite Hod.
      revert Hen. cbn [initial originDutyMap ORIGINS app].
      rewrite !dom_insert_L, !elem_of_cons, !elem_of_union, !elem_of_singleton.
      rewrite dom_singleton_L, elem_of_singleton, elem_of_nil. tauto. }
    cbn. now rewrite (dom_insert_existing _ _ _ Hok).
Qed.

Lemma reachable_invariant (c : Config) : reachable c -> form_invariant c.
Proof.
  induction 1 as [| c e _ IH Hen].
  - apply initial_invariant.
  - now apply handle_invariant.
Qed.

(** * When the calculation throws *)

Lemma tierRate_throws_iff (tiers : list Tier) (x : float) :
  tierRate tiers x = JS.TypeError <-> tiers = [].
Proof.
  split.
  - intros H. destruct tiers as [| t tiers]; [reflexivity |].
    destruct (tierRate_total (t :: tiers) x) as [r Hr]; congruence.
  - intros ->. reflexivity.
Qed.

(** What makes [calcFreight] throw, as a test on the state. *)
Lemma calcFreight_throws_iff (c : Config) (q : float) :
  calcFreight c q = JS.TypeError <->
  (airPanel c = true /\ airTiers c = []) \/
  (airPanel c = false /\ mode c = "Marítimo LCL" /\ lclTiers c = []).
Proof.
  unfold calcFreight, airPanel.
  destruct ((mode c =? "Aéreo Express")%string || (mode c =? "Aéreo (Carga)")%string).
  - match goal with |- context [tierRate ?ts ?x] =>
      pose proof (tierRate_throws_iff ts x) as Hiff;
      destruct (tierRate ts x) as [r |] end; cbn.
    + split; [discriminate |].
      intros [[_ H] | [H _]]; [| discriminate]. apply Hiff in H. discriminate.
    + split; [| reflexivity]. intros _. left. split; [reflexivity | now apply Hiff].
  - destruct (String.eqb_spec (mode c) "Marítimo LCL") as [Hm | Hm].
    + match goal with |- context [tierRate ?ts ?x] =>
        pose proof (tierRate_throws_iff ts x) as Hiff;
        destruct (tierRate ts x) as [r |] end; cbn.
      * split; [discriminate |].
        intros [[H _] | (_ & _ & H)]; [discriminate |]. apply Hiff in H. discriminate.
      * split; [| reflexivity]. intros _. right. repeat split; [assumption | now apply Hiff].
    + repeat match goal with |- context [if ?b then _ else _] => destruct b end;
        (split; [discriminate | intros [[H _] | (_ & H & _)]; [discriminate | contradiction]]).
Qed.

Lemma calcFreight_throws_any_q (c : Config) (q q' : float) :
  calcFreight c q = JS.TypeError -> calcFreight c q' = JS.TypeError.
Proof. intros H. apply calcFreight_throws_iff. now apply calcFreight_throws_iff in H. Qed.

Lemma calcFreight_returns_any_q (c : Config) (q q' : float) (fr : Freight) :
  calcFreight c q = JS.Return fr -> exists fr', calcFreight c q' = JS.Return fr'.
Proof.
  intros H. destruct (calcFreight c q') as [fr' |] eqn:E; [eauto |].
  apply (calcFreight_throws_any_q c q' q) in E. congruence.
Qed.

(** Once the freight is known, every derived value is. *)
Lemma pipeline_returns (c : Config) (fr : Freight) :
  freight c = JS.Return fr ->
  exists ins cb duty vb vat ex total u slices,
    insuranceEUR c = JS.Return ins /\ customsBase c = JS.Return cb /\
    dutyEUR c = JS.Return duty /\ vatBase c = JS.Return vb /\
    vatEUR c = JS.Return vat /\ landedExVAT c = JS.Return ex /\
    landedInclVAT c = JS.Return total /\ unitLanded c = JS.Return u /\
    composition c = JS.Return slices.
Proof.
  intros Hfr.
  unfold unitLanded, landedInclVAT, composition, landedExVAT, vatEUR, vatBase, dutyEUR,
    customsBase, insuranceEUR.
  rewrite Hfr. cbn. repeat eexists.
Qed.

Lemma pipeline_throws (c : Config) :
  freight c = JS.TypeError ->
  insuranceEUR c = JS.TypeError /\ customsBase c = JS.TypeError /\
  dutyEUR c = JS.TypeError /\ vatBase c = JS.TypeError /\
  vatEUR c = JS.TypeError /\ landedExVAT c = JS.TypeError /\
  landedInclVAT c = JS.TypeError /\ unitLanded c = JS.TypeError /\
  composition c = JS.TypeError.
Proof.
  intros Hfr.
  unfold unitLanded, landedInclVAT, composition, landedExVAT, vatEUR, vatBase, dutyEUR,
    customsBase, insuranceEUR.
  rewrite Hfr. cbn. repeat split.
Qed.

Lemma traverse_returns {A B : Type} (f : A -> JS.completion B) (l : list A) :
  (forall a, a ∈ l -> exists b, f a = JS.Return b) ->
  exists bs, JS.traverse f l = JS.Return bs /\ length bs = length l.
Proof.
  induction l as [| a l IH]; intros H; cbn.
  - exists []. split; reflexivity.
  - destruct (H a) as [b Hb]; [constructor |]. rewrite Hb. cbn.
    destruct IH as (bs & Hbs & Hlen).
    { intros a' Ha'. apply H. now constructor. }
    rewrite Hbs. cbn. exists (b :: bs). split; [reflexivity | cbn; now rewrite Hlen].
Qed.

Lemma samplePoint_returns (c : Config) (q : float) (fr : Freight) :
  calcFreight c q = JS.Return fr -> exists p, samplePoint c q = JS.Return p.
Proof. intros H. unfold samplePoint. rewrite H. cbn. eauto. Qed.

Lemma sensitivityData_returns (c : Config) (fr : Freight) :
  freight c = JS.Return fr ->
  exists points, sensitivityData c = JS.Return points /\ length points = 41%nat.
Proof.
  intros Hfr. unfold sensitivityData.
  destruct (traverse_returns (fun i => samplePoint c (sampleQty c i)) sampleIndices)
    as (bs & Hbs & Hlen).
  - intros i _.
    destruct (calcFreight_returns_any_q c (qty c) (sampleQty c i) fr Hfr) as [fr' Hfr'].
    now apply samplePoint_returns with fr'.
  - exists bs. split; [exact Hbs |]. rewrite Hlen. reflexivity.
Qed.

Lemma sensitivityData_throws (c : Config) :
  freight c = JS.TypeError -> sensitivityData c = JS.TypeError.
Proof.
  intros Hfr. unfold sensitivityData.
  change sampleIndices with (JS.of_nat 0 :: map JS.of_nat (seq 1 40)).
  cbn [JS.traverse]. unfold samplePoint at 1.
  rewrite (calcFreight_throws_any_q c (qty c) _ Hfr). reflexivity.
Qed.

(** X1. The freight calculation throws exactly when the selected mode is an
    air mode and the air tier table is empty, or the mode is LCL and the LCL
    table is empty, whatever the quantity.  The unit landed cost, the landed
    cost, the cost composition and the sensitivity curve throw in exactly
    the same states; in every other state they all return, the curve with
    41 points. *)
Theorem engine_throws_iff_empty_tier_table (c : Config) :
  let empty_table :=
    (airPanel c = true /\ airTiers c = []) \/
    (airPanel c = false /\ mode c = "Marítimo LCL" /\ lclTiers c = []) in
  (forall q, calcFreight c q = JS.TypeError <-> empty_table) /\
  (unitLanded c = JS.TypeError <-> empty_table) /\
  (landedExVAT c = JS.TypeError <-> empty_table) /\
  (composition c = JS.TypeError <-> empty_table) /\
  (sensitivityData c = JS.TypeError <-> empty_table) /\
  (~ empty_table ->
   exists fr ex total u slices points,
     freight c = JS.Return fr /\ landedExVAT c = JS.Return ex /\
     landedInclVAT c = JS.Return total /\ unitLanded c = JS.Return u /\
     composition c = JS.Return slices /\
     sensitivityData c = JS.Return points /\ length points = 41%nat).
Proof.
  intros empty_table.
  assert (Hfr : freight c = JS.TypeError <-> empty_table)
    by apply calcFreight_throws_iff.
  assert (Hall : forall A (m : JS.completion A),
            (freight c = JS.TypeError -> m = JS.TypeError) ->
            (forall fr, freight c = JS.Return fr -> exists a, m = JS.Return a) ->
            m = JS.TypeError <-> empty_table).
  { intros A m Hthrow Hret. rewrite <- Hfr. split; [| exact Hthrow].
    intros Hm. destruct (freight c) as [fr |] eqn:E; [| reflexivity].
    destruct (Hret fr eq_refl) as [a Ha]. congruence. }
  split; [intros q; apply calcFreight_throws_iff |].
  split; [| split; [| split; [| split]]].
  - apply Hall.
    + intros H. now apply pipeline_throws in H.
    + intros fr H. destruct (pipeline_returns c fr H)
        as (ins & cb & duty & vb & vat & ex & total & u & slices & H'). exists u. tauto.
  - apply Hall.
    + intros H. now apply pipeline_throws in H.
    + intros fr H. destruct (pipeline_returns c fr H)
        as (ins & cb & duty & vb & vat & ex & total & u & slices & H'). exists ex. tauto.
  - apply Hall.
    + intros H. now apply pipeline_throws in H.
    + intros fr H. destruct (pipeline_returns c fr H)
        as (ins & cb & duty & vb & vat & ex & total & u & slices & H'). exists slices. tauto.
  - apply Hall.
    + apply sensitivityData_throws.
    + intros fr H. destruct (sensitivityData_returns c fr H) as (pts & Hp & _). eauto.
  - intros Hne. destruct (freight c) as [fr |] eqn:E.
    + destruct (pipeline_returns c fr E)
        as (ins & cb & duty & vb & vat & ex & total & u & slices & H').
      destruct (sensitivityData_returns c fr E) as (pts & Hp & Hlen).
      exists fr, ex, total, u, slices, pts. tauto.
    + exfalso. apply Hne, Hfr. reflexivity.
Qed.

Lemma calcFreight_known_mode (c : Config) (q : float) (fr : Freight) :
  mode c ∈ MODES -> calcFreight c q = JS.Return fr -> basisLabel fr <> SemBase.
Proof.
  intros Hm. unfold MODES in Hm.
  rewrite !elem_of_cons, elem_of_nil in Hm.
  unfold calcFreight.
  destruct Hm as [Hm | [Hm | [Hm | [Hm | [Hm | []]]]]]; rewrite Hm;
    cbn [String.eqb Ascii.eqb Bool.eqb orb];
    try (destruct (tierRate _ _); cbn; [| discriminate]);
    intros [= <-]; discriminate.
Qed.

Lemma editable_nonempty (tiers : list Tier) :
  editable_from DEFAULT_AIR_TIERS tiers \/ editable_from DEFAULT_LCL_TIERS tiers ->
  tiers <> [].
Proof. intros H. now apply editable_tiers_invariant in H. Qed.

Lemma invariant_returns (c : Config) (q : float) :
  form_invariant c -> exists fr, calcFreight c q = JS.Return fr.
Proof.
  intros (_ & _ & _ & _ & _ & _ & _ & Hair & Hlcl & _).
  destruct (calcFreight c q) as [fr |] eqn:E; [eauto |].
  apply calcFreight_throws_iff in E as [[_ E] | (_ & _ & E)]; exfalso.
  - revert E. apply editable_nonempty. now left.
  - revert E. apply editable_nonempty. now right.
Qed.

(** X2. In every state that a sequence of form events reaches from the
    initial state, the freight calculation returns at every quantity, with a
    pricing basis (the branch of an unknown mode is never taken), and the
    landed costs, the unit landed cost, the cost composition and the 41
    points of the sensitivity curve all return. *)
Theorem reachable_never_throws (c : Config) :
  reachable c ->
  (forall q, exists fr, calcFreight c q = JS.Return fr /\ basisLabel fr <> SemBase) /\
  exists fr ex total u slices points,
    freight c = JS.Return fr /\ landedExVAT c = JS.Return ex /\
    landedInclVAT c = JS.Return total /\ unitLanded c = JS.Return u /\
    composition c = JS.Return slices /\
    sensitivityData c = JS.Return points /\ length points = 41%nat.
Proof.
  intros Hr. apply reachable_invariant in Hr.
  split.
  - intros q. destruct (invariant_returns c q Hr) as [fr Hfr].
    exists fr. split; [exact Hfr |].
    apply (calcFreight_known_mode c q); [apply Hr | exact Hfr].
  - destruct (invariant_returns c (qty c) Hr) as [fr Hfr].
    destruct (pipeline_returns c fr Hfr)
      as (ins & cb & duty & vb & vat & ex & total & u & slices & H').
    destruct (sensitivityData_returns c fr Hfr) as (pts & Hp & Hlen).
    exists fr, ex, total, u, slices, pts. tauto.
Qed.

Lemma reachable_never_throws_witness :
  exists u,
    unitLanded
      (handle (InputLclTierRate 3 95)
         (handle (SelectMode "Marítimo LCL") (handle (InputQty 0) initial)))
    = JS.Return u.
Proof.
  destruct (reachable_never_throws
              (handle (InputLclTierRate 3 95)
                 (handle (SelectMode "Marítimo LCL") (handle (InputQty 0) initial))))
    as (_ & fr & ex & total & u & slices & points & _ & _ & _ & Hu & _).
  - repeat (apply reachable_event; [| reflexivity]). apply reachable_initial.
  - exists u. exact Hu.
Defined.

(** X3. In every reachable state the exchange table and the origin duty
    table have the keys they start with, and the supplier currency and the
    product origin are own keys of their tables.  So [fx[supplierCurrency]],
    [originDutyMap[productOrigin]] and the [originDutyMap[o]] shown by the
    form read the stored Number: neither a [??] default nor an inherited
    member is ever read, and the effective duty rate is a Number. *)
Theorem reachable_lookups_defined (c : Config) :
  reachable c ->
  dom (fx c) = dom DEFAULT_FX /\
  dom (originDutyMap c) = dom (originDutyMap initial) /\
  (exists r, fx c !! supplierCurrency c = Some r /\ fxRate c = JS.Number r /\
             goodsEUR c = unitPrice c * qty c * r) /\
  (exists r, originDutyMap c !! productOrigin c = Some r /\
             originDutyRate c = JS.Number r) /\
  (exists r, effectiveDutyPct c = JS.Number r /\ sens_dutyRate c = JS.Number r) /\
  (forall o, o ∈ ORIGINS ++ ["Outro"] ->
     exists r, originDutyMap c !! o = Some r /\ originDutyShown o c = JS.Number r).
Proof.
  intros Hr. apply reachable_invariant in Hr.
  destruct Hr as (_ & _ & Hp & _ & Hfx & Hcur & Hod & _).
  assert (Horig : forall o, o ∈ ORIGINS ++ ["Outro"] -> is_Some (originDutyMap c !! o)).
  { intros o Ho. apply elem_of_dom. rewrite Hod.
    revert Ho. cbn [initial originDutyMap ORIGINS app].
    rewrite !dom_insert_L, !elem_of_cons, !elem_of_union, !elem_of_singleton.
    rewrite dom_singleton_L, elem_of_singleton, elem_of_nil. tauto. }
  split; [exact Hfx |]. split; [exact Hod |]. split; [| split; [| split]].
  - apply elem_of_dom in Hcur as [r Hcur]. exists r.
    unfold goodsEUR, fxRate, JS.get. rewrite Hcur. auto.
  - destruct (Horig _ Hp) as [r Hr]. exists r.
    unfold originDutyRate, JS.get. rewrite Hr. auto.
  - destruct (Horig _ Hp) as [r Hr].
    change (sens_dutyRate c) with (effectiveDutyPct c).
    assert (E : exists r', effectiveDutyPct c = JS.Number r').
    { unfold effectiveDutyPct, dutyRateFromOrigin, originDutyRate.
      unfold JS.get at 1. rewrite Hr.
      destruct (ignoreDuty c), (originTariffEnabled c); cbn [JS.coalesce]; eauto. }
    destruct E as [r' E]. exists r'. split; exact E.
  - intros o Ho. destruct (Horig o Ho) as [r Hr]. exists r.
    unfold originDutyShown, JS.get. rewrite Hr. auto.
Qed.

Lemma reachable_lookups_defined_witness :
  fxRate
    (handle (InputFx "CNY" 0.13) (handle (SelectSupplierCurrency "CNY") initial))
  = JS.Number 0.13.
Proof.
  destruct (reachable_lookups_defined
              (handle (InputFx "CNY" 0.13)
                 (handle (SelectSupplierCurrency "CNY") initial)))
    as (_ & _ & (r & Hr & Hrate & _) & _).
  - repeat (apply reachable_event; [| reflexivity]). apply reachable_initial.
  - rewrite Hrate. vm_compute in Hr. now injection Hr as ->.
Defined.

(** X4. In every reachable state the quantity is NaN or at least 1.
    Unless it is NaN the unit landed cost is the landed cost divided by the
    quantity itself, which is then also [Math.max(quantity, 1)]; at NaN it
    is the landed cost divided by 1. *)
Theorem reachable_quantity (c : Config) :
  reachable c ->
  (qty c = nan \/ (1 <=? qty c) = true) /\
  exists total,
    landedInclVAT c = JS.Return total /\
    (is_nan (qty c) = false ->
     unitLanded c = JS.Return (total / qty c) /\ JS.Math_max [qty c; 1] = qty c) /\
    (qty c = nan -> unitLanded c = JS.Return (total / 1)).
Proof.
  intros Hr. apply reachable_invariant in Hr.
  assert (Hq : qty c = nan \/ (1 <=? qty c) = true) by apply Hr.
  split; [exact Hq |].
  destruct (invariant_returns c (qty c) Hr) as [fr Hfr].
  destruct (pipeline_returns c fr Hfr)
    as (ins & cb & duty & vb & vat & ex & total & u & slices & H').
  exists total. split; [tauto |].
  assert (Htot : landedInclVAT c = JS.Return total) by tauto.
  unfold unitLanded. rewrite Htot. cbn [mbind completion_bind JS.bind].
  split.
  - intros Hn. destruct Hq as [Hq | Hq]; [rewrite Hq in Hn; discriminate |].
    rewrite or_else_truthy by (apply F64.ge_1_truthy, Hq).
    split; [reflexivity | now apply F64.Math_max_ge_1].
  - intros ->. reflexivity.
Qed.

Lemma reachable_quantity_witness :
  qty (handle (InputQty 0.5) initial) = 1 /\
  exists total,
    landedInclVAT (handle (InputQty 0.5) initial) = JS.Return total /\
    unitLanded (handle (InputQty 0.5) initial) = JS.Return (total / 1).
Proof.
  split; [reflexivity |].
  destruct (reachable_quantity (handle (InputQty 0.5) initial))
    as (_ & total & Htot & Hunit & _).
  - apply reachable_event; [apply reachable_initial | reflexivity].
  - exists total. split; [exact Htot |]. apply Hunit. reflexivity.
Defined.

(** * The tier editor *)

Lemma onTierRateChange_insert (tiers : list Tier) (idx : nat) (v : float) (t : Tier) :
  tiers !! idx = Some t ->
  onTierRateChange tiers idx v = <[idx := {| threshold := threshold t; rate := v |}]> tiers.
Proof. intros H. unfold onTierRateChange. now rewrite H. Qed.

Lemma find_after_rate_change (x : float) (v : float) (u : Tier) (post : list Tier) :
  (x <=? threshold u) = true ->
  forall (pre : list Tier) (idx : nat) (t : Tier),
    (forall w, w ∈ pre -> (x <=? threshold w) = false) ->
    (pre ++ u :: post) !! idx = Some t ->
    find (fun t => x <=? threshold t)
         (<[idx := {| threshold := threshold t; rate := v |}]> (pre ++ u :: post))
    = Some (if decide (length pre = idx)
            then {| threshold := threshold u; rate := v |} else u).
Proof.
  intros Hu. induction pre as [| a pre IH]; intros idx t Hpre Hidx.
  - destruct idx as [| i]; cbn [app insert list_insert find lookup list_lookup length] in Hidx |- *.
    + injection Hidx as <-. cbn [threshold]. now rewrite Hu.
    + now rewrite Hu.
  - assert (Ha : (x <=? threshold a) = false) by (apply Hpre; constructor).
    destruct idx as [| i]; cbn [app insert list_insert find lookup list_lookup length] in Hidx |- *.
    + injection Hidx as <-. cbn [threshold]. rewrite Ha.
      apply (find_first x _ pre post); auto.
      intros w Hw. apply Hpre. now constructor.
    + rewrite Ha.
      assert (Hpre' : forall w, w ∈ pre -> (x <=? threshold w) = false).
      { intros w Hw. apply Hpre. now constructor. }
      etransitivity; [exact (IH i t Hpre' Hidx) |].
      destruct (decide (length pre = i)), (decide (S (length pre) = S i));
        try reflexivity; lia.
Qed.

(** X6. Editing the rate of the tier at [idx] keeps the length of the
    table and every threshold, replaces the rate of that tier and changes no
    other tier; a second edit of the same tier overrides the first.  A
    lookup that finds its tier at position [k] gives the new rate when
    [k = idx] and the unchanged rate of that tier otherwise, and likewise
    when it falls back to the last tier. *)
Theorem onTierRateChange_lookup (tiers : list Tier) (idx : nat) (v : float) (t : Tier) :
  tiers !! idx = Some t ->
  let tiers' := onTierRateChange tiers idx v in
  length tiers' = length tiers /\
  map threshold tiers' = map threshold tiers /\
  tiers' !! idx = Some {| threshold := threshold t; rate := v |} /\
  (forall j, j <> idx -> tiers' !! j = tiers !! j) /\
  (forall w, onTierRateChange tiers' idx w = onTierRateChange tiers idx w) /\
  (forall x pre u post,
     tiers = pre ++ u :: post ->
     (x <=? threshold u) = true ->
     (forall w, w ∈ pre -> (x <=? threshold w) = false) ->
     tierRate tiers x = JS.Return (rate u) /\
     tierRate tiers' x = JS.Return (if decide (length pre = idx) then v else rate u)) /\
  (forall x tl,
     last tiers = Some tl ->
     (forall w, w ∈ tiers -> (x <=? threshold w) = false) ->
     tierRate tiers x = JS.Return (rate tl) /\
     tierRate tiers' x
     = JS.Return (if decide (idx = pred (length tiers)) then v else rate tl)).
Proof.
  intros Hidx tiers'.
  assert (Hlt : (idx < length tiers)%nat) by (eapply lookup_lt_Some; eauto).
  assert (Heq : tiers' = <[idx := {| threshold := threshold t; rate := v |}]> tiers)
    by (now apply onTierRateChange_insert).
  split; [rewrite Heq; apply length_insert |].
  split; [apply onTierRateChange_thresholds |].
  split; [rewrite Heq; now apply list_lookup_insert_eq |].
  split; [intros j Hj; rewrite Heq; now apply list_lookup_insert_ne |].
  split; [| split].
  - intros w. rewrite Heq.
    rewrite (onTierRateChange_insert _ idx w {| threshold := threshold t; rate := v |})
      by (now apply list_lookup_insert_eq).
    rewrite (onTierRateChange_insert _ idx w t) by exact Hidx.
    cbn [threshold]. apply list_insert_insert_eq.
  - intros x pre u post Htiers Hu Hpre. split.
    + unfold tierRate. now rewrite (find_first x tiers pre post u).
    + rewrite Heq. unfold tierRate. subst tiers.
      rewrite (find_after_rate_change x v u post Hu pre idx t Hpre Hidx).
      now destruct (decide (length pre = idx)).
  - intros x tl Hlast Hall. split; [now apply tierRate_fallback |].
    assert (Hall' : forall w, w ∈ tiers' -> (x <=? threshold w) = false).
    { intros w Hw. rewrite Heq in Hw. apply list_elem_of_lookup in Hw as [j Hj].
      apply list_lookup_insert_Some in Hj as [(_ & <- & _) | (_ & Hj)].
      - cbn. apply Hall. eapply list_elem_of_lookup_2; eauto.
      - apply Hall. eapply list_elem_of_lookup_2; eauto. }
    assert (Hlast' : last tiers' =
              Some (if decide (idx = pred (length tiers))
                    then {| threshold := threshold t; rate := v |} else tl)).
    { rewrite last_lookup, Heq, length_insert.
      destruct (decide (idx = pred (length tiers))) as [<- | Hne].
      - now apply list_lookup_insert_eq.
      - rewrite list_lookup_insert_ne by exact Hne. now rewrite <- last_lookup. }
    rewrite (tierRate_fallback tiers' x _ Hlast' Hall').
    now destruct (decide (idx = pred (length tiers))).
Qed.

Lemma onTierRateChange_lookup_witness :
  tierRate (onTierRateChange DEFAULT_AIR_TIERS 1 5.5) 80 = JS.Return 5.5 /\
  tierRate (onTierRateChange DEFAULT_AIR_TIERS 1 5.5) 30 = JS.Return 6.5.
Proof.
  pose proof (onTierRateChange_lookup DEFAULT_AIR_TIERS 1 5.5
                {| threshold := 100; rate := 5.8 |} eq_refl)
    as (_ & _ & _ & _ & _ & Hfind & _).
  split.
  - destruct (Hfind 80 [ {| threshold := 45; rate := 6.5 |} ]
                {| threshold := 100; rate := 5.8 |}
                (skipn 2 DEFAULT_AIR_TIERS) eq_refl eq_refl) as [_ H]; [| exact H].
    intros w Hw. apply list_elem_of_singleton in Hw as ->. reflexivity.
  - destruct (Hfind 30 [] {| threshold := 45; rate := 6.5 |}
                (skipn 1 DEFAULT_AIR_TIERS) eq_refl eq_refl) as [_ H]; [| exact H].
    intros w Hw. inversion Hw.
Defined.

(** X5. On every table that the tier editor can produce from a default
    table the thresholds are those of the default.  Every quantity other
    than NaN falls into a tier, and is charged the rate of the first tier
    whose threshold it does not exceed; the fallback to the last tier, whose
    threshold is [Infinity], is taken for NaN only. *)
Theorem editable_tiers_lookup (tiers0 tiers : list Tier) :
  tiers0 = DEFAULT_AIR_TIERS \/ tiers0 = DEFAULT_LCL_TIERS ->
  editable_from tiers0 tiers ->
  length tiers = length tiers0 /\
  map threshold tiers = map threshold tiers0 /\
  (forall x, is_nan x = false ->
     exists pre t post,
       tiers = pre ++ t :: post /\ (x <=? threshold t) = true /\
       (forall u, u ∈ pre -> (x <=? threshold u) = false) /\
       tierRate tiers x = JS.Return (rate t)) /\
  (exists t, last tiers = Some t /\ threshold t = infinity /\
             tierRate tiers nan = JS.Return (rate t)).
Proof.
  intros H0 Hed.
  assert (Hed' : editable_from DEFAULT_AIR_TIERS tiers \/
                 editable_from DEFAULT_LCL_TIERS tiers).
  { destruct H0 as [-> | ->]; [now left | now right]. }
  split; [now apply editable_from_length |].
  split; [now apply editable_from_thresholds |].
  split; [intros x Hx; now apply editable_tierRate_finds |].
  pose proof (editable_tiers_invariant tiers Hed') as (_ & _ & tl & Hlast & Htl).
  exists tl. repeat split; try assumption.
  apply tierRate_fallback; [exact Hlast |].
  intros u _. rewrite leb_spec. rewrite (proj1 (F64.is_nan_spec nan) eq_refl). reflexivity.
Qed.

Lemma editable_tiers_lookup_witness :
  map threshold (onTierRateChange (onTierRateChange DEFAULT_LCL_TIERS 0 170) 3 90)
  = [2; 5; 10; infinity].
Proof.
  apply (editable_tiers_lookup DEFAULT_LCL_TIERS
           (onTierRateChange (onTierRateChange DEFAULT_LCL_TIERS 0 170) 3 90)).
  - right. reflexivity.
  - apply editable_rate, editable_rate, editable_initial.
Defined.

(** * The pricing basis of the freight *)

Lemma tierRate_in_table (tiers : list Tier) (x r : float) :
  tierRate tiers x = JS.Return r -> exists t, t ∈ tiers /\ rate t = r.
Proof.
  unfold tierRate.
  destruct (find (fun t => x <=? threshold t) tiers) as [t |] eqn:Hfind.
  - intros [= <-]. exists t. split; [| reflexivity].
    destruct (find_split x tiers t Hfind) as (pre & post & -> & _).
    apply elem_of_app. right. constructor.
  - destruct (last tiers) as [t |] eqn:Hlast; [| discriminate].
    intros [= <-]. exists t. split; [| reflexivity].
    apply last_Some in Hlast as [l' ->]. apply elem_of_app. right. constructor.
Qed.

Lemma Math_max_bounds3 (a b m : float) :
  let r := JS.Math_max [a; b; m] in
  r ∈ [a; b; m] /\
  (r = nan <-> a = nan \/ b = nan \/ m = nan) /\
  (r = nan \/ ((a <=? r) = true /\ (b <=? r) = true /\ (m <=? r) = true)).
Proof.
  destruct (Math_max_spec a [b; m]) as (Hnan & Hle & Hin). cbn zeta in *.
  split; [exact Hin |]. split.
  - rewrite Hnan, !elem_of_cons, elem_of_nil.
    split; [intros [H | [H | [H | []]]] | intros [H | [H | H]]]; auto.
  - destruct Hle as [H | H]; [now left | right].
    repeat split; apply H; rewrite !elem_of_cons; auto.
Qed.

Lemma Math_max_bounds2 (a m : float) :
  let r := JS.Math_max [a; m] in
  r ∈ [a; m] /\
  (r = nan <-> a = nan \/ m = nan) /\
  (r = nan \/ ((a <=? r) = true /\ (m <=? r) = true)).
Proof.
  destruct (Math_max_spec a [m]) as (Hnan & Hle & Hin). cbn zeta in *.
  split; [exact Hin |]. split.
  - rewrite Hnan, !elem_of_cons, elem_of_nil.
    split; [intros [H | [H | []]] | intros [H | H]]; auto.
  - destruct Hle as [H | H]; [now left | right].
    repeat split; apply H; rewrite !elem_of_cons; auto.
Qed.

(** X7. When the freight is charged by weight, the chargeable weight is one
    of the actual weight, the volumetric weight and the minimum chargeable
    weight; it is NaN exactly when one of them is, and otherwise at least
    each of them.  The rate is the rate of a tier of the air table and the
    cost is the chargeable weight times the rate plus the fixed fees.
    Likewise for LCL, with the volume and the minimum volume. *)
Theorem freight_chargeable_basis (c : Config) (q : float) (fr : Freight) :
  calcFreight c q = JS.Return fr ->
  (forall ch r, basisLabel fr = PesoTributavel ch r ->
     let kg := unitWeightKg c * q in
     let volWeight := unitVolumeM3 c * q * airVolFactor c in
     cost fr = ch * r + airFixedFees c /\
     (exists t, t ∈ airTiers c /\ rate t = r) /\
     ch ∈ [kg; volWeight; airMinChargeKg c] /\
     (ch = nan <-> kg = nan \/ volWeight = nan \/ airMinChargeKg c = nan) /\
     (ch = nan \/
      ((kg <=? ch) = true /\ (volWeight <=? ch) = true /\
       (airMinChargeKg c <=? ch) = true))) /\
  (forall cbm r, basisLabel fr = VolumeTributavel cbm r ->
     let volM3 := unitVolumeM3 c * q in
     cost fr = cbm * r + lclFixedFees c /\
     (exists t, t ∈ lclTiers c /\ rate t = r) /\
     cbm ∈ [volM3; lclMinCbm c] /\
     (cbm = nan <-> volM3 = nan \/ lclMinCbm c = nan) /\
     (cbm = nan \/ ((volM3 <=? cbm) = true /\ (lclMinCbm c <=? cbm) = true))).
Proof.
  unfold calcFreight.
  destruct ((mode c =? "Aéreo Express")%string || (mode c =? "Aéreo (Carga)")%string).
  { destruct (tierRate _ _) as [r0 |] eqn:Hrate; cbn; [| discriminate].
    intros [= <-]. cbn. split; [| discriminate].
    intros ch r [= <- <-].
    split; [reflexivity |]. split; [now apply tierRate_in_table in Hrate |].
    apply Math_max_bounds3. }
  destruct (mode c =? "Marítimo LCL")%string.
  { destruct (tierRate _ _) as [r0 |] eqn:Hrate; cbn; [| discriminate].
    intros [= <-]. cbn. split; [discriminate |].
    intros cbm r [= <- <-].
    split; [reflexivity |]. split; [now apply tierRate_in_table in Hrate |].
    apply Math_max_bounds2. }
  repeat match goal with |- context [if ?t then _ else _] => destruct t end;
    intros [= <-]; cbn; split; discriminate.
Qed.

Lemma freight_chargeable_basis_witness :
  (45 <=? 80) = true /\ (unitVolumeM3 initial * 100 * 167 <=? 80) = true.
Proof.
  destruct (freight_chargeable_basis initial 100
              {| cost := 80 * 5.8 + 60; basisLabel := PesoTributavel 80 5.8 |} eq_refl)
    as [Hair _].
  destruct (Hair 80 5.8 eq_refl) as (_ & _ & _ & _ & [H | (_ & Hv & Hm)]).
  - apply (f_equal Prim2SF) in H. vm_compute in H. discriminate.
  - split; [exact Hm | exact Hv].
Defined.

(** X8. The freight reads the unit dimensions and the parameters of the
    selected mode only: two states in an air mode (Express or Carga, not
    necessarily the same one) with the same dimensions, unit weight and air
    parameters have the same freight at every quantity, and likewise two
    states in LCL mode, in FCL 20' mode or in FCL 40' mode with the same
    parameters of that mode. *)
Theorem calcFreight_reads_own_mode (c1 c2 : Config) (q : float) :
  unitLcm c1 = unitLcm c2 -> unitWcm c1 = unitWcm c2 -> unitHcm c1 = unitHcm c2 ->
  (airPanel c1 = true -> airPanel c2 = true ->
   unitWeightKg c1 = unitWeightKg c2 -> airTiers c1 = airTiers c2 ->
   airVolFactor c1 = airVolFactor c2 -> airMinChargeKg c1 = airMinChargeKg c2 ->
   airFixedFees c1 = airFixedFees c2 ->
   calcFreight c1 q = calcFreight c2 q) /\
  (mode c1 = "Marítimo LCL" -> mode c2 = "Marítimo LCL" ->
   lclTiers c1 = lclTiers c2 -> lclMinCbm c1 = lclMinCbm c2 ->
   lclFixedFees c1 = lclFixedFees c2 ->
   calcFreight c1 q = calcFreight c2 q) /\
  (mode c1 = "Marítimo FCL 20'" -> mode c2 = "Marítimo FCL 20'" ->
   fcl20Price c1 = fcl20Price c2 -> fclFixedFees c1 = fclFixedFees c2 ->
   calcFreight c1 q = calcFreight c2 q) /\
  (mode c1 = "Marítimo FCL 40'" -> mode c2 = "Marítimo FCL 40'" ->
   fcl40Price c1 = fcl40Price c2 -> fclFixedFees c1 = fclFixedFees c2 ->
   calcFreight c1 q = calcFreight c2 q).
Proof.
  intros HL HW HH.
  assert (Hvol : unitVolumeM3 c1 = unitVolumeM3 c2).
  { unfold unitVolumeM3. now rewrite HL, HW, HH. }
  unfold calcFreight, airPanel. rewrite Hvol.
  split; [| split; [| split]].
  - intros -> -> -> -> -> -> ->. reflexivity.
  - intros -> -> -> -> ->. reflexivity.
  - intros -> -> -> ->. reflexivity.
  - intros -> -> -> ->. reflexivity.
Qed.

Lemma calcFreight_reads_own_mode_witness :
  calcFreight
    (setMode "Aéreo Express" (setUnitPrice 1 (setFcl20Price 9 (setLclTiers [] initial))))
    250
  = calcFreight initial 250.
Proof.
  apply (proj1 (calcFreight_reads_own_mode _ initial 250 eq_refl eq_refl eq_refl));
    reflexivity.
Defined.

(** * One container *)

Lemma max2_1_le (y : float) : (y <=? 1) = true -> JS.max2 1 y = 1.
Proof.
  intros H. unfold JS.max2. change (is_nan 1) with false.
  rewrite (leb_not_nan_l _ _ H). cbn [orb].
  destruct (1 <? y) eqn:E.
  - apply F64.ltb_leb_false in E. congruence.
  - change (get_sign 1) with false. destruct (y <? 1); reflexivity.
Qed.

Lemma of_Z_opp_le_1 (n : Z) : (0 < n < 2 ^ 53)%Z -> (- JS.of_Z n <=? 1) = true.
Proof.
  intros Hn. rewrite leb_spec, opp_spec.
  pose proof (F64.of_Z_exact n Hn) as Hint.
  pose proof (F64.of_Z_nonneg n ltac:(lia)) as Hnn.
  change (Prim2SF 1) with (S754_finite false 4503599627370496 (-52)).
  destruct (Prim2SF (JS.of_Z n)) as [s|s| |s m e]; cbn in Hint, Hnn; try contradiction.
  - reflexivity.
  - destruct s; [contradiction | reflexivity].
Qed.

Lemma le_1_mantissa (x : float) (m : positive) (e : Z) :
  Prim2SF x = S754_finite false m e -> (x <=? 1) = true ->
  (e < 0)%Z /\ (Zpos m <= 2 ^ (- e))%Z.
Proof.
  intros Hx H.
  pose proof (F64.valid_finite x false m e Hx) as Hb.
  pose proof (F64.bounded_digits m e Hb) as Hd.
  pose proof (F64.digits2_upper m) as Hup.
  assert (H53 : (Zpos m < 2 ^ 53)%Z).
  { eapply Z.lt_le_trans; [exact Hup |]. apply Z.pow_le_mono_r; lia. }
  revert H. rewrite leb_spec, Hx. unfold SFleb.
  change (Prim2SF 1) with (S754_finite false 4503599627370496 (-52)).
  cbn [SFcompare].
  destruct (Z.compare_spec e (-52)) as [Heq | Hlt | Hgt]; try discriminate.
  - intros H. split; [lia |].
    assert (Hle : (m <= 4503599627370496)%positive).
    { unfold Pos.le, Pos.compare.
      destruct (Pos.compare_cont Eq m 4503599627370496); discriminate. }
    apply Pos2Z.pos_le_pos in Hle.
    replace (- e)%Z with 52%Z by lia.
    change (2 ^ 52)%Z with (Zpos 4503599627370496). exact Hle.
  - intros _. split; [lia |].
    assert (2 ^ 53 <= 2 ^ (- e))%Z by (apply Z.pow_le_mono_r; lia). lia.
Qed.

(** The ceiling of a Number that is at most 1 is at most 1. *)
Lemma Math_ceil_le_1 (x : float) : (x <=? 1) = true -> (JS.Math_ceil x <=? 1) = true.
Proof.
  intros H. unfold JS.Math_ceil.
  destruct (Prim2SF x) as [s|s| |s m e] eqn:Hx; try exact H.
  destruct (0 <=? e)%Z eqn:He; [exact H |].
  apply Z.leb_gt in He.
  assert (Hk : (0 < 2 ^ (- e))%Z) by (apply Z.pow_pos_nonneg; lia).
  cbv zeta.
  destruct s.
  - pose proof (F64.valid_finite x true m e Hx) as Hb.
    pose proof (F64.bounded_digits m e Hb) as Hd.
    pose proof (F64.digits2_upper m) as Hup.
    assert (H53 : (Zpos m < 2 ^ 53)%Z).
    { eapply Z.lt_le_trans; [exact Hup |]. apply Z.pow_le_mono_r; lia. }
    destruct (Zpos m / 2 ^ (- e) =? 0)%Z eqn:En; [reflexivity |].
    apply Z.eqb_neq in En. apply of_Z_opp_le_1.
    pose proof (Z.div_pos (Zpos m) (2 ^ (- e)) ltac:(lia) Hk).
    pose proof (Z.div_le_upper_bound (Zpos m) (2 ^ (- e)) (Zpos m) Hk ltac:(nia)).
    lia.
  - destruct (le_1_mantissa x m e Hx H) as [_ Hle].
    destruct (Z.eq_dec (Zpos m) (2 ^ (- e))%Z) as [Heq | Hne].
    + rewrite Heq, Z.div_same, Z.mod_same by lia. reflexivity.
    + rewrite Z.div_small, Z.mod_small by lia.
      destruct (Zpos m =? 0)%Z eqn:E0; [apply Z.eqb_eq in E0; lia | reflexivity].
Qed.

(** X9. In an FCL mode, when the volume divided by the capacity of the
    container is at most 1 (a zero or negative quotient included), exactly
    one container is charged: the cost is the container price plus the fixed
    fees. *)
Theorem fcl_single_container (c : Config) (q : float) :
  let volM3 := unitVolumeM3 c * q in
  (mode c = "Marítimo FCL 20'" ->
   (volM3 / 33.2 <=? 1) = true ->
   calcFreight c q
   = JS.Return {| cost := fcl20Price c + fclFixedFees c;
                  basisLabel := Contentores20 1 (volM3 / (1 * 33.2) * 100) |}) /\
  (mode c = "Marítimo FCL 40'" ->
   (volM3 / 67.7 <=? 1) = true ->
   calcFreight c q
   = JS.Return {| cost := fcl40Price c + fclFixedFees c;
                  basisLabel := Contentores40 1 (volM3 / (1 * 67.7) * 100) |}).
Proof.
  intros volM3.
  assert (Hone : forall x, (x <=? 1) = true -> JS.Math_max [1; JS.Math_ceil x] = 1).
  { intros x Hx. unfold JS.Math_max. cbn [fold_left]. rewrite max2_neg_infinity.
    now apply max2_1_le, Math_ceil_le_1. }
  split; intros Hm Hfit; unfold calcFreight; rewrite Hm;
    cbn [String.eqb Ascii.eqb Bool.eqb orb].
  - change (FCL_CAPACITY_at "Marítimo FCL 20'") with 33.2. fold volM3.
    rewrite (Hone _ Hfit), F64.mul_one_r. reflexivity.
  - change (FCL_CAPACITY_at "Marítimo FCL 40'") with 67.7. fold volM3.
    rewrite (Hone _ Hfit), F64.mul_one_r. reflexivity.
Qed.

Lemma fcl_single_container_witness :
  calcFreight (setMode "Marítimo FCL 20'" initial) 40000
  = JS.Return {| cost := 1800 + 300;
                 basisLabel :=
                   Contentores20 1 (unitVolumeM3 initial * 40000 / (1 * 33.2) * 100) |}.
Proof.
  apply (proj1 (fcl_single_container (setMode "Marítimo FCL 20'" initial) 40000));
    reflexivity.
Defined.

(** * The exchange-rate and duty inputs *)

Lemma traverse_ext {A B : Type} (f g : A -> JS.completion B) (l : list A) :
  (forall a, f a = g a) -> JS.traverse f l = JS.traverse g l.
Proof.
  intros H. induction l as [| a l IH]; cbn [JS.traverse]; [reflexivity |].
  now rewrite H, IH.
Qed.

(** The values derived from a state are functions of the goods value, of the
    rate read from the exchange table and of the other fields. *)
Lemma onFxChange_other_currency (c : Config) (code : string) (v : float) :
  code <> supplierCurrency c ->
  JS.get (fx (onFxChange code v c)) (supplierCurrency (onFxChange code v c))
  = JS.get (fx c) (supplierCurrency c).
Proof.
  intros Hne. unfold JS.get.
  change (fx (onFxChange code v c)) with (<[code := v]> (fx c)).
  change (supplierCurrency (onFxChange code v c)) with (supplierCurrency c).
  rewrite lookup_insert_ne by congruence. reflexivity.
Qed.

(** X10. Editing the exchange rate of [code] stores the new rate under
    [code], changes no other entry, keeps the set of keys when [code] was
    one, and leaves the freight unchanged.  When [code] is the supplier
    currency the goods value becomes unit price times quantity times the new
    rate; otherwise the goods value, the landed costs, the unit landed cost,
    the composition and the sensitivity curve are unchanged. *)
Theorem onFxChange_effect (c : Config) (code : string) (v : float) :
  let c' := onFxChange code v c in
  fx c' !! code = Some v /\
  (forall k, k <> code -> fx c' !! k = fx c !! k) /\
  (is_Some (fx c !! code) -> dom (fx c') = dom (fx c)) /\
  (forall q, calcFreight c' q = calcFreight c q) /\
  (code = supplierCurrency c ->
   fxRate c' = JS.Number v /\ goodsEUR c' = unitPrice c * qty c * v) /\
  (code <> supplierCurrency c ->
   goodsEUR c' = goodsEUR c /\ landedExVAT c' = landedExVAT c /\
   landedInclVAT c' = landedInclVAT c /\ unitLanded c' = unitLanded c /\
   composition c' = composition c /\ sensitivityData c' = sensitivityData c).
Proof.
  intros c'.
  split; [apply lookup_insert_eq |].
  split; [intros k Hk; apply lookup_insert_ne; congruence |].
  split; [apply dom_insert_existing |].
  split; [reflexivity |].
  split.
  - intros ->. unfold goodsEUR, fxRate, JS.get.
    change (fx c') with (<[supplierCurrency c := v]> (fx c)).
    change (supplierCurrency c') with (supplierCurrency c).
    rewrite lookup_insert_eq. split; reflexivity.
  - intros Hne. pose proof (onFxChange_other_currency c code v Hne) as Hget.
    fold c' in Hget.
    assert (Hgoods : goodsEUR c' = goodsEUR c).
    { unfold goodsEUR, fxRate. rewrite Hget. reflexivity. }
    assert (Hfr : freight c' = freight c) by reflexivity.
    assert (Hins : insuranceEUR c' = insuranceEUR c).
    { unfold insuranceEUR. rewrite Hgoods, Hfr. reflexivity. }
    assert (Hcb : customsBase c' = customsBase c).
    { unfold customsBase. rewrite Hgoods, Hins, Hfr. reflexivity. }
    assert (Hduty : dutyEUR c' = dutyEUR c).
    { unfold dutyEUR. rewrite Hcb. reflexivity. }
    assert (Hex : landedExVAT c' = landedExVAT c).
    { unfold landedExVAT. rewrite Hgoods, Hins, Hduty, Hfr. reflexivity. }
    assert (Hvat : vatEUR c' = vatEUR c).
    { unfold vatEUR, vatBase. rewrite Hcb, Hduty. reflexivity. }
    assert (Hincl : landedInclVAT c' = landedInclVAT c).
    { unfold landedInclVAT. rewrite Hex, Hvat. reflexivity. }
    split; [exact Hgoods |]. split; [exact Hex |]. split; [exact Hincl |].
    split; [| split].
    + unfold unitLanded. rewrite Hincl. reflexivity.
    + unfold composition. rewrite Hgoods, Hins, Hduty, Hfr. reflexivity.
    + unfold sensitivityData. apply traverse_ext. intros i.
      unfold samplePoint, sens_goods. rewrite Hget. reflexivity.
Qed.




(** * What the results do not depend on *)

Lemma Math_max_2000 (z : float) : (z <=? 2000) = true -> JS.Math_max [2000; z] = 2000.
Proof.
  intros H. unfold JS.Math_max. cbn [fold_left]. rewrite max2_neg_infinity.
  unfold JS.max2. change (is_nan 2000) with false.
  rewrite (leb_not_nan_l _ _ H). cbn [orb].
  destruct (2000 <? z) eqn:E.
  - apply F64.ltb_leb_false in E. congruence.
  - change (get_sign 2000) with false. destruct (z <? 2000); reflexivity.
Qed.

(** X13. For a quantity whose double is at most 2000 the upper end of the
    sampled range is 2000 and the sampled quantities are those of the
    initial state, 10, 60, 110, 159, ..., 2000: the sensitivity curve is the
    same for any two such quantities. *)
Theorem sensitivity_independent_of_small_qty (c : Config) (q1 q2 : float) :
  (q1 * 2 <=? 2000) = true ->
  (q2 * 2 <=? 2000) = true ->
  qMax (setQty q1 c) = 2000 /\
  (forall i, sampleQty (setQty q1 c) i = sampleQty initial i) /\
  map (sampleQty (setQty q1 c)) (firstn 4 sampleIndices) = [10; 60; 110; 159] /\
  last (map (sampleQty (setQty q1 c)) sampleIndices) = Some 2000 /\
  sensitivityData (setQty q1 c) = sensitivityData (setQty q2 c).
Proof.
  intros H1 H2.
  assert (Hmax : forall q, (q * 2 <=? 2000) = true -> qMax (setQty q c) = 2000).
  { intros q Hq. unfold qMax. change (qty (setQty q c)) with q. now apply Math_max_2000. }
  assert (Hs : forall q, (q * 2 <=? 2000) = true ->
                 forall i, sampleQty (setQty q c) i = sampleQty initial i).
  { intros q Hq i. unfold sampleQty. rewrite (Hmax q Hq). reflexivity. }
  split; [now apply Hmax |]. split; [now apply Hs |]. split; [| split].
  - rewrite (map_ext _ (sampleQty initial) (Hs q1 H1)). reflexivity.
  - rewrite (map_ext _ (sampleQty initial) (Hs q1 H1)). reflexivity.
  - unfold sensitivityData. apply traverse_ext. intros i.
    rewrite (Hs q1 H1), (Hs q2 H2). reflexivity.
Qed.

Lemma sensitivity_independent_of_small_qty_witness :
  sensitivityData (setQty 1 initial) = sensitivityData (setQty 1000 initial).
Proof.
  apply (sensitivity_independent_of_small_qty initial 1 1000); reflexivity.
Defined.

(** X12. The VAT percentage never enters the landed cost excluding VAT;
    with recoverable VAT it changes neither the landed cost including VAT,
    nor the unit landed cost, nor the composition, nor the sensitivity
    curve. *)
Theorem vatPct_irrelevant_when_recoverable (c : Config) (p : float) :
  landedExVAT (setVatPct p c) = landedExVAT c /\
  (vatRecoverable c = true ->
   landedInclVAT (setVatPct p c) = landedInclVAT c /\
   unitLanded (setVatPct p c) = unitLanded c /\
   composition (setVatPct p c) = composition c /\
   sensitivityData (setVatPct p c) = sensitivityData c).
Proof.
  split; [reflexivity |]. intros Hrec.
  assert (Hincl : landedInclVAT (setVatPct p c) = landedInclVAT c).
  { unfold landedInclVAT, vatEUR.
    change (vatRecoverable (setVatPct p c)) with (vatRecoverable c).
    change (landedExVAT (setVatPct p c)) with (landedExVAT c).
    change (vatBase (setVatPct p c)) with (vatBase c).
    rewrite Hrec. destruct (landedExVAT c); [| reflexivity].
    destruct (vatBase c); reflexivity. }
  split; [exact Hincl |]. split; [| split].
  - unfold unitLanded. rewrite Hincl. reflexivity.
  - reflexivity.
  - unfold sensitivityData. apply traverse_ext. intros i.
    change (sampleQty (setVatPct p c) i) with (sampleQty c i).
    unfold samplePoint.
    change (vatRecoverable (setVatPct p c)) with (vatRecoverable c).
    rewrite Hrec. reflexivity.
Qed.

Lemma vatPct_irrelevant_when_recoverable_witness :
  unitLanded (setVatPct 6 initial) = unitLanded initial.
Proof.
  destruct (vatPct_irrelevant_when_recoverable initial 6) as [_ H].
  destruct (H eq_refl) as (_ & Hu & _). exact Hu.
Defined.

(** * The pie chart *)

Lemma cellFills_length (slices : list Slice) :
  cellFills slices = map cellFill (seq 0 (length slices)).
Proof. unfold cellFills. apply imap_seq_0. Qed.

Lemma cellFill_distinct (n : nat) :
  (n <= 8)%nat ->
  NoDup (map cellFill (seq 0 n)) /\ Forall is_Some (map cellFill (seq 0 n)).
Proof.
  intros Hn.
  do 9 (destruct n as [| n];
        [split; [refine (bool_decide_unpack _ _); vm_compute; exact I
                | repeat constructor; eexists; reflexivity] |]).
  lia.
Qed.

Lemma filter_length_lt {A : Type} (P : A -> bool) (l : list A) (x : A) :
  In x l -> P x = false -> (length (List.filter P l) < length l)%nat.
Proof.
  induction l as [| a l IH]; intros Hin Hx; [contradiction |].
  cbn [List.filter length]. destruct Hin as [-> | Hin].
  - rewrite Hx. pose proof (List.filter_length_le P l). lia.
  - specialize (IH Hin Hx). destruct (P a); cbn [length]; lia.
Qed.

(** X14. Every slice of the cost composition has a positive value, the
    informational product-origin marker is never one of them, and there are
    at most 8 slices; so every cell of the pie is filled with a colour of
    the palette and no two cells share a colour. *)
Theorem composition_slices (c : Config) (slices : list Slice) :
  composition c = JS.Return slices ->
  Forall (fun s => (0 <? value s) = true) slices /\
  (length slices <= 8)%nat /\
  (forall s, s ∈ slices ->
     name s <> String.append "Origem produto: " (productOrigin c)) /\
  Forall is_Some (cellFills slices) /\
  NoDup (cellFills slices).
Proof.
  unfold composition.
  destruct (freight c) as [fr |]; [| discriminate].
  destruct (insuranceEUR c) as [ins |]; [| discriminate].
  destruct (dutyEUR c) as [duty |]; [| discriminate].
  cbn [mbind completion_bind JS.bind].
  match goal with |- context [List.filter ?f ?l] => set (P := f); set (L := l) end.
  intros H. assert (E : slices = List.filter P L) by (now injection H). subst slices. clear H.
  assert (Hin : forall s, s ∈ List.filter P L ->
                  (0 <? value s) = true /\
                  name s <> String.append "Origem produto: " (productOrigin c)).
  { intros s Hs. apply list_elem_of_In, List.filter_In in Hs as [Hs Hpos].
    split; [exact Hpos |]. subst L. cbn [In] in Hs.
    destruct Hs as [<- | [<- | Hs]]; [discriminate | |].
    { exfalso. subst P. cbv beta in Hpos. cbn [value] in Hpos. revert Hpos.
      change (0 <? 0) with false. discriminate. }
    repeat (destruct Hs as [<- | Hs]; [discriminate |]). contradiction. }
  assert (Hlen : (length (List.filter P L) <= 8)%nat).
  { enough (length (List.filter P L) < 9)%nat by lia.
    apply (filter_length_lt P L
             {| name := String.append "Origem produto: " (productOrigin c);
                value := 0 |}).
    - subst L. right. left. reflexivity.
    - subst P. cbv beta. cbn [value]. reflexivity. }
  clearbody P L.
  split; [apply Forall_forall; intros s Hs; exact (proj1 (Hin s Hs)) |].
  split; [exact Hlen |].
  split; [intros s Hs; exact (proj2 (Hin s Hs)) |].
  rewrite cellFills_length.
  destruct (cellFill_distinct _ Hlen) as [Hnd Hsome].
  split; assumption.
Qed.

Lemma composition_slices_witness :
  exists slices,
    composition initial = JS.Return slices /\ length slices = 6%nat /\
    NoDup (cellFills slices).
Proof.
  destruct (composition initial) as [slices |] eqn:E; [| vm_compute in E; discriminate E].
  exists slices. split; [reflexivity |].
  destruct (composition_slices initial slices E) as (_ & _ & _ & _ & Hnd).
  split; [| exact Hnd].
  vm_compute in E. injection E as <-. reflexivity.
Defined.

(** * The slices add up *)

Lemma nonneg_cases (x : float) :
  (0 <=? x) = true -> (0 <? x) = true \/ PrimFloat.is_zero x = true.
Proof.
  rewrite leb_spec, ltb_spec, F64.is_zero_spec. unfold SFleb, SFltb.
  change (Prim2SF 0) with (S754_zero false).
  destruct (Prim2SF x) as [s|[]| |[] m e]; cbn; intros H; try discriminate; eauto.
Qed.

Lemma zero_add_pos (z x : float) :
  PrimFloat.is_zero z = true -> (0 <? x) = true -> z + x = x.
Proof.
  rewrite F64.is_zero_spec, ltb_spec. unfold SFltb.
  change (Prim2SF 0) with (S754_zero false).
  intros [s Hz] Hx. apply Prim2SF_inj. rewrite add_spec, Hz.
  destruct (Prim2SF x) as [s'|[]| |[] m e]; cbn in Hx; try discriminate; reflexivity.
Qed.

Lemma add_zero_cases (p x : float) :
  PrimFloat.is_zero x = true ->
  p + x = p \/ (PrimFloat.is_zero p = true /\ PrimFloat.is_zero (p + x) = true).
Proof.
  rewrite !F64.is_zero_spec. intros [s Hx].
  destruct (Prim2SF p) as [sp|sp| |sp m e] eqn:Hp.
  - right. split; [eauto |]. rewrite add_spec, Hp, Hx. unfold SF64add, SFadd.
    destruct sp, s; cbn; eauto.
  - left. apply Prim2SF_inj. rewrite add_spec, Hp, Hx. reflexivity.
  - left. apply Prim2SF_inj. rewrite add_spec, Hp, Hx. reflexivity.
  - left. apply Prim2SF_inj. rewrite add_spec, Hp, Hx. reflexivity.
Qed.

Lemma same_sum_step (s p x : float) :
  (0 <=? x) = true -> same_sum s p ->
  same_sum (if 0 <? x then s + x else s) (p + x).
Proof.
  intros Hx Hsp. destruct (nonneg_cases x Hx) as [Hpos | Hzero].
  - rewrite Hpos. destruct Hsp as [-> | [Hs Hp]]; [now left |].
    left. now rewrite !zero_add_pos.
  - assert (Hn : (0 <? x) = false).
    { revert Hzero. rewrite F64.is_zero_spec, ltb_spec. unfold SFltb.
      change (Prim2SF 0) with (S754_zero false). intros [sx ->]. reflexivity. }
    rewrite Hn. destruct (add_zero_cases p x Hzero) as [E | [Hp Hpx]].
    + rewrite E. exact Hsp.
    + destruct Hsp as [-> | [Hs _]]; right; auto.
Qed.

Lemma same_sum_fold (xs : list float) : forall s p,
  Forall (fun x => (0 <=? x) = true) xs -> same_sum s p ->
  same_sum (fold_left PrimFloat.add (List.filter (fun x => 0 <? x) xs) s)
           (fold_left PrimFloat.add xs p).
Proof.
  induction xs as [| x xs IH]; intros s p Hall Hsp; [exact Hsp |].
  inversion Hall as [| ? ? Hx Hxs]; subst.
  cbn [List.filter fold_left].
  pose proof (same_sum_step s p x Hx Hsp) as Hstep.
  destruct (0 <? x); cbn [fold_left]; now apply IH.
Qed.

Lemma same_sum_value (s p : float) :
  same_sum s p -> JS.same_value_zero s p = true.
Proof.
  unfold JS.same_value_zero. intros [-> | [Hs Hp]].
  - destruct (is_nan p) eqn:Hn; [apply orb_true_r |].
    apply orb_true_iff. left.
    rewrite FloatAxioms.eqb_spec. unfold SFeqb.
    rewrite F64.SFcompare_refl; [reflexivity | now apply F64.is_nan_false].
  - apply orb_true_iff. left.
    apply F64.is_zero_spec in Hs as [ss Hs]. apply F64.is_zero_spec in Hp as [sp Hp].
    rewrite FloatAxioms.eqb_spec, Hs, Hp. reflexivity.
Qed.

(** X15. When none of the eight cost components is negative or NaN, the
    values of the slices, added in order from 0, give the landed cost
    excluding VAT: the same Number, up to the sign of a zero. *)
Theorem composition_sums_to_landedExVAT (c : Config) (fr : Freight) (ins duty : float) :
  freight c = JS.Return fr ->
  insuranceEUR c = JS.Return ins ->
  dutyEUR c = JS.Return duty ->
  Forall (fun x => (0 <=? x) = true)
    [goodsEUR c; localOriginTransport c; cost fr; ins; duty; brokerageFee c;
     portTHC c; otherFees c] ->
  exists slices ex,
    composition c = JS.Return slices /\
    landedExVAT c = JS.Return ex /\
    JS.same_value_zero (fold_left PrimFloat.add (map value slices) 0) ex = true.
Proof.
  intros Hfr Hins Hduty Hall.
  unfold composition, landedExVAT. rewrite Hfr, Hins, Hduty.
  cbn [mbind completion_bind JS.bind].
  eexists. eexists. split; [reflexivity |]. split; [reflexivity |].
  rewrite (map_value_filter (fun x => 0 <? x)). cbn [map value].
  apply same_sum_value.
  inversion Hall as [| g rest Hg Hrest]; subst.
  cbn [List.filter]. change (0 <? 0) with false. cbv iota.
  match goal with |- same_sum _ ?e =>
    change e with
      (fold_left PrimFloat.add
         [localOriginTransport c; cost fr; ins; duty; brokerageFee c; portTHC c;
          otherFees c] (goodsEUR c)) end.
  match goal with |- same_sum (fold_left _ (if _ then _ :: ?l else _) _) _ =>
    set (kept := l) end.
  assert (Hkept : kept = List.filter (fun x => 0 <? x)
            [localOriginTransport c; cost fr; ins; duty; brokerageFee c; portTHC c;
             otherFees c]) by reflexivity.
  clearbody kept. subst kept.
  destruct (nonneg_cases _ Hg) as [Hpos | Hzero].
  - rewrite Hpos.
    apply (same_sum_fold
             [localOriginTransport c; cost fr; ins; duty; brokerageFee c; portTHC c;
              otherFees c] (0 + goodsEUR c) (goodsEUR c)); [exact Hrest |].
    left. apply zero_add_pos; [reflexivity | exact Hpos].
  - assert (Hn : (0 <? goodsEUR c) = false).
    { revert Hzero. rewrite F64.is_zero_spec, ltb_spec. unfold SFltb.
      change (Prim2SF 0) with (S754_zero false). intros [sx ->]. reflexivity. }
    rewrite Hn.
    apply (same_sum_fold
             [localOriginTransport c; cost fr; ins; duty; brokerageFee c; portTHC c;
              otherFees c] 0 (goodsEUR c)); [exact Hrest |].
    right. split; [reflexivity | exact Hzero].
Qed.

Lemma composition_sums_to_landedExVAT_witness :
  exists slices,
    composition initial = JS.Return slices /\
    fold_left PrimFloat.add (map value slices) 0 = 28584.62.
Proof.
  destruct (composition_sums_to_landedExVAT initial
              {| cost := 80 * 5.8 + 60; basisLabel := PesoTributavel 80 5.8 |}
              140.62 0 eq_refl eq_refl eq_refl)
    as (slices & ex & Hc & _ & _).
  - repeat constructor.
  - exists slices. split; [exact Hc |].
    vm_compute in Hc. injection Hc as <-. reflexivity.
Defined.
